(** * Multi-Agent-Coder: the agent execution and orchestration engine

    A shallow embedding of [src/app.py]: the command executor
    ([BashExecutor.run]), the response parser ([SimpleAgent.extract_*]),
    the agent session ([SimpleAgent.query_llm], [execute_read_file],
    [create_files_from_tags], [execute_bash_commands]), the worker loop
    ([run_swe_agent]) and the planning and phase-monitoring parts of the
    coordinator ([run_pm_agent]).

    Conventions.
    - A Python [str] is a [string]; each [ascii] stands for one code point
      below 256.  [py_isspace], [py_lower] and [py_isword] follow
      [str.isspace], [str.lower] and the regular expression class [\w] on
      that range.
    - Python code runs in the monad [M]: a state transformer that either
      returns a value or raises an exception; the state survives a raise,
      as mutation does in Python.
    - The language model, the shell, the file system and the clock are the
      operations of an abstract [World]; every call to one of them is also
      recorded, in order, in the trace of the state.
    - Console printing and [SimpleAgent.log] only feed the observability
      sink and never decide control flow; they are left out. *)

From Stdlib Require Import ZArith Lia Ascii String DecimalString.
From stdpp Require Import base list strings gmap sorting.

Open Scope string_scope.
Open Scope list_scope.
Open Scope Z_scope.

(** Texts are built by [+:+]; proofs about them compute it. *)
#[local] Arguments String.append !_ _ / : simpl nomatch.
#[local] Arguments Ascii.eqb : simpl never.

(** ** Python strings *)

Module PyStr.

Definition nl : string := String "010"%char "".
Definition dq : string := String "034"%char "".

(** [str.isspace] for one code point below 256. *)
Definition py_isspace (c : ascii) : bool :=
  let n := nat_of_ascii c in
  ((9 <=? n) && (n <=? 13))%nat || ((28 <=? n) && (n <=? 32))%nat
  || (n =? 133)%nat || (n =? 160)%nat.

(** [str.lower] for one code point below 256. *)
Definition py_lower_char (c : ascii) : ascii :=
  let n := nat_of_ascii c in
  if ((65 <=? n) && (n <=? 90))%nat
     || (((192 <=? n) && (n <=? 222))%nat && negb (n =? 215)%nat)
  then ascii_of_nat (n + 32) else c.

Fixpoint py_lower (s : string) : string :=
  match s with
  | "" => ""
  | String c s' => String (py_lower_char c) (py_lower s')
  end.

(** The class [\w] of a [str] pattern, below 256. *)
Definition py_isword (c : ascii) : bool :=
  let n := nat_of_ascii c in
  ((48 <=? n) && (n <=? 57))%nat || ((65 <=? n) && (n <=? 90))%nat
  || ((97 <=? n) && (n <=? 122))%nat || (n =? 95)%nat
  || (n =? 170)%nat || (n =? 178)%nat || (n =? 179)%nat || (n =? 181)%nat
  || (n =? 185)%nat || (n =? 186)%nat || ((188 <=? n) && (n <=? 190))%nat
  || (((192 <=? n) && (n <=? 255))%nat
      && negb (n =? 215)%nat && negb (n =? 247)%nat).

Definition is_digit (c : ascii) : bool :=
  let n := nat_of_ascii c in ((48 <=? n) && (n <=? 57))%nat.

(** [s.startswith(p)] *)
Fixpoint startswith (p s : string) : bool :=
  match p, s with
  | "", _ => true
  | String a p', String b s' => if Ascii.eqb a b then startswith p' s' else false
  | String _ _, "" => false
  end.

(** [sub in s] *)
Fixpoint contains (sub s : string) : bool :=
  startswith sub s
  || match s with
     | "" => false
     | String _ s' => contains sub s'
     end.

(** The longest prefix whose characters satisfy [p], and the rest. *)
Fixpoint span (p : ascii → bool) (s : string) : string * string :=
  match s with
  | "" => ("", "")
  | String c s' =>
      if p c then let '(a, b) := span p s' in (String c a, b) else ("", s)
  end.

Fixpoint drop_while (p : ascii → bool) (s : string) : string :=
  match s with
  | "" => ""
  | String c s' => if p c then drop_while p s' else s
  end.

Fixpoint all_chars (p : ascii → bool) (s : string) : bool :=
  match s with
  | "" => true
  | String c s' => p c && all_chars p s'
  end.

Definition lstrip (s : string) : string := drop_while py_isspace s.

Fixpoint rstrip (s : string) : string :=
  match s with
  | "" => ""
  | String c s' =>
      match rstrip s' with
      | "" => if py_isspace c then "" else String c ""
      | r => String c r
      end
  end.

(** [s.strip()] *)
Definition strip (s : string) : string := rstrip (lstrip s).

(** [s.endswith(c)] for a one-character suffix. *)
Fixpoint endswith_char (c : ascii) (s : string) : bool :=
  match s with
  | "" => false
  | String a "" => Ascii.eqb a c
  | String _ s' => endswith_char c s'
  end.

(** [s[:-1]] *)
Fixpoint drop_last (s : string) : string :=
  match s with
  | "" => ""
  | String _ "" => ""
  | String a s' => String a (drop_last s')
  end.

Fixpoint drop (n : nat) (s : string) : string :=
  match n, s with
  | O, _ => s
  | S _, "" => ""
  | S n', String _ s' => drop n' s'
  end.

(** The first occurrence of [pat] in [s]: the text before it and the
    text after it. *)
Fixpoint find_sub (pat s : string) : option (string * string) :=
  if startswith pat s then Some ("", drop (String.length pat) s)
  else match s with
       | "" => None
       | String c s' =>
           match find_sub pat s' with
           | Some (a, b) => Some (String c a, b)
           | None => None
           end
       end.

(** [s.split(sep)] for a non-empty separator: [skip] counts the characters
    of a separator already recognised, [cur] is the field being read. *)
Fixpoint split_go (sep s : string) (skip : nat) (cur : string) : list string :=
  match s with
  | "" => [cur]
  | String c s' =>
      match skip with
      | S k => split_go sep s' k cur
      | O =>
          if startswith sep s
          then cur :: split_go sep s' (String.length sep - 1) ""
          else split_go sep s' 0 (cur +:+ String c "")
      end
  end.

Definition split (sep s : string) : list string := split_go sep s 0 "".

(** [sep.join(l)] *)
Fixpoint join (sep : string) (l : list string) : string :=
  match l with
  | [] => ""
  | [x] => x
  | x :: l' => x +:+ sep +:+ join sep l'
  end.

(** [str(n)] and [f"{n}"] for an [int]. *)
Definition str_of_int (n : Z) : string := NilEmpty.string_of_int (Z.to_int n).

(** [bool(s)] *)
Definition nonempty (s : string) : bool :=
  match s with "" => false | _ => true end.

Definition digit_value (c : ascii) : Z := Z.of_nat (nat_of_ascii c) - 48.

Fixpoint digits_value (acc : Z) (s : string) : Z :=
  match s with
  | "" => acc
  | String c s' => digits_value (10 * acc + digit_value c) s'
  end.

(** The white space [int] skips around a number: the ASCII white space of
    C and, in a text that is not all ASCII, the other spaces of Unicode,
    which below 256 are 133 and 160.  The separators 28 to 31 are white
    space for [str.strip] but not here. *)
Definition int_isspace (c : ascii) : bool :=
  let n := nat_of_ascii c in
  ((9 <=? n) && (n <=? 13))%nat || (n =? 32)%nat
  || (n =? 133)%nat || (n =? 160)%nat.

Fixpoint rstrip_where (p : ascii → bool) (s : string) : string :=
  match s with
  | "" => ""
  | String c s' =>
      match rstrip_where p s' with
      | "" => if p c then "" else String c ""
      | r => String c r
      end
  end.

(** [int(s)] for a text without underscores: surrounding white space, an
    optional sign, one decimal digit or more, and no more than 4300 digits,
    the default limit of the conversion.  [None] is [ValueError]. *)
Definition py_int (s : string) : option Z :=
  let t := rstrip_where int_isspace (drop_while int_isspace s) in
  let '(sign, body) :=
    match t with
    | String "+"%char r => (1, r)
    | String "-"%char r => (-1, r)
    | _ => (1, t)
    end in
  if nonempty body && all_chars is_digit body
     && (String.length body <=? 4300)%nat
  then Some (sign * digits_value 0 body) else None.

End PyStr.
Import PyStr.

(** ** Exceptions and the execution monad *)

Inductive ExcKind :=
| TimeoutExpired | KeyError | StopIteration | TypeError | ValueError | OtherException.

(** An exception object: its class and [str(e)]. *)
Record PyExc := mkExc { exc_kind : ExcKind; exc_str : string }.

Inductive Res (A : Type) :=
| Ok (a : A)
| Raise (e : PyExc).
Arguments Ok {A} a.
Arguments Raise {A} e.

(** ** The data model

    The dataclasses [Task], [Agent] and [Project], without their creation
    time stamps and without the thread handle of an agent.  The status
    fields take the values the source assigns to them. *)

Inductive TaskStatus := pending | in_progress | completed | failed.
Inductive AgentStatus := idle | working | agent_completed | agent_failed.
Inductive ProjectStatus :=
| created | planning | project_in_progress | project_completed | project_failed.
Inductive AgentType := pm | swe.

Record Task := mkTask {
  task_id : string;
  task_description : string;
  task_branch : string;
  task_phase : Z;
  task_status : TaskStatus;
  task_assigned_to : option string;
  task_output : option string
}.

Record Agent := mkAgent {
  agent_id : string;
  agent_type : AgentType;
  agent_project_id : string;
  agent_status : AgentStatus;
  agent_current_task : option string
}.

Record Project := mkProject {
  project_id : string;
  project_name : string;
  project_description : string;
  project_status : ProjectStatus;
  project_tasks : list Task;
  project_pm_agent_id : option string;
  project_swe_agent_ids : list string;
  project_dir : option string
}.

Record Message := mkMessage { role : string; content : string }.

Record CompletedProcess := mkCompleted {
  proc_stdout : string;
  proc_stderr : string;
  proc_returncode : Z
}.

(** The calls an agent makes to the outside, as recorded in the trace. *)
Inductive Event :=
| EvSleep (seconds : Z)
| EvCompletion (conversation : list Message)
| EvRun (command : string) (cwd : option string) (timeout : Z)
| EvExists (path : string)
| EvMakedirs (path : string)
| EvReadText (path : string)
| EvWriteText (path content : string).

(** The outside of an agent: [litellm.completion], which gives the text
    of the reply or raises, [subprocess.run], [os.path.exists],
    [os.makedirs], reading and writing a text file, [time.sleep],
    [uuid.uuid4], and the other threads of the process, which may change
    the shared task records while this one sleeps. *)
Record World (W : Type) := mkWorld {
  completion : W → list Message → Res string * W;
  subprocess_run : W → string → option string → Z → Res CompletedProcess * W;
  path_exists : W → string → bool;
  makedirs : W → string → Res unit * W;
  read_text : W → string → Res string * W;
  write_text : W → string → string → Res unit * W;
  sleep : W → Z → W;
  uuid4 : W → string * W;
  others_run : W → list Task → list Task
}.
Arguments completion {W} _ _ _.
Arguments subprocess_run {W} _ _ _ _ _.
Arguments path_exists {W} _ _ _.
Arguments makedirs {W} _ _ _.
Arguments read_text {W} _ _ _.
Arguments write_text {W} _ _ _ _.
Arguments sleep {W} _ _ _.
Arguments uuid4 {W} _ _.
Arguments others_run {W} _ _ _.

(** The state an agent runs in: its conversation ([self.messages]), the
    [Project] object it holds a reference to, the process-wide [agents]
    dictionary, the outside world and the trace of calls made to it. *)
Record State (W : Type) := mkState {
  st_messages : list Message;
  st_project : Project;
  st_agents : gmap string Agent;
  st_world : W;
  st_trace : list Event
}.
Arguments mkState {W} _ _ _ _ _.
Arguments st_messages {W} _.
Arguments st_project {W} _.
Arguments st_agents {W} _.
Arguments st_world {W} _.
Arguments st_trace {W} _.

Definition M (W A : Type) : Type := State W → Res A * State W.

Definition ret {W A} (a : A) : M W A := λ st, (Ok a, st).

Definition raise {W A} (e : PyExc) : M W A := λ st, (Raise e, st).

Definition bind {W A B} (c : M W A) (k : A → M W B) : M W B :=
  λ st, match c st with
        | (Ok a, st') => k a st'
        | (Raise e, st') => (Raise e, st')
        end.

(** [try: body  except Exception as e: handler e] *)
Definition try_except {W A} (body : M W A) (handler : PyExc → M W A) : M W A :=
  λ st, match body st with
        | (Ok a, st') => (Ok a, st')
        | (Raise e, st') => handler e st'
        end.

Notation "x <- c ;; k" := (bind c (λ x, k))
  (at level 100, c at next level, right associativity).
Notation "c ;;; k" := (bind c (λ _, k))
  (at level 100, right associativity).

(** How the body of a loop or of a function ends: it falls through, or
    leaves the loop, or returns from the enclosing function. *)
Inductive Flow (R : Type) :=
| Next
| Break
| Return (r : R).
Arguments Next {R}.
Arguments Break {R}.
Arguments Return {R} r.

(** [for x in xs: body x] *)
Fixpoint for_each {W A R} (xs : list A) (body : A → M W (Flow R)) : M W (Flow R) :=
  match xs with
  | [] => ret Next
  | x :: xs' =>
      f <- body x ;;
      match f with
      | Next => for_each xs' body
      | Break => ret Next
      | Return r => ret (Return r)
      end
  end.

(** [range(n)] *)
Definition range (n : Z) : list Z := map Z.of_nat (seq 0 (Z.to_nat n)).

Definition get_state {W} : M W (State W) := λ st, (Ok st, st).

Definition emit {W} (ev : Event) : M W unit :=
  λ st, (Ok tt, mkState (st_messages st) (st_project st) (st_agents st)
                        (st_world st) (st_trace st ++ [ev])).

Definition set_world {W} (w : W) : M W unit :=
  λ st, (Ok tt, mkState (st_messages st) (st_project st) (st_agents st)
                        w (st_trace st)).

Definition set_messages {W} (ms : list Message) : M W unit :=
  λ st, (Ok tt, mkState ms (st_project st) (st_agents st)
                        (st_world st) (st_trace st)).

Definition set_project {W} (p : Project) : M W unit :=
  λ st, (Ok tt, mkState (st_messages st) p (st_agents st)
                        (st_world st) (st_trace st)).

Definition set_agents {W} (a : gmap string Agent) : M W unit :=
  λ st, (Ok tt, mkState (st_messages st) (st_project st) a
                        (st_world st) (st_trace st)).

(** [self.messages.append] of a message with role [r] and content [c] *)
Definition append_message {W} (r c : string) : M W unit :=
  st <- get_state ;; set_messages (st_messages st ++ [mkMessage r c]).

(** A call to the world that may raise and changes the world. *)
Definition call_world {W A} (ev : Event) (op : W → Res A * W) : M W A :=
  emit ev ;;;
  st <- get_state ;;
  let '(r, w') := op (st_world st) in
  set_world w' ;;;
  match r with
  | Ok a => ret a
  | Raise e => raise e
  end.

(** ** Regular expressions of the response parser

    Each pattern of the source is written out as a matcher that tries the
    pattern at the head of the text and returns the captured groups with
    the text after the match.  In every pattern a greedy repetition is
    followed by a character outside the repeated class, so the first
    successful backtracking path is the one that takes the longest run;
    the one pattern where backtracking gives something else,
    [\)\s*>+\s*\S+], is treated in [redirect_here]. *)

Module Re.

(** A literal at the head of the text. *)
Definition lit (p s : string) : option string :=
  if startswith p s then Some (drop (String.length p) s) else None.

(** [\s*] *)
Definition ws (s : string) : string := drop_while py_isspace s.

(** [\s+] *)
Definition ws1 (s : string) : option string :=
  match s with
  | String c s' => if py_isspace c then Some (ws s') else None
  | "" => None
  end.

Definition not_dq (c : ascii) : bool := negb (Ascii.eqb c "034"%char).

(** A captured group of one or more characters other than the double
    quote, then the closing double quote (written Q below). *)
Definition quoted (s : string) : option (string * string) :=
  let '(v, r) := span not_dq s in
  if nonempty v then r' ← lit dq r; Some (v, r') else None.

(** [re.findall] and [re.finditer]: the matches from left to right, each
    search starting where the previous match ended.  No pattern of the
    source matches the empty text, so the text left shrinks at every step
    and its length is enough fuel. *)
Fixpoint finditer_fuel {A} (fuel : nat) (m : string → option (A * string))
    (s : string) : list A :=
  match fuel with
  | O => []
  | S f =>
      match s with
      | "" => []
      | String _ s' =>
          match m s with
          | Some (a, rest) => a :: finditer_fuel f m rest
          | None => finditer_fuel f m s'
          end
      end
  end.

Definition finditer {A} (m : string → option (A * string)) (s : string) : list A :=
  finditer_fuel (String.length s) m s.

(** [re.search]: the leftmost match, as the text up to the end of the
    match and the text after it. *)
Fixpoint search_end (m : string → option (string * string)) (s : string)
    : option (string * string) :=
  match m s with
  | Some r => Some r
  | None =>
      match s with
      | "" => None
      | String c s' =>
          match search_end m s' with
          | Some (a, b) => Some (String c a, b)
          | None => None
          end
      end
  end.

Definition fence : string := "```".

(** [```bash\n(.*?)\n```] with [re.DOTALL] *)
Definition bash_block_here (s : string) : option (string * string) :=
  r ← lit (fence +:+ "bash" +:+ nl) s; find_sub (nl +:+ fence) r.

Definition is_gt (c : ascii) : bool := Ascii.eqb c ">"%char.

(** [\)\s*>+\s*\S+]: after the parenthesis and its spaces, the run of [>]
    and the spaces after it are taken whole when a target follows; when the
    text ends there and the run has two [>] or more, the pattern backtracks
    and the last [>] is the target. *)
Definition redirect_here (s : string) : option (string * string) :=
  r ← lit ")" s;
  let '(sp1, r1) := span py_isspace r in
  let '(gts, r2) := span is_gt r1 in
  let '(sp2, r3) := span py_isspace r2 in
  let '(tgt, r4) := span (λ c, negb (py_isspace c)) r3 in
  if nonempty gts then
    if nonempty tgt then Some (")" +:+ sp1 +:+ gts +:+ sp2 +:+ tgt, r4)
    else if (2 <=? String.length gts)%nat then Some (")" +:+ sp1 +:+ gts, r2)
    else None
  else None.

(** [READ_FILE\s*\(\s*path=Q([^Q]+)Q\s*\)] *)
Definition read_file_here (s : string) : option (string * string) :=
  r ← lit "READ_FILE" s;
  r ← lit "(" (ws r);
  r ← lit ("path=" +:+ dq) (ws r);
  '(path, r) ← quoted r;
  r ← lit ")" (ws r);
  Some (path, r).

(** [CREATE_SWE_AGENT\s*\(\s*task_id=Q([^Q]+)Q\s*,\s*description=Q([^Q]+)Q\s*,\s*branch=Q([^Q]+)Q\s*\)] *)
Definition create_swe_agent_here (s : string)
    : option ((string * string * string) * string) :=
  r ← lit "CREATE_SWE_AGENT" s;
  r ← lit "(" (ws r);
  r ← lit ("task_id=" +:+ dq) (ws r);
  '(tid, r) ← quoted r;
  r ← lit "," (ws r);
  r ← lit ("description=" +:+ dq) (ws r);
  '(descr, r) ← quoted r;
  r ← lit "," (ws r);
  r ← lit ("branch=" +:+ dq) (ws r);
  '(branch, r) ← quoted r;
  r ← lit ")" (ws r);
  Some ((tid, descr, branch), r).

(** [<file\s+path=Q([^Q]+)Q\s*>```(?:(\w+)\n)?(.*?)```</file>] with
    [re.DOTALL]: path, language hint (empty when the group is absent) and
    content. *)
Definition file_tag_here (s : string)
    : option ((string * string * string) * string) :=
  r ← lit "<file" s;
  r ← ws1 r;
  r ← lit ("path=" +:+ dq) r;
  '(path, r) ← quoted r;
  r ← lit (">" +:+ fence) (ws r);
  let '(lang, r') := span py_isword r in
  let '(language, body) :=
    if nonempty lang && startswith nl r' then (lang, drop 1 r') else ("", r) in
  '(text, rest) ← find_sub (fence +:+ "</file>") body;
  Some ((path, language, text), rest).

End Re.

(** ** The response parser ([SimpleAgent.extract_*]) *)

Definition output_patterns : list string :=
  ["switched to"; "already up to date"; "output:"; "error:";
   "volume in drive"; "directory of"; "exit code:"].

(** [any(pattern in line.lower() for pattern in [...])] *)
Definition looks_like_output (line : string) : bool :=
  existsb (λ pattern, contains pattern (py_lower line)) output_patterns.

(** The loop over [remaining_lines] after a grouped command. *)
Definition trailing_commands (remaining : string) : list string :=
  if nonempty remaining then
    fold_left
      (λ commands line,
         let line := strip line in
         if nonempty line && negb (startswith "#" line)
         then if negb (looks_like_output line)
              then if negb (startswith "CREATE_SWE_AGENT" line)
                   then commands ++ [line] else commands
              else commands
         else commands)
      (split nl remaining) []
  else [].

(** The fallback loop for a grouped command without a redirection. *)
Definition malformed_group_commands (block : string) : list string :=
  fold_left
    (λ commands line,
       let line := strip line in
       if nonempty line && negb (startswith "#" line)
          && negb (String.eqb line "(" || String.eqb line ")")
       then commands ++ [line] else commands)
    (split nl block) [].

(** One line of the regular branch: the commands so far and the pieces of
    the command being continued. *)
Definition regular_line (acc : list string * list string) (line : string)
    : list string * list string :=
  let '(commands, current_command) := acc in
  let line := strip line in
  if nonempty line && negb (startswith "#" line) then
    if looks_like_output line then acc
    else if endswith_char "092"%char line
         then (commands, current_command ++ [drop_last line])
         else
           let current_command := current_command ++ [line] in
           let full_command := join " " current_command in
           if negb (startswith "CREATE_SWE_AGENT" full_command)
           then (commands ++ [full_command], [])
           else (commands, [])
  else acc.

Definition regular_commands (block : string) : list string :=
  let '(commands, current_command) :=
    fold_left regular_line (split nl block) ([], []) in
  match current_command with
  | [] => commands
  | _ => commands ++ [join " " current_command]
  end.

(** The body of [for block in bash_blocks]: the commands one block adds. *)
Definition block_commands (block : string) : list string :=
  let block := strip block in
  if startswith "(" block && contains ")" block then
    match Re.search_end Re.redirect_here block with
    | Some (grouped_command, rest) =>
        grouped_command :: trailing_commands (strip rest)
    | None => malformed_group_commands block
    end
  else regular_commands block.

Definition bash_blocks (text : string) : list string :=
  Re.finditer Re.bash_block_here text.

Definition extract_bash_commands (text : string) : list string :=
  fold_left (λ commands block, commands ++ block_commands block)
            (bash_blocks text) [].

Record FileCreation := mkFileCreation {
  fc_path : string;
  fc_language : string;
  fc_content : string
}.

Definition extract_file_creations (text : string) : list FileCreation :=
  map (λ '(path, language, body), mkFileCreation path language (strip body))
      (Re.finditer Re.file_tag_here text).

Definition extract_read_file_calls (text : string) : list string :=
  Re.finditer Re.read_file_here text.

Record ToolCall := mkToolCall {
  tc_tool : string;
  tc_task_id : string;
  tc_description : string;
  tc_branch : string
}.

Definition extract_tool_calls (text : string) : list ToolCall :=
  map (λ '(tid, descr, branch), mkToolCall "create_swe_agent" tid descr branch)
      (Re.finditer Re.create_swe_agent_here text).

(** ** Paths ([os.path] on POSIX) *)

Module PosixPath.

(** [os.path.join(a, b)] *)
Definition join (a b : string) : string :=
  if startswith "/" b then b
  else if negb (nonempty a) || endswith_char "/"%char a then a +:+ b
  else a +:+ "/" +:+ b.

(** [p[:p.rfind('/') + 1]]: the text up to and including the last
    slash, empty when there is none. *)
Fixpoint head_upto_slash (p : string) : string :=
  match p with
  | "" => ""
  | String c p' =>
      match head_upto_slash p' with
      | "" => if Ascii.eqb c "/"%char then String c "" else ""
      | h => String c h
      end
  end.

Definition is_slash (c : ascii) : bool := Ascii.eqb c "/"%char.

(** [head.rstrip('/')] *)
Fixpoint rstrip_slash (s : string) : string :=
  match s with
  | "" => ""
  | String c s' =>
      match rstrip_slash s' with
      | "" => if is_slash c then "" else String c ""
      | r => String c r
      end
  end.

(** [os.path.dirname(p)] *)
Definition dirname (p : string) : string :=
  let head := head_upto_slash p in
  if nonempty head && negb (all_chars is_slash head)
  then rstrip_slash head else head.

End PosixPath.

(** ** The engine over an arbitrary world *)

Section Engine.

Context {W : Type} (env : World W).

Local Abbreviation M := (M W).

(** [os.path.exists(path)] *)
Definition os_path_exists (path : string) : M bool :=
  emit (EvExists path) ;;;
  st <- get_state ;;
  ret (path_exists env (st_world st) path).

(** [os.makedirs(path, exist_ok=True)] *)
Definition os_makedirs (path : string) : M unit :=
  call_world (EvMakedirs path) (λ w, makedirs env w path).

(** [time.sleep(seconds)] *)
Definition time_sleep (seconds : Z) : M unit :=
  emit (EvSleep seconds) ;;;
  st <- get_state ;;
  set_world (sleep env (st_world st) seconds).


(** [os.path.join(self.project.project_dir, path)]: a [TypeError] when
    the project directory is still [None]. *)
Definition join_project_dir (path : string) : M string :=
  st <- get_state ;;
  match project_dir (st_project st) with
  | Some d => ret (PosixPath.join d path)
  | None =>
      raise (mkExc TypeError
               "expected str, bytes or os.PathLike object, not NoneType")
  end.

(** *** [BashExecutor.run]

    The executor on a console that prints every text; the prints and a
    console that may refuse a text are in [BashExecutor_run_on] below. *)

Definition format_output (command : string) (result : CompletedProcess) : string :=
  let output := "$ " +:+ command +:+ nl in
  let output :=
    if nonempty (proc_stdout result)
    then output +:+ proc_stdout result +:+ nl else output in
  let output :=
    if nonempty (proc_stderr result)
    then output +:+ "STDERR: " +:+ proc_stderr result +:+ nl else output in
  output +:+ "Exit code: " +:+ str_of_int (proc_returncode result) +:+ nl.

(** [if cwd and not os.path.exists(cwd): os.makedirs(cwd, exist_ok=True)] *)
Definition ensure_cwd (cwd : option string) : M unit :=
  match cwd with
  | Some d =>
      if nonempty d
      then ex <- os_path_exists d ;; if ex then ret tt else os_makedirs d
      else ret tt
  | None => ret tt
  end.

(** The body of the [try] block. *)
Definition BashExecutor_run_body (command : string) (cwd : option string)
    (timeout : Z) : M (bool * string) :=
  ensure_cwd cwd ;;;
  result <- call_world (EvRun command cwd timeout)
                       (λ w, subprocess_run env w command cwd timeout) ;;
  ret (proc_returncode result =? 0, format_output command result).

Definition timeout_output (command : string) (timeout : Z) : string :=
  "$ " +:+ command +:+ nl +:+ "ERROR: Command timed out after "
  +:+ str_of_int timeout +:+ " seconds".

Definition error_output (command : string) (e : PyExc) : string :=
  "$ " +:+ command +:+ nl +:+ "ERROR: " +:+ exc_str e.

Definition is_timeout_expired (e : PyExc) : bool :=
  match exc_kind e with TimeoutExpired => true | _ => false end.

Definition BashExecutor_run (command : string) (cwd : option string)
    (timeout : Z) : M (bool * string) :=
  try_except (BashExecutor_run_body command cwd timeout)
    (λ e, if is_timeout_expired e
          then ret (false, timeout_output command timeout)
          else ret (false, error_output command e)).

(** *** [SimpleAgent.query_llm] *)

(** ["rate limit" in str(e).lower() or "timeout" in str(e).lower()] *)
Definition is_rate_limit_or_timeout (e : PyExc) : bool :=
  contains "rate limit" (py_lower (exc_str e))
  || contains "timeout" (py_lower (exc_str e)).

Definition fallback_msg (max_retries : Z) (last_error : PyExc) : string :=
  "LLM query failed after " +:+ str_of_int max_retries
  +:+ " attempts. Last error: " +:+ exc_str last_error.

(** [if self.messages and self.messages[-1]["role"] == "user":
       self.messages.pop()] *)
Definition pop_pending_user : M unit :=
  st <- get_state ;;
  match last (st_messages st) with
  | Some m =>
      if String.eqb (role m) "user"
      then set_messages (removelast (st_messages st)) else ret tt
  | None => ret tt
  end.

(** One turn of [for attempt in range(max_retries)].  The reply of the
    model is a text: a response without text, which the source appends to
    the conversation before it fails on its length, is outside the
    [World]. *)
Definition query_attempt (max_retries attempt : Z) : M (Flow string) :=
  try_except
    ((if 0 <? attempt then time_sleep (2 ^ attempt) else ret tt) ;;;
     st <- get_state ;;
     reply <- call_world (EvCompletion (st_messages st))
                         (λ w, completion env w (st_messages st)) ;;
     append_message "assistant" reply ;;;
     ret (Return reply))
    (λ e,
       if is_rate_limit_or_timeout e then ret Next
       else if attempt =? max_retries - 1 then
         pop_pending_user ;;; ret (Return (fallback_msg max_retries e))
       else ret Next).

(** The result is [None] when the loop ends without a [return]. *)
Definition query_llm (message : string) (max_retries : Z) : M (option string) :=
  append_message "user" message ;;;
  f <- for_each (range max_retries) (query_attempt max_retries) ;;
  match f with
  | Return reply => ret (Some reply)
  | _ => ret None
  end.

(** A [None] used where the parser expects text: [re] raises. *)
Definition expect_str (r : option string) : M string :=
  match r with
  | Some s => ret s
  | None =>
      raise (mkExc TypeError
               "expected string or bytes-like object, got 'NoneType'")
  end.

(** *** Applying the actions of a reply *)

(** [SimpleAgent.execute_read_file] *)
Definition execute_read_file (file_path : string) : M (bool * string) :=
  try_except
    (full_path <- join_project_dir file_path ;;
     ex <- os_path_exists full_path ;;
     if negb ex then ret (false, "File not found: " +:+ file_path)
     else
       text <- call_world (EvReadText full_path)
                          (λ w, read_text env w full_path) ;;
       let output := "Contents of " +:+ file_path +:+ ":" +:+ nl +:+ text in
       append_message "user" output ;;;
       ret (true, output))
    (λ e, ret (false, "Failed to read file " +:+ file_path +:+ ": " +:+ exc_str e)).

(** [for x in xs: results.append(body x)] *)
Fixpoint for_collect {A B} (xs : list A) (body : A → M B) : M (list B) :=
  match xs with
  | [] => ret []
  | x :: xs' => b <- body x ;; bs <- for_collect xs' body ;; ret (b :: bs)
  end.

(** One turn of the loop of [SimpleAgent.create_files_from_tags]. *)
Definition create_file (file_info : FileCreation) : M (bool * string) :=
  let relative_path := fc_path file_info in
  let text := fc_content file_info in
  full_path <- join_project_dir relative_path ;;
  try_except
    (let dir_path := PosixPath.dirname full_path in
     (if nonempty dir_path then os_makedirs dir_path else ret tt) ;;;
     call_world (EvWriteText full_path text)
                (λ w, write_text env w full_path text) ;;;
     let output :=
       "Created file: " +:+ relative_path +:+ nl +:+ "Size: "
       +:+ str_of_int (Z.of_nat (String.length text)) +:+ " bytes" in
     append_message "user" ("File created: " +:+ relative_path) ;;;
     ret (true, output))
    (λ e, ret (false, "Failed to create file " +:+ relative_path +:+ ": "
                      +:+ exc_str e)).

Definition create_files_from_tags (file_creations : list FileCreation)
    : M (list (bool * string)) :=
  for_collect file_creations create_file.

(** [SimpleAgent.execute_bash_commands]: the default time limit of
    [BashExecutor.run] is 30 seconds. *)
Fixpoint execute_bash_commands_in (project_dir : option string)
    (commands : list string) : M (list (bool * string)) :=
  match commands with
  | [] => ret []
  | cmd :: rest =>
      r <- BashExecutor_run cmd project_dir 30 ;;
      let '(success, output) := r in
      append_message "user" ("Command executed:" +:+ nl +:+ output) ;;;
      if negb success then ret [(success, output)]
      else
        results <- execute_bash_commands_in project_dir rest ;;
        ret ((success, output) :: results)
  end.

Definition execute_bash_commands (commands : list string)
    : M (list (bool * string)) :=
  st <- get_state ;;
  execute_bash_commands_in (project_dir (st_project st)) commands.

(** *** The shared registry *)

Definition with_task_status (s : TaskStatus) (t : Task) : Task :=
  mkTask (task_id t) (task_description t) (task_branch t) (task_phase t) s
         (task_assigned_to t) (task_output t).

Definition with_task_output (o : option string) (t : Task) : Task :=
  mkTask (task_id t) (task_description t) (task_branch t) (task_phase t)
         (task_status t) (task_assigned_to t) o.

Definition with_agent_status (s : AgentStatus) (a : Agent) : Agent :=
  mkAgent (agent_id a) (agent_type a) (agent_project_id a) s
          (agent_current_task a).

Definition with_current_task (t : option string) (a : Agent) : Agent :=
  mkAgent (agent_id a) (agent_type a) (agent_project_id a) (agent_status a) t.

Definition with_tasks (ts : list Task) (p : Project) : Project :=
  mkProject (project_id p) (project_name p) (project_description p)
            (project_status p) ts (project_pm_agent_id p)
            (project_swe_agent_ids p) (project_dir p).

(** [agents[aid].field = value]: a [KeyError] when the agent is not in
    the dictionary. *)
Definition agents_update (aid : string) (f : Agent → Agent) : M unit :=
  st <- get_state ;;
  match st_agents st !! aid with
  | Some a => set_agents (<[aid := f a]> (st_agents st))
  | None => raise (mkExc KeyError aid)
  end.

(** [task.field = value] for the task object at position [i] of
    [project.tasks]. *)
Definition task_update (i : nat) (f : Task → Task) : M unit :=
  st <- get_state ;;
  set_project (with_tasks (alter f i (project_tasks (st_project st)))
                          (st_project st)).

(** *** The worker loop ([run_swe_agent]) *)

(** [bool(l)] for a list. *)
Definition nonempty_list {A} (l : list A) : bool :=
  match l with [] => false | _ => true end.

Definition str_of_dir (d : option string) : string :=
  match d with Some s => s | None => "None" end.

Definition swe_prompt (task : Task) (dir : option string) : string :=
  join nl
    [ "";
      "Task: " +:+ task_description task;
      "Branch: " +:+ task_branch task;
      "Project Directory: " +:+ str_of_dir dir;
      "Phase: " +:+ str_of_int (task_phase task);
      "";
      "IMPORTANT: You are currently in the directory: " +:+ str_of_dir dir;
      "All commands will execute in this directory.";
      "";
      "SPECIFIC INSTRUCTIONS:";
      task_description task;
      "";
      "First, check out your feature branch and implement the task. Use Windows commands to:";
      "1. Create and checkout the branch";
      "2. Implement the required functionality efficiently";
      "3. Test your implementation";
      "4. Commit your changes";
      "";
      "Start with these commands:";
      "```bash";
      "git checkout -b " +:+ task_branch task;
      "echo %cd%";
      "dir";
      "```";
      "" ].

Definition continue_prompt : string :=
  "Continue with the implementation. What's next?".

Definition completion_signals : list string :=
  ["task completed"; "implementation complete"; "finished implementation"].

Definition completion_phrases : list string :=
  ["task completed"; "implementation complete"; "done"; "finished";
   "task is complete"].

(** [any(p in text.lower() for p in phrases)] *)
Definition mentions (phrases : list string) (text : string) : bool :=
  existsb (λ p, contains p (py_lower text)) phrases.

Definition commit_commands (task : Task) : list string :=
  [ "git add .";
    "git commit -m " +:+ dq +:+ "Phase " +:+ str_of_int (task_phase task)
    +:+ ": " +:+ task_description task +:+ dq ].

(** [for cmd in commit_commands: agent.bash.run(cmd, cwd=project.project_dir)] *)
Definition run_commit (task : Task) : M unit :=
  f <- for_each (R := unit) (commit_commands task)
         (λ cmd, st <- get_state ;;
                 BashExecutor_run cmd (project_dir (st_project st)) 30 ;;;
                 ret Next) ;;
  ret tt.

(** The three assignments that end a successful run. *)
Definition mark_completed (aid : string) (i : nat) (response : string) : M unit :=
  task_update i (with_task_status completed) ;;;
  task_update i (with_task_output (Some response)) ;;;
  agents_update aid (with_agent_status agent_completed).

(** The actions of one reply, applied: every read request, then every
    file creation, then the commands.  The value is the list [results] of
    the step. *)
Definition apply_reply (response : string) : M (list (bool * string)) :=
  read_results <- for_collect (extract_read_file_calls response) execute_read_file ;;
  let file_creations := extract_file_creations response in
  file_results <-
    match file_creations with
    | [] => ret []
    | _ => create_files_from_tags file_creations
    end ;;
  let commands := extract_bash_commands response in
  bash_results <-
    match commands with
    | [] => ret []
    | _ => execute_bash_commands commands
    end ;;
  ret (read_results ++ file_results ++ bash_results).

(** The end of a run that has detected completion: the commit and the
    three assignments. *)
Definition finish_task (aid : string) (i : nat) (task : Task) (response : string)
    : M (Flow unit) :=
  run_commit task ;;; mark_completed aid i response ;;; ret (Return tt).

(** The body of [for step in range(max_steps)].  The outputs are searched
    for a completion signal only when the reply had commands. *)
Definition worker_step (aid : string) (i : nat) (task : Task) (prompt : string)
    (step : Z) : M (Flow unit) :=
  r <- query_llm (if step =? 0 then prompt else continue_prompt) 3 ;;
  response <- expect_str r ;;
  results <- apply_reply response ;;
  if nonempty_list (extract_bash_commands response)
     && existsb (λ '(_, output), mentions completion_signals output) results
  then finish_task aid i task response
  else if mentions completion_phrases response
       then finish_task aid i task response
       else ret Next.

Definition max_steps : Z := 15.

(** The statements before the [try]: the agent goes to work and finds
    its task, the first one of the project with the given id. *)
Definition worker_start (aid tid : string) : M (nat * Task) :=
  agents_update aid (with_agent_status working) ;;;
  agents_update aid (with_current_task (Some tid)) ;;;
  st <- get_state ;;
  match list_find (λ t, task_id t = tid) (project_tasks (st_project st)) with
  | Some (i, task) =>
      task_update i (with_task_status in_progress) ;;;
      ret (i, task)
  | None => raise (mkExc StopIteration "")
  end.

Definition worker_loop (aid : string) (i : nat) (task : Task) : M (Flow unit) :=
  st <- get_state ;;
  let prompt := swe_prompt task (project_dir (st_project st)) in
  for_each (range max_steps) (worker_step aid i task prompt).

Definition run_swe_agent (aid tid : string) : M unit :=
  it <- worker_start aid tid ;;
  let '(i, task) := it in
  try_except
    (f <- worker_loop aid i task ;;
     match f with
     | Return _ => ret tt
     | _ =>
         task_update i (with_task_status completed) ;;;
         agents_update aid (with_agent_status agent_completed)
     end)
    (λ e,
       task_update i (with_task_status failed) ;;;
       agents_update aid (with_agent_status agent_failed)).

(** *** Planning and phase supervision ([run_pm_agent]) *)

Definition default_tool_calls : list ToolCall :=
  [ mkToolCall "create_swe_agent" "phase1_setup"
      "Create project structure and basic files" "feature/scaffolding";
    mkToolCall "create_swe_agent" "phase2_core"
      "Implement core functionality" "feature/core";
    mkToolCall "create_swe_agent" "phase2_ui"
      "Add user interface components" "feature/ui" ].

(** The spawn directives of the planning reply, or the default plan. *)
Definition planned_tool_calls (response : string) : list ToolCall :=
  match extract_tool_calls response with
  | [] => default_tool_calls
  | tool_calls => tool_calls
  end.

(** [int(task_id.split("phase")[1].split("_")[0])], and 1 when the id has
    no phase or the conversion raises. *)
Definition phase_of_task_id (tid : string) : Z :=
  if contains "phase" tid then
    match split "phase" tid with
    | _ :: second :: _ =>
        match split "_" second with
        | first :: _ => default 1 (py_int first)
        | [] => 1
        end
    | _ => 1
    end
  else 1.

Definition group_by_phase (tool_calls : list ToolCall) : gmap Z (list ToolCall) :=
  fold_left
    (λ phases call,
       if String.eqb (tc_tool call) "create_swe_agent" then
         let phase_num := phase_of_task_id (tc_task_id call) in
         <[phase_num := default [] (phases !! phase_num) ++ [call]]> phases
       else phases)
    tool_calls ∅.

(** [sorted(phases.keys())] *)
Definition sorted_phases (phases : gmap Z (list ToolCall)) : list Z :=
  merge_sort Z.le (map fst (map_to_list phases)).

Definition new_task (phase_num : Z) (call : ToolCall) : Task :=
  mkTask (tc_task_id call) (tc_description call) (tc_branch call) phase_num
         pending None None.

(** The tasks the coordinator creates, phase after phase, for a plan. *)
Definition planned_tasks (phases : gmap Z (list ToolCall)) : list Task :=
  flat_map (λ phase_num, map (new_task phase_num) (default [] (phases !! phase_num)))
           (sorted_phases phases).




Definition str_of_status (s : TaskStatus) : string :=
  match s with
  | pending => "pending"
  | in_progress => "in_progress"
  | completed => "completed"
  | failed => "failed"
  end.

Definition status_eqb (a b : TaskStatus) : bool :=
  String.eqb (str_of_status a) (str_of_status b).

(** [[t for t in project.tasks if t.phase == phase_num]] *)
Definition phase_tasks_status (phase_num : Z) (tasks : list Task) : list Task :=
  List.filter (λ t, task_phase t =? phase_num) tasks.

(** [all(t.status == "completed" for t in phase_tasks_status)] *)
Definition phase_complete (phase_num : Z) (tasks : list Task) : bool :=
  forallb (λ t, status_eqb (task_status t) completed)
          (phase_tasks_status phase_num tasks).

Definition status_prompt (phase_num : Z) (tasks : list Task) : string :=
  fold_left
    (λ acc task,
       acc +:+ "- " +:+ task_description task +:+ ": "
       +:+ str_of_status (task_status task) +:+ nl)
    tasks
    ("Phase " +:+ str_of_int phase_num +:+ " task status:" +:+ nl)
  +:+ nl +:+ "Provide bash commands to check progress. You can also use READ_FILE(path="
  +:+ dq +:+ "filename" +:+ dq +:+ ") to read specific files:".

(** The writes of the worker threads to the shared task records become
    visible to the coordinator where it sleeps. *)
Definition yield_to_workers : M unit :=
  st <- get_state ;;
  set_project (with_tasks (others_run env (st_world st)
                                      (project_tasks (st_project st)))
                          (st_project st)).

(** One turn of [while not phase_complete]: the new value of
    [phase_complete]. *)
Definition poll_phase (phase_num : Z) : M bool :=
  time_sleep 5 ;;;
  yield_to_workers ;;;
  st <- get_state ;;
  let tasks := project_tasks (st_project st) in
  if phase_complete phase_num tasks then ret true
  else
    r <- query_llm (status_prompt phase_num (phase_tasks_status phase_num tasks)) 3 ;;
    response <- expect_str r ;;
    for_collect (extract_read_file_calls response) execute_read_file ;;;
    let commands := extract_bash_commands response in
    match take 3 commands with
    | [] => ret tt
    | monitoring => execute_bash_commands monitoring ;;; ret tt
    end ;;;
    ret false.

(** The wait loop, cut after [fuel] polls: [true] when the phase was
    declared complete, [false] when the polls ran out first. *)
Fixpoint wait_for_phase (fuel : nat) (phase_num : Z) : M bool :=
  match fuel with
  | O => ret false
  | S fuel' =>
      done <- poll_phase phase_num ;;
      if done then ret true else wait_for_phase fuel' phase_num
  end.

End Engine.

(** ** A scripted world

    A world to run the engine in: the replies of the model are read from
    a script (and a last reply is repeated when the script is over), the
    shell answers by a fixed table, files are a finite map from paths to
    contents, directories a list of paths, and fresh identifiers are
    numbered. *)

Module Sim.

Record world := mkSim {
  replies : list (Res string);
  last_reply : Res string;
  shell : string → Res CompletedProcess;
  files : gmap string string;
  dirs : list string;
  next_uuid : Z;
  workers : list Task → list Task
}.

Definition with_replies (r : list (Res string)) (w : world) : world :=
  mkSim r (last_reply w) (shell w) (files w) (dirs w) (next_uuid w) (workers w).

Definition with_files (f : gmap string string) (w : world) : world :=
  mkSim (replies w) (last_reply w) (shell w) f (dirs w) (next_uuid w) (workers w).

Definition with_dirs (d : list string) (w : world) : world :=
  mkSim (replies w) (last_reply w) (shell w) (files w) d (next_uuid w) (workers w).

Definition with_next_uuid (n : Z) (w : world) : world :=
  mkSim (replies w) (last_reply w) (shell w) (files w) (dirs w) n (workers w).

Definition env : World world := {|
  completion w _ :=
    match replies w with
    | r :: rest => (r, with_replies rest w)
    | [] => (last_reply w, w)
    end;
  subprocess_run w command _ _ := (shell w command, w);
  path_exists w path :=
    bool_decide (is_Some (files w !! path)) || bool_decide (path ∈ dirs w);
  makedirs w path := (Ok tt, with_dirs (path :: dirs w) w);
  read_text w path :=
    match files w !! path with
    | Some text => (Ok text, w)
    | None => (Raise (mkExc OtherException "No such file or directory"), w)
    end;
  write_text w path text := (Ok tt, with_files (<[path := text]> (files w)) w);
  sleep w _ := w;
  uuid4 w := ("worker-" +:+ str_of_int (next_uuid w), with_next_uuid (next_uuid w + 1) w);
  others_run w tasks := workers w tasks
|}.

(** A shell in which every command succeeds silently. *)
Definition quiet_shell (command : string) : Res CompletedProcess :=
  Ok (mkCompleted "" "" 0).

(** A shell that knows one command. *)
Definition echo_shell (command : string) : Res CompletedProcess :=
  if String.eqb command "echo hi" then Ok (mkCompleted ("hi" +:+ nl) "" 0)
  else Ok (mkCompleted "" "" 1).

Definition demo_dir : string := "/srv/projects/demo".

Definition demo_task : Task :=
  mkTask "phase1_setup" "Create project structure and basic files"
         "feature/scaffolding" 1 pending (Some "worker-0") None.

Definition demo_project : Project :=
  mkProject "p-1" "demo" "A demo project" project_in_progress [demo_task]
            (Some "pm-0") ["worker-0"] (Some demo_dir).

Definition demo_agents : gmap string Agent :=
  {[ "worker-0" := mkAgent "worker-0" swe "p-1" idle None ]}.

Definition demo_world (script : list (Res string)) (final : Res string)
    (sh : string → Res CompletedProcess) : world :=
  mkSim script final sh ∅ [demo_dir] 1 (λ tasks, tasks).

(** The state of a worker session whose constructor has run. *)
Definition demo_state (w : world) : State world :=
  mkState [mkMessage "system" "You are a software engineer."]
          demo_project demo_agents w [].

End Sim.

(** ** Vocabulary of the statements *)

(** The task records the coordinator reads at the check of a poll that
    starts in [st]: what the workers have written by the end of the
    five-second sleep. *)
Definition seen_at_poll {W} (env : World W) (st : State W) : list Task :=
  others_run env (sleep env (st_world st) 5) (project_tasks (st_project st)).

(** A registry for the supervision of phase 1: a phase-1 task in progress
    and a phase-2 task that has failed. *)
Definition supervised_tasks : list Task :=
  [ mkTask "phase1_setup" "Create project structure and basic files"
           "feature/scaffolding" 1 in_progress (Some "worker-0") None;
    mkTask "phase2_core" "Implement core functionality"
           "feature/core" 2 failed (Some "worker-1") None ].

(** Workers that finish every phase-1 task during the sleep. *)
Definition finish_phase1 (tasks : list Task) : list Task :=
  map (λ t, if task_phase t =? 1 then with_task_status completed t else t) tasks.

Definition supervised_state : State Sim.world :=
  mkState [mkMessage "system" "You are a project manager."]
          (with_tasks supervised_tasks Sim.demo_project) Sim.demo_agents
          (Sim.mkSim [] (Ok "") Sim.quiet_shell ∅ [Sim.demo_dir] 2 finish_phase1)
          [].

(** What follows a parenthesis is a redirection when, after optional
    white space, it starts with [>]. *)
Definition redirect_follows (s : string) : bool :=
  startswith ">" (drop_while py_isspace s).

(** No closing parenthesis of [s] is followed by a redirection. *)
Fixpoint no_redirect_inside (s : string) : bool :=
  match s with
  | "" => true
  | String c s' =>
      (if Ascii.eqb c ")"%char then negb (redirect_follows s') else true)
      && no_redirect_inside s'
  end.

(** The first character of [s], if any, does not satisfy [p]. *)
Definition stops (p : ascii → bool) (s : string) : bool :=
  match s with
  | "" => true
  | String c _ => negb (p c)
  end.

(** [sp1 op sp2 target] is a redirection with its target and [rest] is
    what follows the target: optional white space, one [>] or more,
    optional white space, and a target of one character or more, none of
    them white space, that does not start with [>] and ends where [rest]
    starts. *)
Definition redirection_shape (sp1 op sp2 target rest : string) : bool :=
  all_chars py_isspace sp1
  && nonempty op && all_chars Re.is_gt op
  && all_chars py_isspace sp2
  && nonempty target && all_chars (λ c, negb (py_isspace c)) target
  && stops Re.is_gt target
  && stops (λ c, negb (py_isspace c)) rest.

(** A trailing line that is kept as a command: not blank, not a comment,
    not looking like output, not a spawn directive. *)
Definition is_trailing_command (line : string) : bool :=
  nonempty line && negb (startswith "#" line)
  && negb (looks_like_output line)
  && negb (startswith "CREATE_SWE_AGENT" line).

(** A reply with a grouped block and trailing lines. *)
Definition grouped_block_rest : string :=
  join nl [ ""; "git status"; ""; "# show the result"; "Output: two lines";
            "Exit code: 0"; "CREATE_SWE_AGENT(task_id=x)"; "  cat out.txt" ].

Definition grouped_reply : string :=
  join nl [ "Let me collect the listing."; "```bash";
            "  (echo a; echo $(date)) >> out.txt" +:+ grouped_block_rest +:+ "  ";
            "```"; "Then I continue." ].

(** The delays slept, in order, in a trace. *)
Definition sleeps (trace : list Event) : list Z :=
  flat_map (λ ev, match ev with EvSleep n => [n] | _ => [] end) trace.

(** The errors of the attempts of one query, when the call to the model
    raises at every attempt, and the world they leave: the model is
    called on the conversation [ms], in the world left by the attempt
    before and by the sleep of this one.  [None] when some call returns. *)
Fixpoint failed_attempts {W} (env : World W) (attempts : list Z)
    (ms : list Message) (w : W) : option (list PyExc * W) :=
  match attempts with
  | [] => Some ([], w)
  | attempt :: rest =>
      let w1 := if 0 <? attempt then sleep env w (2 ^ attempt) else w in
      match completion env w1 ms with
      | (Raise e, w2) =>
          r ← failed_attempts env rest ms w2; Some (e :: r.1, r.2)
      | (Ok _, _) => None
      end
  end.

Definition rate_limited : Res string :=
  Raise (mkExc OtherException "RateLimitError: Rate limit reached for requests").

Definition refused : Res string :=
  Raise (mkExc OtherException "Connection refused").

(** The calls to the world that belong to reading a file, to creating a
    file and to running a command. *)
Definition is_read_event (ev : Event) : bool :=
  match ev with EvExists _ | EvReadText _ => true | _ => false end.

Definition is_create_event (ev : Event) : bool :=
  match ev with EvMakedirs _ | EvWriteText _ _ => true | _ => false end.

Definition is_command_event (ev : Event) : bool :=
  match ev with EvExists _ | EvMakedirs _ | EvRun _ _ _ => true | _ => false end.

(** The commands run, in order, in a trace. *)
Definition run_commands (trace : list Event) : list string :=
  flat_map (λ ev, match ev with EvRun command _ _ => [command] | _ => [] end) trace.

(** [st'] comes from [st] by appending the messages [msgs] to the
    conversation and events of the class [cls] to the trace; the project
    and the agents are as they were. *)
Definition extends {W} (cls : Event → bool) (msgs : list Message)
    (st st' : State W) : Prop :=
  st_project st' = st_project st
  ∧ st_agents st' = st_agents st
  ∧ st_messages st' = st_messages st ++ msgs
  ∧ ∃ t, st_trace st' = st_trace st ++ t ∧ forallb cls t = true.

(** The user messages that carry the content of the files read. *)
Definition read_messages (results : list (bool * string)) : list Message :=
  flat_map (λ r : bool * string, if r.1 then [mkMessage "user" r.2] else [])
           results.

(** The user messages that confirm the files created. *)
Definition created_messages (files : list FileCreation)
    (results : list (bool * string)) : list Message :=
  flat_map (λ fr : FileCreation * (bool * string),
              if fr.2.1
              then [mkMessage "user" ("File created: " +:+ fc_path fr.1)]
              else [])
           (zip files results).

(** The user messages that carry the output of the commands run. *)
Definition command_messages (results : list (bool * string)) : list Message :=
  map (λ r : bool * string,
         mkMessage "user" ("Command executed:" +:+ nl +:+ r.2))
      results.

(** The results of a batch of [n] commands: either all the commands ran
    and succeeded, or some ran with success, the next one failed and
    nothing ran after it. *)
Definition stops_at_first_failure (n : nat) (results : list (bool * string))
    : Prop :=
  (map fst results = replicate n true)
  ∨ ∃ k, (k < n)%nat ∧ map fst results = replicate k true ++ [false].


Definition strict_shell (command : string) : Res CompletedProcess :=
  if String.eqb command "false" then Ok (mkCompleted "" "" 1)
  else Sim.echo_shell command.

Definition busy_state : State Sim.world :=
  mkState [mkMessage "system" "You are a software engineer."]
          Sim.demo_project Sim.demo_agents
          (Sim.mkSim [] (Ok "") strict_shell
                     {[ "/srv/projects/demo/notes.txt" := "remember the tests" ]}
                     [Sim.demo_dir] 1 (λ tasks, tasks))
          [].

(** The project and the agents are the same in both states. *)
Definition same_registry {W} (st st' : State W) : Prop :=
  st_project st' = st_project st ∧ st_agents st' = st_agents st.



(** A model that never says it is over. *)
Definition busy_worker_state : State Sim.world :=
  Sim.demo_state (Sim.demo_world [] (Ok "Still working on it.") Sim.quiet_shell).

(** Where a path leads: its components, with [.] and empty components
    dropped and [..] going up one directory. *)
Definition resolve_components (path : string) : list string :=
  fold_left
    (λ stack component,
       if String.eqb component "" || String.eqb component "." then stack
       else if String.eqb component ".." then removelast stack
       else stack ++ [component])
    (split "/" path) [].

(** The path [path] leads to the directory [root] or below it. *)
Definition inside_root (root path : string) : bool :=
  let r := resolve_components root in
  bool_decide (take (length r) (resolve_components path) = r).

(** A matcher that takes at least one character of the text. *)
Definition consumes {A} (m : string → option (A * string)) : Prop :=
  ∀ s a r, m s = Some (a, r) → (String.length r < String.length s)%nat.

(** A model that is rate limited once and then answers. *)
Definition recovering_state : State Sim.world :=
  Sim.demo_state (Sim.demo_world [rate_limited; Ok "Here is the plan."]
                                 (Ok "Still working on it.") Sim.quiet_shell).

(** A model that refuses every connection. *)
Definition refused_state : State Sim.world :=
  Sim.demo_state (Sim.demo_world [] refused Sim.quiet_shell).

(** A line of the fallback for a group without redirection that is kept
    as a command: not blank, not a comment, not a lone parenthesis. *)
Definition is_fallback_command (line : string) : bool :=
  nonempty line && negb (startswith "#" line)
  && negb (String.eqb line "(" || String.eqb line ")").

(** The stripped line does not end with a backslash. *)
Definition no_continuation (line : string) : bool :=
  negb (endswith_char "092"%char (strip line)).

(** The command does not start as a comment. *)
Definition not_comment (command : string) : Prop := startswith "#" command = false.

(** The state of the loop of the regular branch: no command is a comment
    and the command being continued does not start as one. *)
Definition regular_inv (acc : list string * list string) : Prop :=
  Forall not_comment acc.1
  ∧ match acc.2 with [] => True | h :: _ => not_comment h end.

(** The text of a spawn directive, a read request and a file tag, in the
    form the patterns of the parser expect. *)
Definition spawn_directive (tid descr branch : string) : string :=
  "CREATE_SWE_AGENT(task_id=" +:+ dq +:+ tid +:+ dq +:+ ", description=" +:+ dq
  +:+ descr +:+ dq +:+ ", branch=" +:+ dq +:+ branch +:+ dq +:+ ")".

Definition read_request (path : string) : string :=
  "READ_FILE(path=" +:+ dq +:+ path +:+ dq +:+ ")".

Definition file_tag (path first_line body : string) : string :=
  "<file path=" +:+ dq +:+ path +:+ dq +:+ ">" +:+ Re.fence +:+ first_line
  +:+ nl +:+ body +:+ Re.fence +:+ "</file>".

Definition bare_file_tag (path body : string) : string :=
  "<file path=" +:+ dq +:+ path +:+ dq +:+ ">" +:+ Re.fence +:+ body
  +:+ Re.fence +:+ "</file>".

(** A value that can stand between double quotes: not empty, without a
    double quote. *)
Definition quotable (v : string) : bool :=
  nonempty v && all_chars Re.not_dq v.

Definition no_backquote (s : string) : bool :=
  all_chars (λ c, negb (Ascii.eqb c "`"%char)) s.

(** The text starts with one word character or more and then a line
    feed. *)
Definition starts_with_word_line (s : string) : bool :=
  nonempty (span py_isword s).1 && startswith nl (span py_isword s).2.

(** [call["tool"] == "create_swe_agent"] *)
Definition is_spawn (call : ToolCall) : bool :=
  String.eqb (tc_tool call) "create_swe_agent".

(** The spawn directives of a plan whose task id reads as phase [k], in
    the order of the plan. *)
Definition calls_of_phase (k : Z) (calls : list ToolCall) : list ToolCall :=
  List.filter (λ call, is_spawn call && (phase_of_task_id (tc_task_id call) =? k))
              calls.


(** A worker that has marked its task failed has ended: whatever the
    workers do while the coordinator sleeps, a failed task is still there,
    in its phase, and still failed. *)
Definition failed_stays_failed {W} (env : World W) : Prop :=
  ∀ w tasks i t,
    tasks !! i = Some t → task_status t = failed →
    ∃ t', others_run env w tasks !! i = Some t'
          ∧ task_phase t' = task_phase t ∧ task_status t' = failed.

(** The scripted world once every worker has ended: the task records do
    not change any more. *)
Definition settled_env : World Sim.world :=
  mkWorld Sim.world
    (completion Sim.env) (subprocess_run Sim.env) (path_exists Sim.env)
    (makedirs Sim.env) (read_text Sim.env) (write_text Sim.env)
    (sleep Sim.env) (uuid4 Sim.env) (λ _ tasks, tasks).

(** Between the two states, no task but the one at position [i] and no
    agent but [aid] has changed. *)
Definition touches_only {W} (aid : string) (i : nat) (st st' : State W) : Prop :=
  (∀ j, j ≠ i →
     project_tasks (st_project st') !! j = project_tasks (st_project st) !! j)
  ∧ (∀ b, b ≠ aid → st_agents st' !! b = st_agents st !! b).

(** The agent [aid] is on the task [tid], which is at position [i], with
    the given statuses. *)
Definition engaged {W} (aid tid : string) (i : nat) (ts : TaskStatus)
    (ags : AgentStatus) (st : State W) : Prop :=
  ∃ t a, project_tasks (st_project st) !! i = Some t
         ∧ task_id t = tid ∧ task_status t = ts
         ∧ st_agents st !! aid = Some a
         ∧ agent_current_task a = Some tid ∧ agent_status a = ags.

(** The model is down: every call raises the error [e]. *)
Definition model_down {W} (env : World W) (e : PyExc) : Prop :=
  ∀ w ms, ∃ w', completion env w ms = (Raise e, w').

(** A text that asks for nothing and does not read as the end of the
    task: no read request, no file tag, no command, none of the completion
    phrases. *)
Definition silent (text : string) : Prop :=
  extract_read_file_calls text = []
  ∧ extract_file_creations text = []
  ∧ extract_bash_commands text = []
  ∧ mentions completion_phrases text = false.

(** The scripted world with a model that refuses every connection. *)
Definition down_env : World Sim.world :=
  mkWorld Sim.world
    (λ w _, (refused, w)) (subprocess_run Sim.env) (path_exists Sim.env)
    (makedirs Sim.env) (read_text Sim.env) (write_text Sim.env)
    (sleep Sim.env) (uuid4 Sim.env) (others_run Sim.env).

(** A model that is rate-limited three times. *)
Definition throttled_state : State Sim.world :=
  Sim.demo_state (Sim.demo_world [rate_limited; rate_limited; rate_limited]
                                 (Ok "Here is the plan.") Sim.quiet_shell).

(** The file system gives back what was written: once [text] has been
    written to [path], the path exists and reading it gives [text].  (On a
    real file system this holds for a text without carriage returns,
    which reading in text mode would turn into line feeds.) *)
Definition reads_back {W} (env : World W) (path text : string) : Prop :=
  ∀ w w', write_text env w path text = (Ok tt, w') →
          path_exists env w' path = true
          ∧ ∃ w'', read_text env w' path = (Ok text, w'').


(** A session whose shell knows [echo hi]. *)
Definition echo_state : State Sim.world :=
  Sim.demo_state (Sim.demo_world [] (Ok "") Sim.echo_shell).

(** ** The routes over the global registry

    The three global dictionaries of the module and the routes that
    create and delete a project.  A response is its status code and the
    one field of its JSON object. *)

Module Routes.

Record LogEntry := mkLogEntry { log_level : string; log_message : string }.

Record Registry := mkRegistry {
  projects : gmap string Project;
  agents : gmap string Agent;
  agent_logs : gmap string (list LogEntry)
}.

Record Response := mkResponse {
  status_code : Z;
  field : string;
  value : string
}.

(** [if k in d: del d[k]] *)
Definition del_if_present {V} (k : string) (d : gmap string V) : gmap string V :=
  if bool_decide (is_Some (d !! k)) then delete k d else d.

(** The class [[^a-zA-Z0-9_-]] is the complement of this one. *)
Definition is_name_char (c : ascii) : bool :=
  let n := nat_of_ascii c in
  ((97 <=? n) && (n <=? 122))%nat || ((65 <=? n) && (n <=? 90))%nat
  || ((48 <=? n) && (n <=? 57))%nat || (n =? 95)%nat || (n =? 45)%nat.

(** [re.sub(r'[^a-zA-Z0-9_-]', '_', name)] *)
Fixpoint safe_name (name : string) : string :=
  match name with
  | "" => ""
  | String c rest =>
      String (if is_name_char c then c else "_"%char) (safe_name rest)
  end.

(** [s.replace(' ', '_')] *)
Fixpoint replace_space (s : string) : string :=
  match s with
  | "" => ""
  | String c rest =>
      String (if Ascii.eqb c " " then "_"%char else c) (replace_space rest)
  end.

(** The argument of [os.path.abspath] in [run_pm_agent]:
    [f"projects/{project.name.replace(' ', '_').lower()}"]. *)
Definition project_dir_path (p : Project) : string :=
  "projects/" +:+ py_lower (replace_space (project_name p)).

Section Routes.

Context {W : Type} (env : World W).

(** The route [POST /api/projects] for a request that carries a name and
    a description, up to the start of the coordinator thread: the project
    as it is returned, the world and the registry. *)
Definition create_project (name description : string) (w : W) (reg : Registry)
    : Project * W * Registry :=
  let '(project_id, w) := uuid4 env w in
  let '(pm_id, w) := uuid4 env w in
  let project :=
    mkProject project_id (safe_name name) description created [] (Some pm_id)
              [] None in
  (project, w,
   mkRegistry (<[project_id := project]> (projects reg))
              (<[pm_id := mkAgent pm_id pm project_id idle None]> (agents reg))
              (agent_logs reg)).

End Routes.

(** The route [DELETE /api/projects/<project_id>]. *)
Definition delete_project (project_id : string) (reg : Registry)
    : Response * Registry :=
  match projects reg !! project_id with
  | None => (mkResponse 404 "error" "Project not found", reg)
  | Some project =>
      let '(ags, logs) :=
        match project_pm_agent_id project with
        | Some pm_id =>
            if bool_decide (is_Some (agents reg !! pm_id))
            then (delete pm_id (agents reg), del_if_present pm_id (agent_logs reg))
            else (agents reg, agent_logs reg)
        | None => (agents reg, agent_logs reg)
        end in
      let '(ags, logs) :=
        fold_left (λ '(ags, logs) swe_id,
                     (del_if_present swe_id ags, del_if_present swe_id logs))
                  (project_swe_agent_ids project) (ags, logs) in
      (mkResponse 200 "message" "Project deleted",
       mkRegistry (delete project_id (projects reg)) ags logs)
  end.

End Routes.

(** A registry with two projects; the first has a coordinator and a
    worker, and logs for both. *)
Definition two_projects : Routes.Registry :=
  Routes.mkRegistry
    {[ "p-1" := mkProject "p-1" "demo" "A demo project" project_in_progress
                  [Sim.demo_task] (Some "pm-0") ["worker-0"] (Some Sim.demo_dir);
       "p-2" := mkProject "p-2" "other" "Another project" created [] (Some "pm-1")
                  [] None ]}
    {[ "pm-0" := mkAgent "pm-0" pm "p-1" working None;
       "worker-0" := mkAgent "worker-0" swe "p-1" idle None;
       "pm-1" := mkAgent "pm-1" pm "p-2" idle None ]}
    {[ "pm-0" := [Routes.mkLogEntry "INFO" "Starting PM agent"];
       "worker-0" := [];
       "pm-1" := [Routes.mkLogEntry "INFO" "Starting PM agent"] ]}.

(** ** The session of an agent ([SimpleAgent.__init__])

    The constructor looks the agent up, makes the directory of the logs
    of the run and reads the system prompt of the agent type, with which
    the conversation starts.  [run_id] stands for
    [datetime.now().strftime("%Y%m%d_%H%M%S")].  The state holds one
    project, so the look-up of the project cannot fail here. *)

Section SessionStart.

Context {W : Type} (env : World W) (run_id : string).

Definition SimpleAgent_init (aid agent_type : string) : M W unit :=
  st <- get_state ;;
  match st_agents st !! aid with
  | None => raise (mkExc KeyError aid)
  | Some _ =>
      os_makedirs env
        (PosixPath.join (PosixPath.join "logs" (project_name (st_project st)))
                        run_id) ;;;
      system_prompt <-
        call_world (EvReadText ("prompts/" +:+ agent_type +:+ "_agent.txt"))
          (λ w, read_text env w ("prompts/" +:+ agent_type +:+ "_agent.txt")) ;;
      set_messages [mkMessage "system" system_prompt]
  end.

(** [run_swe_agent] from its first statement: the session is constructed
    before anything else, outside the [try] block. *)
Definition run_swe_agent_session (aid tid : string) : M W unit :=
  SimpleAgent_init aid "swe" ;;; run_swe_agent env aid tid.

End SessionStart.

(** A worker whose prompt file is there and whose model says at once
    that the work is over. *)
Definition worker_session_state : State Sim.world :=
  mkState [] Sim.demo_project Sim.demo_agents
          (Sim.mkSim [] (Ok "All done.") Sim.quiet_shell
                     {[ "prompts/swe_agent.txt" := "You are a software engineer." ]}
                     [Sim.demo_dir] 1 (λ tasks, tasks))
          [].

(** ** The set-up of a project ([run_pm_agent], up to the first query)

    The branch for Linux and Mac of the set-up commands.  The absolute
    path of the project directory depends on the working directory of the
    process: [abspath] stands for [os.path.abspath]. *)


Definition with_project_status (s : ProjectStatus) (p : Project) : Project :=
  mkProject (project_id p) (project_name p) (project_description p)
            s (project_tasks p) (project_pm_agent_id p)
            (project_swe_agent_ids p) (project_dir p).


Section Setup.

Context {W : Type} (env : World W) (abspath : string → string)
  (run_id : string).

(** [agents[agent_id].status = "failed"; project.status = "failed"] *)
Definition mark_setup_failed (aid : string) : M W unit :=
  agents_update aid (with_agent_status agent_failed) ;;;
  st <- get_state ;;
  set_project (with_project_status project_failed (st_project st)).

(** [for cmd in setup_commands], which returns from the coordinator at
    the first command that fails. *)
Definition run_setup (aid project_dir : string) (commands : list string)
    : M W (Flow unit) :=
  for_each commands
    (λ cmd,
       r <- BashExecutor_run env cmd (Some project_dir) 30 ;;
       let '(success, output) := r in
       if negb success then mark_setup_failed aid ;;; ret (Return tt)
       else ret Next).



End Setup.



(** ** The executor with its console

    [BashExecutor.run] prints to the console: the announcement of the
    command before its [try] block, the result inside the block, and a
    line in each handler.  [print] encodes its text for the console and
    raises [UnicodeEncodeError], a [ValueError], on a text the console
    cannot encode.  A console is what it answers to a text: nothing, or
    the exception it raises.  [BashExecutor_run] above is the executor on
    a console that prints every text. *)

Definition Console : Type := string → option PyExc.

(** [print(text)] *)
Definition console_print {W} (console : Console) (text : string) : M W unit :=
  match console text with
  | None => ret tt
  | Some e => raise e
  end.

(** [s[:n]] *)
Fixpoint str_take (n : nat) (s : string) : string :=
  match n, s with
  | S n', String c s' => String c (str_take n' s')
  | _, _ => ""
  end.

Section ExecutorConsole.

Context {W : Type} (env : World W) (console : Console).

Definition BashExecutor_run_on (command : string) (cwd : option string)
    (timeout : Z) : M W (bool * string) :=
  console_print console
    ("[BASH] Executing in " +:+ str_of_dir cwd +:+ ": " +:+ command) ;;;
  try_except
    (ensure_cwd env cwd ;;;
     result <- call_world (EvRun command cwd timeout)
                          (λ w, subprocess_run env w command cwd timeout) ;;
     let output := format_output command result in
     let success := proc_returncode result =? 0 in
     console_print console
       ("[BASH] Result: " +:+ (if success then "SUCCESS" else "FAILED")) ;;;
     console_print console
       ("[BASH] Output: " +:+ str_take 200 output +:+ "...") ;;;
     ret (success, output))
    (λ e, if is_timeout_expired e
          then console_print console ("[BASH] TIMEOUT: " +:+ command) ;;;
               ret (false, timeout_output command timeout)
          else console_print console ("[BASH] EXCEPTION: " +:+ exc_str e) ;;;
               ret (false, error_output command e)).

End ExecutorConsole.

(** A console in UTF-8 prints every text of code points below 256. *)
Definition utf8_console : Console := λ _, None.

(** The code points below 256 that the code page 1252 does not have. *)
Definition cp1252_undefined (c : ascii) : bool :=
  let n := nat_of_ascii c in
  (n =? 129)%nat || (n =? 141)%nat || (n =? 143)%nat || (n =? 144)%nat
  || (n =? 157)%nat.

(** The first character of a text that satisfies [p], with its position. *)
Fixpoint first_char (p : ascii → bool) (s : string) (i : Z) : option (Z * ascii) :=
  match s with
  | "" => None
  | String c s' => if p c then Some (i, c) else first_char p s' (i + 1)
  end.

Definition hex_digit (n : nat) : ascii :=
  ascii_of_nat (if (n <? 10)%nat then 48 + n else 87 + n).

(** A console in the code page 1252, the encoding of the standard output
    of a Windows process in a western locale: the exception is the one
    of the [charmap] codec. *)
Definition cp1252_console : Console :=
  λ text,
    match first_char cp1252_undefined text 0 with
    | None => None
    | Some (i, c) =>
        Some (mkExc ValueError
                ("'charmap' codec can't encode character '\x"
                 +:+ String (hex_digit (nat_of_ascii c / 16))
                       (String (hex_digit (nat_of_ascii c mod 16)) "")
                 +:+ "' in position " +:+ str_of_int i
                 +:+ ": character maps to <undefined>"))
    end.

(** A command with the code point 129. *)
Definition unprintable_command : string := "echo " +:+ String "129"%char "".





(** * Properties *)

(** ** The execution monad *)

Ltac unfold_monad :=
  unfold call_world, append_message in *;
  unfold bind, ret, raise, try_except, get_state, emit, set_world,
    set_messages, set_project, set_agents in *.

(** ** Strings *)

Section Strings.

Implicit Types (s t u : string) (p : ascii → bool).

Lemma append_assoc s t u : (s +:+ t) +:+ u = s +:+ (t +:+ u).
Proof. induction s as [|c s IH]; simpl; [done|congruence]. Qed.

Lemma append_empty_r s : s +:+ "" = s.
Proof. induction s as [|c s IH]; simpl; [done|congruence]. Qed.

Lemma span_snd p s : snd (span p s) = drop_while p s.
Proof.
  induction s as [|c s IH]; simpl; [done|].
  destruct (p c); [|done]. destruct (span p s); simpl in *. done.
Qed.

(** A run of characters that satisfy [p], followed by a text that starts
    otherwise, is split off whole. *)
Lemma span_append p s t :
  all_chars p s = true → stops p t = true → span p (s +:+ t) = (s, t).
Proof.
  intros Hs Ht. induction s as [|c s IH]; simpl in *.
  - destruct t as [|c t]; simpl in *; [done|].
    by apply negb_true_iff in Ht as ->.
  - apply andb_true_iff in Hs as [-> Hs]. by rewrite IH.
Qed.

Lemma drop_while_append p s t :
  all_chars p s = true → stops p t = true → drop_while p (s +:+ t) = t.
Proof. intros Hs Ht. by rewrite <-span_snd, span_append. Qed.

Lemma startswith_append s t : startswith s (s +:+ t) = true.
Proof.
  induction s as [|c s IH]; simpl; [done|]. by rewrite Ascii.eqb_refl.
Qed.

Lemma drop_append s t : drop (String.length s) (s +:+ t) = t.
Proof. induction s as [|c s IH]; simpl; done. Qed.

Lemma contains_append s t u : contains s u = true → contains s (t +:+ u) = true.
Proof.
  intros Hu. induction t as [|c t IH]; simpl; [done|].
  rewrite IH. by rewrite orb_true_r.
Qed.

Lemma contains_here s t : contains s (s +:+ t) = true.
Proof.
  destruct s as [|c s]; [by destruct t|].
  simpl. by rewrite Ascii.eqb_refl, startswith_append.
Qed.

End Strings.

(** ** The command executor *)

Section Executor.

Context {W : Type} (env : World W).

(** On a console that prints every text, whatever the command, the
    working directory and the time limit, [BashExecutor.run] returns a
    pair and raises nothing: a command that ran gives its exit status and
    formatted output, a time-out gives failure with the text noting the
    time-out after the configured number of seconds, and any other error
    of the launch (or of the creation of the working directory) gives
    failure with the text of the error. *)
Theorem BashExecutor_run_is_a_value command cwd timeout (st : State W) :
  ∃ success output st',
    BashExecutor_run env command cwd timeout st = (Ok (success, output), st')
    ∧ let failure e :=
        success = false
        ∧ output =
            (if is_timeout_expired e
             then "$ " +:+ command +:+ nl +:+ "ERROR: Command timed out after "
                  +:+ str_of_int timeout +:+ " seconds"
             else "$ " +:+ command +:+ nl +:+ "ERROR: " +:+ exc_str e) in
      match ensure_cwd env cwd st with
      | (Raise e, _) => failure e
      | (Ok _, st1) =>
          match subprocess_run env (st_world st1) command cwd timeout with
          | (Raise e, _) => failure e
          | (Ok result, _) =>
              success = (proc_returncode result =? 0)
              ∧ output = format_output command result
          end
      end.
Proof.
  unfold BashExecutor_run, BashExecutor_run_body.
  unfold bind at 1. unfold try_except.
  destruct (ensure_cwd env cwd st) as [[[]|e] st1] eqn:Hcwd.
  - unfold_monad. simpl.
    destruct (subprocess_run env (st_world st1) command cwd timeout)
      as [[result|e] w'] eqn:Hrun; simpl.
    + eauto 10.
    + destruct (is_timeout_expired e) eqn:He; simpl; eauto 10.
  - unfold_monad.
    destruct (is_timeout_expired e) eqn:He; simpl; eauto 10.
Qed.

(** C8. The command [echo hi] that exits with code 0, prints [hi] and a
    line feed on its standard output and nothing on its standard error is
    reported as success with the output
    [$ echo hi\nhi\n\nExit code: 0\n]: the echoed command, the standard
    output and the exit code, without a STDERR section. *)
Theorem echo_hi_captured_output cwd timeout (st st1 : State W) w' :
  ensure_cwd env cwd st = (Ok tt, st1) →
  subprocess_run env (st_world st1) "echo hi" cwd timeout
    = (Ok (mkCompleted ("hi" +:+ nl) "" 0), w') →
  fst (BashExecutor_run env "echo hi" cwd timeout st)
    = Ok (true, "$ echo hi" +:+ nl +:+ "hi" +:+ nl +:+ nl +:+ "Exit code: 0" +:+ nl).
Proof.
  intros Hcwd Hrun.
  unfold BashExecutor_run, BashExecutor_run_body.
  unfold bind at 1. unfold try_except. rewrite Hcwd.
  unfold_monad. simpl. rewrite Hrun. reflexivity.
Qed.

End Executor.

Lemma echo_hi_captured_output_witness :
  fst (BashExecutor_run Sim.env "echo hi" (Some Sim.demo_dir) 30
         (Sim.demo_state (Sim.demo_world [] (Ok "") Sim.echo_shell)))
  = Ok (true, "$ echo hi" +:+ nl +:+ "hi" +:+ nl +:+ nl +:+ "Exit code: 0" +:+ nl).
Proof.
  eapply echo_hi_captured_output; reflexivity.
Defined.

(** ** The coordinator *)

Section Coordinator.

Context {W : Type} (env : World W).

Lemma status_eqb_completed s : status_eqb s completed = true ↔ s = completed.
Proof. destruct s; split; (done || discriminate). Qed.

(** The check of the wait loop, as a statement about the tasks. *)
Lemma phase_complete_spec k tasks :
  phase_complete k tasks = true
  ↔ ∀ t, t ∈ tasks → task_phase t = k → task_status t = completed.
Proof.
  unfold phase_complete, phase_tasks_status.
  rewrite forallb_forall. split.
  - intros H t Ht Hk. apply status_eqb_completed, H.
    apply filter_In. split; [by apply list_elem_of_In|]. by apply Z.eqb_eq.
  - intros H t [Ht Hk]%filter_In. apply status_eqb_completed, H.
    + by apply list_elem_of_In.
    + by apply Z.eqb_eq.
Qed.


(** A computation that ends in [ret false] never returns [true]. *)
Lemma bind_ret_false {A} (c : M W A) (st : State W) r st' :
  (c ;;; ret false) st = (r, st') → r ≠ Ok true.
Proof.
  unfold bind, ret. destruct (c st) as [[a|e] st1]; intros [= <- <-]; done.
Qed.

Lemma poll_phase_result k (st : State W) r st' :
  poll_phase env k st = (r, st') →
  (phase_complete k (seen_at_poll env st) = true
   ∧ r = Ok true ∧ project_tasks (st_project st') = seen_at_poll env st)
  ∨ (phase_complete k (seen_at_poll env st) = false ∧ r ≠ Ok true).
Proof.
  unfold poll_phase, time_sleep, yield_to_workers.
  unfold bind at 1 2 3 4 5 6. unfold emit, get_state, set_world, set_project.
  simpl. fold (seen_at_poll env st).
  destruct (phase_complete k (seen_at_poll env st)) eqn:Hc.
  - unfold ret. intros [= <- <-]. left. done.
  - intros Hrun. right. split; [done|].
    unfold bind in Hrun.
    repeat match type of Hrun with
           | context [match ?c ?s with _ => _ end] =>
               let r := fresh "r" in let s' := fresh "s" in
               destruct (c s) as [[r|r] s'] eqn:?; simpl in Hrun
           end;
    unfold ret in *; simplify_eq; done.
Qed.


(** The loop leaves only on a poll that found the phase complete: when
    it returns [true], every task of the phase is completed in the
    registry it leaves. *)
Lemma wait_for_phase_exit fuel k (st : State W) st' :
  wait_for_phase env fuel k st = (Ok true, st') →
  ∀ t, t ∈ project_tasks (st_project st') → task_phase t = k →
       task_status t = completed.
Proof.
  revert st. induction fuel as [|fuel IH]; intros st; simpl.
  - unfold ret. intros [= _ _]. 
  - unfold bind.
    destruct (poll_phase env k st) as [[[]|e] st1] eqn:Hpoll; [| |done].
    + unfold ret. intros [= <-].
      apply poll_phase_result in Hpoll as [(Hc & _ & Hseen)|[_ Hr]]; [|done].
      rewrite Hseen. by apply phase_complete_spec.
    + apply IH.
Qed.

(** The loop does leave on the first poll that finds the phase complete. *)
Lemma wait_for_phase_leaves fuel k (st : State W) :
  phase_complete k (seen_at_poll env st) = true →
  ∃ st', wait_for_phase env (S fuel) k st = (Ok true, st').
Proof.
  intros Hc. simpl. unfold bind at 1.
  destruct (poll_phase env k st) as [r st1] eqn:Hpoll.
  apply poll_phase_result in Hpoll as [(_ & -> & _)|[Hc' _]]; [|congruence].
  unfold ret. eauto.
Qed.

End Coordinator.


(** ** The default plan *)

(** C5. When the planning reply holds no spawn directive, the plan is the
    default one: three tasks in two phases, the scaffolding task on
    branch [feature/scaffolding] in phase 1, the core task on
    [feature/core] and the interface task on [feature/ui] in phase 2. *)
Theorem default_plan_three_tasks_two_phases (response : string) :
  extract_tool_calls response = [] →
  let phases := group_by_phase (planned_tool_calls response) in
  sorted_phases phases = [1; 2]
  ∧ phases !! 1
    = Some [mkToolCall "create_swe_agent" "phase1_setup"
              "Create project structure and basic files" "feature/scaffolding"]
  ∧ phases !! 2
    = Some [mkToolCall "create_swe_agent" "phase2_core"
              "Implement core functionality" "feature/core";
            mkToolCall "create_swe_agent" "phase2_ui"
              "Add user interface components" "feature/ui"]
  ∧ planned_tasks phases
    = [ mkTask "phase1_setup" "Create project structure and basic files"
               "feature/scaffolding" 1 pending None None;
        mkTask "phase2_core" "Implement core functionality"
               "feature/core" 2 pending None None;
        mkTask "phase2_ui" "Add user interface components"
               "feature/ui" 2 pending None None ].
Proof.
  intros Hnone phases. subst phases.
  unfold planned_tool_calls. rewrite Hnone.
  repeat split; vm_compute; reflexivity.
Qed.

Lemma default_plan_three_tasks_two_phases_witness :
  let phases := group_by_phase (planned_tool_calls "I will think about it.") in
  sorted_phases phases = [1; 2]
  ∧ length (planned_tasks phases) = 3%nat.
Proof.
  intros phases.
  destruct (default_plan_three_tasks_two_phases "I will think about it.")
    as (Hs & _ & _ & Ht); [vm_compute; reflexivity|].
  fold phases in Hs, Ht. rewrite Hs, Ht. split; reflexivity.
Defined.

(** ** The response parser *)

Section Parser.

Implicit Types (s t u : string) (p : ascii → bool).

Lemma is_gt_not_space c : Re.is_gt c = true → py_isspace c = false.
Proof. unfold Re.is_gt. intros ->%Ascii.eqb_eq. reflexivity. Qed.

Lemma stops_append_nonempty p s t :
  nonempty s = true → stops p s = true → stops p (s +:+ t) = true.
Proof. by destruct s. Qed.

Lemma stops_head q p s t :
  nonempty s = true → all_chars q s = true →
  (∀ c, q c = true → p c = false) → stops p (s +:+ t) = true.
Proof.
  destruct s as [|c s]; [done|]. simpl.
  intros _ [Hc _]%andb_true_iff Hqp. by rewrite (Hqp c Hc).
Qed.

(** The closing parenthesis of the group hides what comes after it from
    the parentheses before it. *)
Lemma redirect_follows_before_paren u x :
  redirect_follows (u +:+ String ")" x) = redirect_follows u.
Proof.
  unfold redirect_follows. induction u as [|c u IH]; simpl.
  - change (py_isspace ")") with false. done.
  - by destruct (py_isspace c).
Qed.

Lemma redirect_here_other c s :
  Ascii.eqb c ")" = false → Re.redirect_here (String c s) = None.
Proof.
  intros Hc. unfold Re.redirect_here, Re.lit. simpl.
  rewrite Ascii.eqb_sym, Hc. done.
Qed.

Lemma redirect_here_no_follow s :
  redirect_follows s = false → Re.redirect_here (String ")" s) = None.
Proof.
  unfold redirect_follows, Re.redirect_here, Re.lit. simpl.
  rewrite <-span_snd. destruct (span py_isspace s) as [sp1 r1]. simpl.
  intros Hr1.
  assert (span Re.is_gt r1 = ("", r1)) as ->.
  { destruct r1 as [|c r1]; simpl in *; [done|].
    unfold Re.is_gt. rewrite Ascii.eqb_sym.
    destruct (Ascii.eqb ">" c); [done|done]. }
  destruct (span py_isspace r1) as [sp2 r3].
  destruct (span (λ c, negb (py_isspace c)) r3). done.
Qed.

(** The search passes over a text in which no parenthesis is followed by
    a redirection. *)
Lemma search_end_skip pre x :
  no_redirect_inside pre = true →
  Re.search_end Re.redirect_here (pre +:+ String ")" x)
  = match Re.search_end Re.redirect_here (String ")" x) with
    | Some (a, b) => Some (pre +:+ a, b)
    | None => None
    end.
Proof.
  assert (∀ u, redirect_follows (u +:+ String ")" x) = redirect_follows u) as Hfol
    by (intros u; apply redirect_follows_before_paren).
  remember (String ")" x) as tail eqn:Htail. clear Htail.
  induction pre as [|c pre IH]; intros Hpre.
  - simpl. by destruct (Re.search_end _ _) as [[a b]|].
  - simpl in Hpre. apply andb_true_iff in Hpre as [Hc Hpre].
    assert (Re.redirect_here (String c (pre +:+ tail)) = None) as Hnone.
    { destruct (Ascii.eqb c ")") eqn:Hcp.
      - apply Ascii.eqb_eq in Hcp as ->. apply redirect_here_no_follow.
        rewrite Hfol. by apply negb_true_iff.
      - by apply redirect_here_other. }
    simpl. rewrite Hnone. rewrite IH by done.
    by destruct (Re.search_end _ tail) as [[a b]|].
Qed.

(** At the closing parenthesis the pattern matches the redirection up to
    the end of its target. *)
Lemma redirect_here_shape sp1 op sp2 target rest :
  redirection_shape sp1 op sp2 target rest = true →
  Re.redirect_here (")" +:+ sp1 +:+ op +:+ sp2 +:+ target +:+ rest)
  = Some (")" +:+ sp1 +:+ op +:+ sp2 +:+ target, rest).
Proof.
  unfold redirection_shape. rewrite !andb_true_iff.
  intros [[[[[[[Hsp1 Hop] Hgt] Hsp2] Htgt] Hns] Htgt_gt] Hrest].
  unfold Re.redirect_here, Re.lit. simpl.
  rewrite (span_append py_isspace sp1); [|done|].
  2:{ eapply stops_head; [done|exact Hgt|]. apply is_gt_not_space. }
  rewrite (span_append Re.is_gt op); [|done|].
  2:{ destruct sp2 as [|c sp2]; simpl.
      - by apply stops_append_nonempty.
      - simpl in Hsp2. apply andb_true_iff in Hsp2 as [Hc _].
        destruct (Re.is_gt c) eqn:Hg; [|done].
        apply is_gt_not_space in Hg. congruence. }
  rewrite (span_append py_isspace sp2); [|done|].
  2:{ eapply stops_head; [done|exact Hns|]. intros c. by intros ->%negb_true_iff. }
  rewrite (span_append _ target); [|done|done].
  rewrite Hop, Htgt. done.
Qed.

(** The loop over the trailing lines keeps the lines that are commands. *)
Lemma trailing_loop_filter (lines : list string) (init : list string) :
  fold_left
    (λ commands line,
       let line := strip line in
       if nonempty line && negb (startswith "#" line)
       then if negb (looks_like_output line)
            then if negb (startswith "CREATE_SWE_AGENT" line)
                 then commands ++ [line] else commands
            else commands
       else commands)
    lines init
  = init ++ List.filter is_trailing_command (map strip lines).
Proof.
  revert init. induction lines as [|x lines IH]; intros init.
  - simpl. by rewrite app_nil_r.
  - cbn [fold_left map List.filter]. rewrite IH. unfold is_trailing_command.
    destruct (nonempty (strip x) && negb (startswith "#" (strip x)));
      destruct (negb (looks_like_output (strip x)));
      destruct (negb (startswith "CREATE_SWE_AGENT" (strip x)));
      cbn [andb]; rewrite <-?app_assoc; done.
Qed.

Lemma trailing_commands_filter remaining :
  trailing_commands remaining
  = List.filter is_trailing_command (map strip (split nl remaining)).
Proof.
  unfold trailing_commands. destruct remaining as [|c r].
  - reflexivity.
  - cbn [nonempty]. by rewrite trailing_loop_filter.
Qed.

Lemma fold_left_flat_map {A B} (f : A → list B) (l : list A) init :
  fold_left (λ acc x, acc ++ f x) l init = init ++ flat_map f l.
Proof.
  revert init. induction l as [|x l IH]; intros init; simpl.
  - by rewrite app_nil_r.
  - by rewrite IH, <-app_assoc.
Qed.

(** The commands of a reply are those of its blocks, in order. *)
Lemma extract_bash_commands_blocks text :
  extract_bash_commands text = flat_map block_commands (bash_blocks text).
Proof. unfold extract_bash_commands. by rewrite fold_left_flat_map. Qed.

(** C4. In a reply with a fenced bash block whose trimmed text is a
    group that starts with an opening parenthesis and whose first closing
    parenthesis followed by a redirection is followed by the operator and
    its target, the block gives exactly one grouped command, the text of
    the block up to and including the target, and then each trailing line
    that is neither blank nor a comment nor output-looking nor a spawn
    directive, as a command of its own; the other blocks of the reply give
    their commands before and after. *)
Theorem grouped_command_then_trailing_lines
    (text : string) (before after : list string)
    (block inner sp1 op sp2 target rest : string) :
  bash_blocks text = before ++ block :: after →
  strip block = "(" +:+ inner +:+ ")" +:+ sp1 +:+ op +:+ sp2 +:+ target +:+ rest →
  no_redirect_inside ("(" +:+ inner) = true →
  redirection_shape sp1 op sp2 target rest = true →
  extract_bash_commands text
  = flat_map block_commands before
    ++ ("(" +:+ inner +:+ ")" +:+ sp1 +:+ op +:+ sp2 +:+ target)
       :: List.filter is_trailing_command (map strip (split nl (strip rest)))
    ++ flat_map block_commands after.
Proof.
  intros Hblocks Hblock Hinner Hshape.
  rewrite extract_bash_commands_blocks, Hblocks, flat_map_app.
  f_equal. cbn [flat_map]. rewrite app_comm_cons. f_equal.
  unfold block_commands. rewrite Hblock.
  assert (startswith "(" ("(" +:+ inner +:+ ")" +:+ sp1 +:+ op +:+ sp2
                          +:+ target +:+ rest) = true) as -> by reflexivity.
  assert (contains ")" ("(" +:+ inner +:+ ")" +:+ sp1 +:+ op +:+ sp2
                        +:+ target +:+ rest) = true) as ->.
  { apply (contains_append ")" "("), contains_append, contains_here. }
  cbn [andb].
  replace ("(" +:+ inner +:+ ")" +:+ sp1 +:+ op +:+ sp2 +:+ target +:+ rest)
    with (("(" +:+ inner) +:+ String ")" (sp1 +:+ op +:+ sp2 +:+ target +:+ rest))
    by (by rewrite append_assoc).
  rewrite search_end_skip by done.
  assert (Re.search_end Re.redirect_here
            (String ")" (sp1 +:+ op +:+ sp2 +:+ target +:+ rest))
          = Some (")" +:+ sp1 +:+ op +:+ sp2 +:+ target, rest)) as ->.
  { pose proof (redirect_here_shape _ _ _ _ _ Hshape) as Hhere.
    change (")" +:+ sp1 +:+ op +:+ sp2 +:+ target +:+ rest)
      with (String ")" (sp1 +:+ op +:+ sp2 +:+ target +:+ rest)) in Hhere.
    destruct (sp1 +:+ op +:+ sp2 +:+ target +:+ rest) eqn:E;
      cbn [Re.search_end]; by rewrite Hhere. }
  rewrite trailing_commands_filter, append_assoc. reflexivity.
Qed.

End Parser.

Lemma grouped_command_then_trailing_lines_witness :
  extract_bash_commands grouped_reply
  = ["(echo a; echo $(date)) >> out.txt"; "git status"; "cat out.txt"].
Proof.
  rewrite (grouped_command_then_trailing_lines grouped_reply [] []
             ("  (echo a; echo $(date)) >> out.txt" +:+ grouped_block_rest +:+ "  ")
             "echo a; echo $(date)" " " ">>" " " "out.txt" grouped_block_rest);
    vm_compute; reflexivity.
Defined.

(** ** The scans of the response parser are complete

    Every pattern consumes at least one character of the text, so the
    length of the text is enough fuel for [finditer]: more fuel finds the
    same matches. *)

Section Scans.

Implicit Types (s r : string).

Lemma drop_length_le n s : (String.length (drop n s) ≤ String.length s)%nat.
Proof.
  revert s. induction n as [|n IH]; intros [|c s]; simpl; try lia.
  specialize (IH s). lia.
Qed.

Lemma lit_shorter p s r :
  Re.lit p s = Some r →
  (String.length r + String.length p = String.length s)%nat.
Proof.
  unfold Re.lit. destruct (startswith p s) eqn:Hp; [|done]. intros [= <-].
  revert s Hp. induction p as [|a p IH]; intros [|b s] Hp; simpl in *; try done.
  destruct (Ascii.eqb a b); [|done]. specialize (IH s Hp). lia.
Qed.

Lemma drop_while_length_le q s :
  (String.length (drop_while q s) ≤ String.length s)%nat.
Proof.
  induction s as [|c s IH]; simpl; [lia|]. destruct (q c); simpl; lia.
Qed.

Lemma span_length_le q s :
  (String.length (span q s).2 ≤ String.length s)%nat.
Proof. rewrite span_snd. apply drop_while_length_le. Qed.

Lemma find_sub_length_le p s a r :
  find_sub p s = Some (a, r) → (String.length r ≤ String.length s)%nat.
Proof.
  revert a. induction s as [|c s IH]; intros a; simpl.
  - destruct (startswith p ""); [|done]. intros [= _ <-].
    pose proof (drop_length_le (String.length p) ""). simpl in *. lia.
  - destruct (startswith p (String c s)).
    + intros [= _ <-].
      pose proof (drop_length_le (String.length p) (String c s)). done.
    + destruct (find_sub p s) as [[a' r']|]; [|done]. intros [= _ <-].
      specialize (IH a' eq_refl). lia.
Qed.

Lemma quoted_length_le s v r :
  Re.quoted s = Some (v, r) → (String.length r ≤ String.length s)%nat.
Proof.
  unfold Re.quoted. pose proof (span_length_le Re.not_dq s) as Hs.
  destruct (span Re.not_dq s) as [v' r']. simpl in Hs.
  destruct (nonempty v'); [|done].
  destruct (Re.lit dq r') as [r''|] eqn:Hlit; [|done]. simpl.
  intros [= _ <-]. apply lit_shorter in Hlit. lia.
Qed.

Lemma ws1_length_le s r : Re.ws1 s = Some r → (String.length r ≤ String.length s)%nat.
Proof.
  unfold Re.ws1, Re.ws. destruct s as [|c s]; [done|].
  destruct (py_isspace c); [|done]. intros [= <-].
  pose proof (drop_while_length_le py_isspace s). simpl. lia.
Qed.

Ltac shorter_step :=
  match goal with
  | H : Re.lit _ _ = Some _ |- _ => apply lit_shorter in H; simpl in H
  | H : Re.quoted _ = Some _ |- _ => apply quoted_length_le in H
  | H : Re.ws1 _ = Some _ |- _ => apply ws1_length_le in H
  | H : find_sub _ _ = Some _ |- _ => apply find_sub_length_le in H
  end.

Lemma bash_block_here_consumes : consumes Re.bash_block_here.
Proof.
  intros s a r. unfold Re.bash_block_here.
  destruct (Re.lit _ s) as [r1|] eqn:H1; [|done]. simpl. intros H2.
  repeat shorter_step. lia.
Qed.

Lemma read_file_here_consumes : consumes Re.read_file_here.
Proof.
  intros s a r. unfold Re.read_file_here.
  destruct (Re.lit _ s) as [r1|] eqn:H1; [|done]. simpl.
  destruct (Re.lit _ (Re.ws r1)) as [r2|] eqn:H2; [|done]. simpl.
  destruct (Re.lit _ (Re.ws r2)) as [r3|] eqn:H3; [|done]. simpl.
  destruct (Re.quoted r3) as [[v r4]|] eqn:H4; [|done]. simpl.
  destruct (Re.lit _ (Re.ws r4)) as [r5|] eqn:H5; [|done]. simpl.
  intros [= _ <-].
  pose proof (drop_while_length_le py_isspace r1).
  pose proof (drop_while_length_le py_isspace r2).
  pose proof (drop_while_length_le py_isspace r4).
  unfold Re.ws in *. repeat shorter_step. lia.
Qed.

Lemma create_swe_agent_here_consumes : consumes Re.create_swe_agent_here.
Proof.
  intros s a r. unfold Re.create_swe_agent_here.
  destruct (Re.lit _ s) as [r1|] eqn:H1; [|done]. simpl.
  destruct (Re.lit _ (Re.ws r1)) as [r2|] eqn:H2; [|done]. simpl.
  destruct (Re.lit _ (Re.ws r2)) as [r3|] eqn:H3; [|done]. simpl.
  destruct (Re.quoted r3) as [[v1 r4]|] eqn:H4; [|done]. simpl.
  destruct (Re.lit _ (Re.ws r4)) as [r5|] eqn:H5; [|done]. simpl.
  destruct (Re.lit _ (Re.ws r5)) as [r6|] eqn:H6; [|done]. simpl.
  destruct (Re.quoted r6) as [[v2 r7]|] eqn:H7; [|done]. simpl.
  destruct (Re.lit _ (Re.ws r7)) as [r8|] eqn:H8; [|done]. simpl.
  destruct (Re.lit _ (Re.ws r8)) as [r9|] eqn:H9; [|done]. simpl.
  destruct (Re.quoted r9) as [[v3 r10]|] eqn:H10; [|done]. simpl.
  destruct (Re.lit _ (Re.ws r10)) as [r11|] eqn:H11; [|done]. simpl.
  intros [= _ <-].
  pose proof (drop_while_length_le py_isspace r1).
  pose proof (drop_while_length_le py_isspace r2).
  pose proof (drop_while_length_le py_isspace r4).
  pose proof (drop_while_length_le py_isspace r5).
  pose proof (drop_while_length_le py_isspace r7).
  pose proof (drop_while_length_le py_isspace r8).
  pose proof (drop_while_length_le py_isspace r10).
  unfold Re.ws in *. repeat shorter_step. lia.
Qed.

Lemma file_tag_here_consumes : consumes Re.file_tag_here.
Proof.
  intros s a r. unfold Re.file_tag_here.
  destruct (Re.lit _ s) as [r1|] eqn:H1; [|done]. cbn [mbind option_bind].
  destruct (Re.ws1 r1) as [r2|] eqn:H2; [|done]. cbn [mbind option_bind].
  destruct (Re.lit _ r2) as [r3|] eqn:H3; [|done]. cbn [mbind option_bind].
  destruct (Re.quoted r3) as [[v1 r4]|] eqn:H4; [|done]. cbn [mbind option_bind].
  destruct (Re.lit _ (Re.ws r4)) as [r5|] eqn:H5; [|done]. cbn [mbind option_bind].
  pose proof (span_length_le py_isword r5) as Hspan.
  destruct (span py_isword r5) as [lang r6]. simpl in Hspan.
  pose proof (drop_length_le 1 r6) as Hdrop.
  pose proof (drop_while_length_le py_isspace r4).
  unfold Re.ws in *.
  destruct (nonempty lang && startswith nl r6);
    match goal with
    | |- context [find_sub ?p ?t] =>
        destruct (find_sub p t) as [[text rest]|] eqn:H6; [|done]
    end; cbn [mbind option_bind]; intros [= _ <-]; repeat shorter_step; lia.
Qed.

(** With enough fuel the scan does not depend on the fuel. *)
Lemma finditer_fuel_enough {A} (m : string → option (A * string)) :
  consumes m →
  ∀ fuel s, (String.length s ≤ fuel)%nat →
    Re.finditer_fuel fuel m s = Re.finditer m s.
Proof.
  intros Hm.
  assert (∀ f1 f2 s, (String.length s ≤ f1)%nat → (String.length s ≤ f2)%nat →
            Re.finditer_fuel f1 m s = Re.finditer_fuel f2 m s) as Hany.
  { induction f1 as [|f1 IH]; intros f2 s H1 H2.
    - destruct s; [|simpl in H1; lia]. by destruct f2.
    - destruct f2 as [|f2].
      { destruct s; [done|simpl in H2; lia]. }
      simpl. destruct s as [|c s]; [done|].
      destruct (m (String c s)) as [[a r]|] eqn:Hhere.
      + apply Hm in Hhere. simpl in *. f_equal. apply IH; lia.
      + simpl in *. apply IH; lia. }
  intros fuel s Hfuel. unfold Re.finditer. by apply Hany.
Qed.

(** A match at the head of the text is the first match of the scan, and
    the scan goes on after it; where the pattern does not match, the scan
    moves one character on. *)
Lemma finditer_hit {A} (m : string → option (A * string)) s a r :
  consumes m → m s = Some (a, r) → Re.finditer m s = a :: Re.finditer m r.
Proof.
  intros Hm Hhere. pose proof (Hm _ _ _ Hhere) as Hlt.
  unfold Re.finditer at 1. destruct s as [|c s]; [simpl in Hlt; lia|].
  cbn [String.length Re.finditer_fuel]. rewrite Hhere. f_equal.
  apply finditer_fuel_enough; [done|]. simpl in Hlt. lia.
Qed.

Lemma finditer_miss {A} (m : string → option (A * string)) c s :
  consumes m → m (String c s) = None →
  Re.finditer m (String c s) = Re.finditer m s.
Proof.
  intros Hm Hhere. unfold Re.finditer at 1.
  cbn [String.length Re.finditer_fuel]. by rewrite Hhere.
Qed.

Lemma startswith_longer p s x :
  startswith p s = false → (String.length p ≤ String.length s)%nat →
  startswith p (s +:+ x) = false.
Proof.
  revert s. induction p as [|a p IH]; intros [|b s]; simpl; try done; try lia.
  destruct (Ascii.eqb a b); [|done]. intros Hp Hlen. apply IH; [done|lia].
Qed.

Lemma string_length_append s t :
  String.length (s +:+ t) = (String.length s + String.length t)%nat.
Proof. induction s as [|c s IH]; simpl; [done|by rewrite IH]. Qed.

(** When the first occurrence of [p] in [a +:+ p] is the one at the end,
    it is also the first occurrence in any longer text. *)
Lemma find_sub_first p a x :
  find_sub p (a +:+ p) = Some (a, "") →
  find_sub p (a +:+ p +:+ x) = Some (a, x)
  ∧ ∀ a1 c a2, a = a1 +:+ String c a2 →
      startswith p (String c a2 +:+ p +:+ x) = false.
Proof.
  induction a as [|c a IH]; intros Hfirst.
  - split.
    + destruct p as [|b p]; [by destruct x|].
      simpl. rewrite Ascii.eqb_refl, startswith_append.
      by rewrite (drop_append p x).
    + intros [|? ?] c a2 Ha; simpl in Ha; done.
  - cbn [String.append find_sub] in Hfirst.
    destruct (startswith p (String c (a +:+ p))) eqn:Hp; [done|].
    destruct (find_sub p (a +:+ p)) as [[a' r']|] eqn:Hrest; [|done].
    simplify_eq. destruct (IH eq_refl) as [IH1 IH2].
    assert (startswith p (String c (a +:+ p +:+ x)) = false) as Hp'.
    { pose proof (startswith_longer p (String c (a +:+ p)) x Hp) as Hl.
      rewrite <-append_assoc. apply Hl. simpl. rewrite string_length_append. lia. }
    split.
    + cbn [String.append find_sub]. by rewrite Hp', IH1.
    + intros [|c1 a1] c2 a2 Ha; simpl in Ha; simplify_eq; [done|].
      by eapply IH2.
Qed.

(** The first block of a reply: when the text starts with [pre], the
    opening fence, [raw] and a closing fence, with no opening fence before
    that one and no closing fence inside [raw], the first block found is
    [raw] and the scan goes on in the text after the closing fence. *)
Lemma bash_blocks_first pre raw post :
  find_sub (Re.fence +:+ "bash" +:+ nl) (pre +:+ Re.fence +:+ "bash" +:+ nl)
    = Some (pre, "") →
  find_sub (nl +:+ Re.fence) (raw +:+ nl +:+ Re.fence) = Some (raw, "") →
  bash_blocks (pre +:+ (Re.fence +:+ "bash" +:+ nl) +:+ raw
               +:+ (nl +:+ Re.fence) +:+ post)
  = raw :: bash_blocks post.
Proof.
  intros Hopen Hclose. unfold bash_blocks.
  set (opening := Re.fence +:+ "bash" +:+ nl) in *.
  set (closing := nl +:+ Re.fence) in *.
  set (tail := raw +:+ closing +:+ post).
  destruct (find_sub_first opening pre tail Hopen) as [_ Hbefore].
  destruct (find_sub_first closing raw post Hclose) as [Hraw _].
  clear Hopen Hclose.
  induction pre as [|c pre IH].
  - apply finditer_hit; [apply bash_block_here_consumes|].
    unfold Re.bash_block_here, Re.lit. fold opening. cbn [String.append].
    rewrite startswith_append, drop_append. cbn [mbind option_bind].
    exact Hraw.
  - cbn [String.append]. rewrite finditer_miss.
    + apply IH. intros a1 c' a2 ->. by apply (Hbefore (String c a1) c' a2).
    + apply bash_block_here_consumes.
    + pose proof (Hbefore "" c pre eq_refl) as Hc. cbn [String.append] in Hc.
      unfold Re.bash_block_here, Re.lit. fold opening. by rewrite Hc.
Qed.

End Scans.

(** ** The agent session: queries *)

Section Query.

Context {W : Type} (env : World W).

Lemma sleeps_app t1 t2 : sleeps (t1 ++ t2) = sleeps t1 ++ sleeps t2.
Proof. unfold sleeps. apply flat_map_app. Qed.

Lemma for_each_app {A R} (l1 l2 : list A) (body : A → M W (Flow R)) st st1 :
  for_each l1 body st = (Ok Next, st1) →
  (∀ x st st', x ∈ l1 → body x st = (Ok Break, st') → False) →
  for_each (l1 ++ l2) body st = for_each l2 body st1.
Proof.
  revert st. induction l1 as [|x l1 IH]; intros st Hrun Hnb.
  - simpl in Hrun. unfold ret in Hrun. by simplify_eq.
  - simpl in *. unfold bind in *.
    destruct (body x st) as [[[| |r]|e] st2] eqn:Hx; try done.
    + apply IH; [done|]. intros y s s' Hy. apply Hnb. by right.
    + exfalso. eapply Hnb; [by left|done].
Qed.

(** One failed attempt: the conversation is as it was, and the attempt
    has slept [2 ^ attempt] seconds unless it is the first.  The loop goes
    on when the error reads as a rate limit or a time-out, or when the
    attempt is not the last one. *)
Lemma query_attempt_failed max_retries attempt (st : State W) e w2 :
  completion env (if 0 <? attempt then sleep env (st_world st) (2 ^ attempt)
                  else st_world st) (st_messages st) = (Raise e, w2) →
  is_rate_limit_or_timeout e = true ∨ attempt ≠ max_retries - 1 →
  ∃ st', query_attempt env max_retries attempt st = (Ok Next, st')
         ∧ st_messages st' = st_messages st
         ∧ st_world st' = w2
         ∧ st_project st' = st_project st
         ∧ st_agents st' = st_agents st
         ∧ sleeps (st_trace st')
           = sleeps (st_trace st) ++ (if 0 <? attempt then [2 ^ attempt] else []).
Proof.
  intros Hfail Hnext. unfold query_attempt, time_sleep. unfold_monad.
  destruct (0 <? attempt); simpl; rewrite Hfail; simpl;
    (destruct (is_rate_limit_or_timeout e) eqn:Hk;
     [|destruct (Z.eqb_spec attempt (max_retries - 1));
       [destruct Hnext; congruence|]]);
    eexists; (split; [done|]); simpl; repeat split;
    rewrite !sleeps_app; simpl; by rewrite ?app_nil_r.
Qed.

Lemma query_attempt_no_break max_retries attempt (st st' : State W) :
  query_attempt env max_retries attempt st = (Ok Break, st') → False.
Proof.
  unfold query_attempt, time_sleep, pop_pending_user. unfold_monad.
  destruct (0 <? attempt); simpl;
    destruct (completion env _ _) as [[reply|e] w2]; simpl; try done;
    (destruct (is_rate_limit_or_timeout e); [done|]);
    (destruct (attempt =? max_retries - 1); [|done]);
    simpl; (destruct (last _) as [m|]; [|done]);
    by destruct (String.eqb (role m) "user").
Qed.

Lemma query_loop_retried max_retries (attempts : list Z) (st : State W)
    errors w' :
  failed_attempts env attempts (st_messages st) (st_world st) = Some (errors, w') →
  forallb is_rate_limit_or_timeout errors = true
  ∨ Forall (λ a, a ≠ max_retries - 1) attempts →
  ∃ st', for_each attempts (query_attempt env max_retries) st = (Ok Next, st')
         ∧ st_messages st' = st_messages st
         ∧ st_world st' = w'
         ∧ st_project st' = st_project st
         ∧ st_agents st' = st_agents st
         ∧ sleeps (st_trace st')
           = sleeps (st_trace st)
             ++ map (Z.pow 2) (List.filter (Z.ltb 0) attempts).
Proof.
  revert st errors.
  induction attempts as [|a attempts IH]; intros st errors Hfail Hnext.
  - simpl in *. unfold ret. simplify_eq. eexists. by rewrite app_nil_r.
  - cbn [failed_attempts] in Hfail.
    destruct (completion env _ (st_messages st)) as [[reply|e] w2] eqn:Hcall;
      [done|].
    destruct (failed_attempts env attempts (st_messages st) w2)
      as [[errors' w3]|] eqn:Hrest; [|done].
    simpl in Hfail. simplify_eq.
    destruct (query_attempt_failed max_retries a st e w2 Hcall)
      as (st1 & Hrun & Hm & Hw & Hp & Ha & Hs).
    { destruct Hnext as [Hall|Hall].
      - simpl in Hall. apply andb_true_iff in Hall as [? _]. by left.
      - right. by inversion Hall. }
    destruct (IH st1 errors') as (st2 & Hrun2 & Hm2 & Hw2 & Hp2 & Ha2 & Hs2).
    { by rewrite Hm, Hw. }
    { destruct Hnext as [Hall|Hall].
      - simpl in Hall. apply andb_true_iff in Hall as [_ ?]. by left.
      - right. by inversion Hall. }
    exists st2. simpl. unfold bind. rewrite Hrun.
    repeat split; try congruence.
    rewrite Hs2, Hs, <-app_assoc. f_equal. by destruct (0 <? a).
Qed.

Lemma failed_attempts_app l1 l2 ms (w : W) errors w' :
  failed_attempts env (l1 ++ l2) ms w = Some (errors, w') →
  ∃ e1 w1 e2,
    failed_attempts env l1 ms w = Some (e1, w1)
    ∧ failed_attempts env l2 ms w1 = Some (e2, w')
    ∧ errors = e1 ++ e2.
Proof.
  revert w errors. induction l1 as [|a l1 IH]; intros w errors Hfail.
  - simpl in *. exists [], w, errors. done.
  - cbn [app failed_attempts] in *.
    destruct (completion env _ ms) as [[reply|e] w2]; [done|].
    destruct (failed_attempts env (l1 ++ l2) ms w2) as [[errs w3]|] eqn:Hrest;
      [|done].
    simpl in Hfail. simplify_eq.
    destruct (IH _ _ Hrest) as (e1 & w1 & e2 & -> & H2 & ->).
    exists (e :: e1), w1, e2. done.
Qed.

Lemma range_snoc n : 0 < n → range n = range (n - 1) ++ [n - 1].
Proof.
  intros Hn. unfold range.
  replace (Z.to_nat n) with (S (Z.to_nat (n - 1))) by lia.
  rewrite seq_S, map_app. simpl. do 2 f_equal. lia.
Qed.

Lemma range_below n : Forall (λ a, a ≠ n) (range n).
Proof.
  unfold range. apply Forall_forall. intros a Ha%list_elem_of_In.
  apply in_map_iff in Ha as [i [<- Hi]]. apply in_seq in Hi. lia.
Qed.

(** The loop up to its last turn, when every attempt fails: the loop has
    gone on to the last attempt, whose error is the last of the list. *)
Lemma query_loop_before_last message max_retries (st : State W) errors w' e :
  failed_attempts env (range max_retries)
    (st_messages st ++ [mkMessage "user" message]) (st_world st)
    = Some (errors, w') →
  last errors = Some e →
  ∃ st1 w1,
    for_each (range max_retries) (query_attempt env max_retries)
      (mkState (st_messages st ++ [mkMessage "user" message]) (st_project st)
               (st_agents st) (st_world st) (st_trace st))
    = for_each [max_retries - 1] (query_attempt env max_retries) st1
    ∧ st_messages st1 = st_messages st ++ [mkMessage "user" message]
    ∧ st_project st1 = st_project st ∧ st_agents st1 = st_agents st
    ∧ sleeps (st_trace st1)
      = sleeps (st_trace st)
        ++ map (Z.pow 2) (List.filter (Z.ltb 0) (range (max_retries - 1)))
    ∧ completion env
        (if 0 <? max_retries - 1
         then sleep env (st_world st1) (2 ^ (max_retries - 1))
         else st_world st1) (st_messages st1) = (Raise e, w1).
Proof.
  intros Hfail Hlast.
  assert (0 < max_retries) as Hpos.
  { destruct (Z.ltb_spec 0 max_retries) as [|Hle]; [done|].
    unfold range in Hfail. replace (Z.to_nat max_retries) with 0%nat in Hfail by lia.
    simpl in Hfail. by simplify_eq. }
  rewrite range_snoc in Hfail |- * by done.
  apply failed_attempts_app in Hfail as (e1 & w1 & e2 & Hinit & Hfinal & ->).
  set (st0 := mkState (st_messages st ++ [mkMessage "user" message])
                      (st_project st) (st_agents st) (st_world st) (st_trace st)).
  destruct (query_loop_retried max_retries (range (max_retries - 1)) st0 e1 w1)
    as (st1 & Hrun & Hm & Hw & Hp & Ha & Hs); [done|right; apply range_below|].
  subst st0. simpl in Hm, Hw, Hp, Ha, Hs.
  cbn [failed_attempts] in Hfinal. rewrite <-Hw, <-Hm in Hfinal.
  destruct (completion env _ (st_messages st1)) as [[reply|e'] w2] eqn:Hcall;
    [done|].
  simpl in Hfinal. simplify_eq. rewrite last_snoc in Hlast. simplify_eq.
  exists st1, w'. split.
  { eapply for_each_app; [done|].
    intros a s s' _. apply query_attempt_no_break. }
  repeat split; done.
Qed.

(** C1, on the code as it is.  When every attempt fails and the error of
    the last attempt reads as a rate limit or a time-out, [query_llm]
    leaves the loop without a [return]: the result is [None], not a
    failure text, and the pending user message stays in the conversation,
    which is one message longer than before the call.  The delays slept
    between the attempts are [2 ^ attempt] for the attempts after the
    first. *)
Theorem query_llm_rate_limited_returns_none message max_retries (st : State W)
    errors w' e :
  failed_attempts env (range max_retries)
    (st_messages st ++ [mkMessage "user" message]) (st_world st)
    = Some (errors, w') →
  last errors = Some e →
  is_rate_limit_or_timeout e = true →
  ∃ st', query_llm env message max_retries st = (Ok None, st')
         ∧ st_messages st' = st_messages st ++ [mkMessage "user" message]
         ∧ length (st_messages st') = S (length (st_messages st))
         ∧ sleeps (st_trace st')
           = sleeps (st_trace st)
             ++ map (Z.pow 2) (List.filter (Z.ltb 0) (range max_retries)).
Proof.
  intros Hfail Hlast Hkind.
  assert (0 < max_retries) as Hpos.
  { destruct (Z.ltb_spec 0 max_retries) as [|Hle]; [done|].
    unfold range in Hfail. replace (Z.to_nat max_retries) with 0%nat in Hfail by lia.
    simpl in Hfail. by simplify_eq. }
  destruct (query_loop_before_last _ _ _ _ _ _ Hfail Hlast)
    as (st1 & w1 & Hloop & Hm & _ & _ & Hs & Hcall).
  destruct (query_attempt_failed max_retries (max_retries - 1) st1 e w1 Hcall)
    as (st2 & Hrun & Hm2 & _ & _ & _ & Hs2); [by left|].
  unfold query_llm. unfold bind at 1. unfold append_message.
  unfold bind at 1. unfold get_state, set_messages. unfold bind at 1.
  rewrite Hloop. simpl. unfold bind at 1. rewrite Hrun. unfold ret.
  exists st2. rewrite Hm2, Hm, Hs2, Hs, length_app. simpl.
  repeat split; [lia|].
  rewrite (range_snoc max_retries), List.filter_app, map_app, <-app_assoc by done.
  do 2 f_equal. simpl. by destruct (0 <? max_retries - 1).
Qed.

(** The other half of C1, which the code does keep.  When every attempt
    fails and the error of the last attempt reads neither as a rate limit
    nor as a time-out, the result is the failure text, which is not empty,
    the pending user message is removed and the conversation is as it was
    before the call. *)
Lemma query_llm_final_error_reported message max_retries (st : State W)
    errors w' e :
  failed_attempts env (range max_retries)
    (st_messages st ++ [mkMessage "user" message]) (st_world st)
    = Some (errors, w') →
  last errors = Some e →
  is_rate_limit_or_timeout e = false →
  ∃ st', query_llm env message max_retries st
         = (Ok (Some (fallback_msg max_retries e)), st')
         ∧ nonempty (fallback_msg max_retries e) = true
         ∧ st_messages st' = st_messages st
         ∧ sleeps (st_trace st')
           = sleeps (st_trace st)
             ++ map (Z.pow 2) (List.filter (Z.ltb 0) (range max_retries)).
Proof.
  intros Hfail Hlast Hkind.
  assert (0 < max_retries) as Hpos.
  { destruct (Z.ltb_spec 0 max_retries) as [|Hle]; [done|].
    unfold range in Hfail. replace (Z.to_nat max_retries) with 0%nat in Hfail by lia.
    simpl in Hfail. by simplify_eq. }
  destruct (query_loop_before_last _ _ _ _ _ _ Hfail Hlast)
    as (st1 & w1 & Hloop & Hm & _ & _ & Hs & Hcall).
  unfold query_llm. unfold bind at 1. unfold append_message.
  unfold bind at 1. unfold get_state, set_messages. unfold bind at 1.
  rewrite Hloop. simpl. unfold bind at 1.
  unfold query_attempt, time_sleep, pop_pending_user. unfold_monad.
  rewrite (range_snoc max_retries), List.filter_app, map_app, app_assoc, <-Hs by done.
  cbn [List.filter].
  destruct (0 <? max_retries - 1); simpl; rewrite Hcall; simpl;
    rewrite Hkind, Z.eqb_refl; simpl; rewrite Hm, last_snoc; simpl;
    rewrite removelast_last; eexists; (split; [done|]); simpl;
    repeat split; rewrite !sleeps_app; simpl; by rewrite ?app_nil_r.
Qed.

End Query.

Lemma query_llm_rate_limited_returns_none_witness :
  let st := Sim.demo_state (Sim.demo_world [] rate_limited Sim.quiet_shell) in
  ∃ st', query_llm Sim.env "Continue with the implementation." 3 st = (Ok None, st')
         ∧ st_messages st'
           = st_messages st ++ [mkMessage "user" "Continue with the implementation."]
         ∧ length (st_messages st') = 2%nat
         ∧ sleeps (st_trace st') = [2; 4].
Proof.
  intros st.
  destruct (query_llm_rate_limited_returns_none Sim.env
              "Continue with the implementation." 3 st
              (replicate 3 (mkExc OtherException
                 "RateLimitError: Rate limit reached for requests"))
              (st_world st)
              (mkExc OtherException
                 "RateLimitError: Rate limit reached for requests"))
    as (st' & Hrun & Hm & Hlen & Hs); [reflexivity..|].
  exists st'. repeat split; assumption.
Defined.

(** ** The agent session: applying a reply *)

Section Session.

Context {W : Type} (env : World W).

Lemma extends_refl cls (st : State W) : extends cls [] st st.
Proof.
  unfold extends. rewrite app_nil_r. repeat split. exists [].
  by rewrite app_nil_r.
Qed.

Lemma extends_trans cls m1 m2 (st1 st2 st3 : State W) :
  extends cls m1 st1 st2 → extends cls m2 st2 st3 →
  extends cls (m1 ++ m2) st1 st3.
Proof.
  intros (Hp1 & Ha1 & Hm1 & t1 & Ht1 & Hc1) (Hp2 & Ha2 & Hm2 & t2 & Ht2 & Hc2).
  unfold extends. rewrite Hp2, Ha2, Hm2, Hm1, Ht2, Ht1.
  split; [done|]. split; [done|]. split; [by rewrite <-List.app_assoc|].
  exists (t1 ++ t2). rewrite <-List.app_assoc. split; [done|].
  rewrite forallb_app. by rewrite Hc1, Hc2.
Qed.

(** Appending one message. *)
Lemma extends_message cls r c (st : State W) :
  extends cls [mkMessage r c] st
    (mkState (st_messages st ++ [mkMessage r c]) (st_project st)
             (st_agents st) (st_world st) (st_trace st)).
Proof.
  unfold extends. simpl. repeat split. exists []. by rewrite app_nil_r.
Qed.

(** [BashExecutor.run] returns, and touches neither the conversation nor
    the registry. *)
Lemma BashExecutor_run_spec command cwd timeout (st : State W) :
  ∃ r st', BashExecutor_run env command cwd timeout st = (Ok r, st')
           ∧ extends is_command_event [] st st'.
Proof.
  unfold BashExecutor_run, BashExecutor_run_body, ensure_cwd, os_path_exists,
    os_makedirs, extends.
  unfold_monad.
  destruct cwd as [d|]; [destruct (nonempty d)|]; simpl;
    try destruct (path_exists env (st_world st) d); simpl;
    try destruct (makedirs env (st_world st) d) as [[[]|e1] w1]; simpl;
    try destruct (subprocess_run env _ command _ timeout) as [[res|e2] w2]; simpl;
    try destruct (is_timeout_expired _); simpl;
    eexists _, _; (split; [reflexivity|]); simpl; rewrite ?app_nil_r;
    repeat split; rewrite <-?app_assoc; eexists; (split; [reflexivity|]); done.
Qed.

(** [execute_read_file] returns whatever the file system does; the content
    of a file that was read is appended to the conversation as a user
    message. *)
Lemma execute_read_file_spec file_path (st : State W) :
  ∃ r st', execute_read_file env file_path st = (Ok r, st')
           ∧ extends is_read_event
               (if r.1 then [mkMessage "user" r.2] else []) st st'
           ∧ (r.1 = true →
              ∃ text, r.2 = "Contents of " +:+ file_path +:+ ":" +:+ nl +:+ text).
Proof.
  unfold execute_read_file, join_project_dir, os_path_exists, extends.
  unfold_monad.
  destruct (project_dir (st_project st)) as [d|]; simpl.
  - destruct (path_exists env (st_world st) (PosixPath.join d file_path)); simpl.
    + destruct (read_text env (st_world st) (PosixPath.join d file_path))
        as [[text|e] w1]; simpl.
      * eexists _, _. split; [reflexivity|]. simpl. split; [|by eauto].
        repeat split. rewrite <-app_assoc. eexists. split; [reflexivity|done].
      * eexists _, _. split; [reflexivity|]. simpl. rewrite app_nil_r.
        split; [|done]. repeat split. rewrite <-app_assoc.
        eexists. split; [reflexivity|done].
    + eexists _, _. split; [reflexivity|]. simpl. rewrite app_nil_r.
      split; [|done]. repeat split. eexists. split; [reflexivity|done].
  - eexists _, _. split; [reflexivity|]. simpl. rewrite app_nil_r.
    split; [|done]. repeat split. exists []. by rewrite app_nil_r.
Qed.

(** Under a project directory, [create_file] returns; a file that was
    created had its parent directory made first, when the path has one,
    and is confirmed by a user message. *)
Lemma create_file_spec file_info d (st : State W) :
  project_dir (st_project st) = Some d →
  let full_path := PosixPath.join d (fc_path file_info) in
  ∃ r st', create_file env file_info st = (Ok r, st')
           ∧ extends is_create_event
               (if r.1
                then [mkMessage "user" ("File created: " +:+ fc_path file_info)]
                else []) st st'
           ∧ (r.1 = true →
              st_trace st'
              = st_trace st
                ++ (if nonempty (PosixPath.dirname full_path)
                    then [EvMakedirs (PosixPath.dirname full_path)] else [])
                ++ [EvWriteText full_path (fc_content file_info)]).
Proof.
  intros Hd full_path. subst full_path.
  unfold create_file, join_project_dir, os_makedirs, extends.
  unfold_monad. rewrite Hd. simpl.
  destruct (nonempty (PosixPath.dirname (PosixPath.join d (fc_path file_info))));
    simpl;
    try destruct (makedirs env (st_world st) _) as [[[]|e1] w1]; simpl;
    try destruct (write_text env _ _ _) as [[[]|e2] w2]; simpl;
    eexists _, _; (split; [reflexivity|]); simpl; rewrite ?app_nil_r;
    (split; [|try done; by rewrite <-?app_assoc]);
    repeat split; rewrite <-?app_assoc; eexists; (split; [reflexivity|]); done.
Qed.

Lemma read_files_spec (reads : list string) (st : State W) :
  ∃ rs st', for_collect reads (execute_read_file env) st = (Ok rs, st')
            ∧ extends is_read_event (read_messages rs) st st'
            ∧ Forall2 (λ file_path (r : bool * string),
                         r.1 = true →
                         ∃ text, r.2 = "Contents of " +:+ file_path +:+ ":"
                                       +:+ nl +:+ text) reads rs.
Proof.
  revert st. induction reads as [|file_path reads IH]; intros st.
  - exists [], st. simpl. unfold ret. split; [done|]. split; [|done].
    apply extends_refl.
  - destruct (execute_read_file_spec file_path st) as (r & st1 & Hrun & Hext & Hr).
    destruct (IH st1) as (rs & st2 & Hrun2 & Hext2 & Hrs).
    exists (r :: rs), st2. simpl. unfold bind. rewrite Hrun, Hrun2. unfold ret.
    split; [done|]. split; [|by constructor].
    unfold read_messages. cbn [flat_map]. by eapply extends_trans.
Qed.

Lemma create_files_spec (files : list FileCreation) d (st : State W) :
  project_dir (st_project st) = Some d →
  ∃ fs st', for_collect files (create_file env) st = (Ok fs, st')
            ∧ extends is_create_event (created_messages files fs) st st'
            ∧ length fs = length files.
Proof.
  revert st. induction files as [|f files IH]; intros st Hd.
  - exists [], st. simpl. unfold ret. split; [done|]. split; [|done].
    apply extends_refl.
  - destruct (create_file_spec f d st Hd) as (r & st1 & Hrun & Hext & _).
    destruct (IH st1) as (fs & st2 & Hrun2 & Hext2 & Hlen).
    { destruct Hext as (-> & _). done. }
    exists (r :: fs), st2. simpl. unfold bind. rewrite Hrun, Hrun2. unfold ret.
    split; [done|]. split; [|by rewrite Hlen].
    unfold created_messages. cbn [zip zip_with flat_map]. by eapply extends_trans.
Qed.

(** The batch of commands: the results stop at the first failure, the
    output of every command that ran is appended to the conversation, and
    each command runs in the state that the commands before it have left,
    their outputs already in the conversation. *)
Lemma execute_bash_commands_in_spec dir (commands : list string) (st : State W) :
  ∃ bs st', execute_bash_commands_in env dir commands st = (Ok bs, st')
            ∧ extends is_command_event (command_messages bs) st st'
            ∧ stops_at_first_failure (length commands) bs
            ∧ ∀ k cmd, commands !! k = Some cmd → (k < length bs)%nat →
                ∃ sk sk' r,
                  execute_bash_commands_in env dir (take k commands) st
                  = (Ok (take k bs), sk)
                  ∧ st_messages sk = st_messages st ++ command_messages (take k bs)
                  ∧ bs !! k = Some r
                  ∧ BashExecutor_run env cmd dir 30 sk = (Ok r, sk').
Proof.
  revert st. induction commands as [|cmd commands IH]; intros st.
  - exists [], st. simpl. unfold ret. split; [done|]. split; [apply extends_refl|].
    split; [by left|]. intros k c Hk. done.
  - destruct (BashExecutor_run_spec cmd dir 30 st) as ([success output] & st1 & Hrun & Hext).
    set (st1' := mkState (st_messages st1 ++ [mkMessage "user"
                            ("Command executed:" +:+ nl +:+ output)])
                         (st_project st1) (st_agents st1) (st_world st1)
                         (st_trace st1)).
    assert (extends is_command_event
              [mkMessage "user" ("Command executed:" +:+ nl +:+ output)] st st1')
      as Hext'.
    { change [mkMessage "user" ("Command executed:" +:+ nl +:+ output)]
        with ([] ++ [mkMessage "user" ("Command executed:" +:+ nl +:+ output)]).
      eapply extends_trans; [exact Hext|apply extends_message]. }
    assert (∀ k c, (cmd :: commands) !! k = Some c → k = 0%nat →
              ∃ sk sk' r,
                execute_bash_commands_in env dir (take k (cmd :: commands)) st
                = (Ok [], sk)
                ∧ st_messages sk = st_messages st ++ []
                ∧ Some (success, output) = Some r
                ∧ BashExecutor_run env c dir 30 sk = (Ok r, sk')) as Hfirst.
    { intros k c Hk ->. simpl in Hk. simplify_eq.
      exists st, st1, (success, output). simpl. unfold ret.
      by rewrite app_nil_r. }
    destruct success.
    + destruct (IH st1') as (bs & st2 & Hrun2 & Hext2 & Hstop & Hk).
      exists ((true, output) :: bs), st2.
      cbn [execute_bash_commands_in]. unfold bind at 1. rewrite Hrun.
      unfold append_message. unfold bind at 1 2. unfold get_state, set_messages.
      cbn [negb]. fold st1'. unfold bind at 1. rewrite Hrun2. unfold ret.
      split; [done|]. split; [exact (extends_trans _ _ _ _ _ _ Hext' Hext2)|].
      split.
      { destruct Hstop as [Hall|(k & Hlt & Hfst)].
        - left. simpl. by rewrite Hall.
        - right. exists (S k). simpl. rewrite Hfst. split; [lia|done]. }
      intros [|k] c Hc Hlen.
      { destruct (Hfirst 0%nat c Hc) as (sk & sk' & r & ? & ? & ? & ?); [done|].
        exists sk, sk', r. done. }
      simpl in Hc, Hlen.
      destruct (Hk k c Hc) as (sk & sk' & r & Hpre & Hm & Hr & Hrunk); [lia|].
      exists sk, sk', r. cbn [take].
      cbn [execute_bash_commands_in]. unfold bind at 1. rewrite Hrun.
      unfold append_message. unfold bind at 1 2. unfold get_state, set_messages.
      cbn [negb]. fold st1'. unfold bind at 1. rewrite Hpre. unfold ret.
      split; [done|]. split; [|done].
      rewrite Hm. destruct Hext' as (_ & _ & -> & _).
      simpl. by rewrite <-List.app_assoc.
    + exists [(false, output)], st1'.
      cbn [execute_bash_commands_in]. unfold bind at 1. rewrite Hrun.
      unfold append_message. unfold bind at 1 2. unfold get_state, set_messages.
      cbn [negb]. fold st1'. unfold ret.
      split; [done|]. split; [done|].
      split.
      { right. exists 0%nat. simpl. split; [lia|done]. }
      intros k c Hc Hlen. simpl in Hlen.
      destruct (Hfirst k c Hc) as (sk & sk' & r & ? & ? & ? & ?); [lia|].
      assert (k = 0%nat) as -> by lia.
      exists sk, sk', r. done.
Qed.







(** *** What a query leaves untouched *)

Lemma same_registry_trans (st1 st2 st3 : State W) :
  same_registry st1 st2 → same_registry st2 st3 → same_registry st1 st3.
Proof. unfold same_registry. intros [-> ->] [-> ->]. done. Qed.

Lemma extends_same_registry cls msgs (st st' : State W) :
  extends cls msgs st st' → same_registry st st'.
Proof. intros (? & ? & _). by split. Qed.

Lemma query_attempt_same_registry max_retries attempt (st : State W) r st' :
  query_attempt env max_retries attempt st = (r, st') → same_registry st st'.
Proof.
  unfold query_attempt, time_sleep, pop_pending_user, same_registry.
  unfold_monad.
  destruct (0 <? attempt); simpl;
    destruct (completion env _ _) as [[reply|e] w2]; simpl;
    try (intros [= <- <-]; done);
    (destruct (is_rate_limit_or_timeout e); [intros [= <- <-]; done|]);
    (destruct (attempt =? max_retries - 1); [|intros [= <- <-]; done]);
    simpl; (destruct (last _) as [m|]; [|intros [= <- <-]; done]);
    destruct (String.eqb (role m) "user"); intros [= <- <-]; done.
Qed.

Lemma for_each_same_registry {A R} (l : list A) (body : A → M W (Flow R))
    (st : State W) r st' :
  (∀ x s r s', body x s = (r, s') → same_registry s s') →
  for_each l body st = (r, st') → same_registry st st'.
Proof.
  intros Hbody. revert st. induction l as [|x l IH]; intros st; simpl.
  - unfold ret. intros [= <- <-]. by split.
  - unfold bind. destruct (body x st) as [[[| |v]|e] st1] eqn:Hx;
      pose proof (Hbody _ _ _ _ Hx) as Hreg.
    + intros Hrest. eapply same_registry_trans; [done|]. by eapply IH.
    + unfold ret. by intros [= <- <-].
    + unfold ret. by intros [= <- <-].
    + by intros [= <- <-].
Qed.

Lemma query_llm_same_registry message max_retries (st : State W) r st' :
  query_llm env message max_retries st = (r, st') → same_registry st st'.
Proof.
  unfold query_llm. unfold bind at 1. unfold append_message.
  unfold bind at 1. unfold get_state, set_messages. unfold bind.
  match goal with
  | |- context [for_each ?l ?b ?s] =>
      destruct (for_each l b s) as [[f|e] st1] eqn:Hloop
  end;
    apply for_each_same_registry in Hloop;
    try (intros; by eapply query_attempt_same_registry);
    [destruct f|]; unfold ret; intros [= <- <-]; exact Hloop.
Qed.

(** Applying a reply that returns leaves the registry as it was. *)
Lemma apply_reply_same_registry response (st : State W) results st' :
  apply_reply env response st = (Ok results, st') → same_registry st st'.
Proof.
  unfold apply_reply. unfold bind at 1.
  destruct (read_files_spec (extract_read_file_calls response) st)
    as (rs & st1 & -> & Hext1 & _).
  apply extends_same_registry in Hext1.
  unfold bind at 1.
  destruct (match extract_file_creations response with
            | [] => ret []
            | _ :: _ => create_files_from_tags env (extract_file_creations response)
            end st1) as [[fs|e] st2] eqn:Hfiles; [|done].
  assert (same_registry st1 st2) as Hreg2.
  { destruct (extract_file_creations response) as [|f files] eqn:Hfs.
    - unfold ret in Hfiles. simplify_eq. by split.
    - destruct (project_dir (st_project st1)) as [d|] eqn:Hd.
      + destruct (create_files_spec (f :: files) d st1 Hd)
          as (fs' & st2' & Hrun & Hext & _).
        unfold create_files_from_tags in Hfiles. rewrite Hrun in Hfiles.
        simplify_eq. by eapply extends_same_registry.
      + unfold create_files_from_tags in Hfiles. simpl in Hfiles.
        unfold bind, create_file, join_project_dir in Hfiles.
        unfold bind, get_state, raise in Hfiles. rewrite Hd in Hfiles. done. }
  unfold bind at 1.
  destruct (match extract_bash_commands response with
            | [] => ret []
            | _ :: _ => execute_bash_commands env (extract_bash_commands response)
            end st2) as [[bs|e] st3] eqn:Hcmds; [|done].
  assert (same_registry st2 st3) as Hreg3.
  { destruct (extract_bash_commands response) as [|c cs] eqn:Hcs.
    - unfold ret in Hcmds. simplify_eq. by split.
    - unfold execute_bash_commands in Hcmds. unfold bind, get_state in Hcmds.
      destruct (execute_bash_commands_in_spec (project_dir (st_project st2))
                  (c :: cs) st2) as (bs' & st3' & Hrun & Hext & _).
      rewrite Hrun in Hcmds. simplify_eq. by eapply extends_same_registry. }
  unfold ret. intros [= <- <-].
  eapply same_registry_trans; [done|]. by eapply same_registry_trans.
Qed.

End Session.


(** ** The worker *)

Section Worker.

Context {W : Type} (env : World W).



Lemma bind_ok {A B} (c : M W A) (k : A → M W B) (st : State W) b st' :
  bind c k st = (Ok b, st') → ∃ a s, c st = (Ok a, s) ∧ k a s = (Ok b, st').
Proof.
  unfold bind. destruct (c st) as [[a|e] s]; [|done]. eauto.
Qed.

Lemma finish_task_flow aid i task response (s : State W) f s' :
  finish_task env aid i task response s = (Ok f, s') → f = Return tt.
Proof.
  unfold finish_task.
  intros (_ & s1 & _ & (_ & s2 & _ & Hret)%bind_ok)%bind_ok.
  unfold ret in Hret. by simplify_eq.
Qed.

(** A step that does not end the run leaves the registry as it was. *)
Lemma worker_step_flow aid i task prompt step (st : State W) f st' :
  worker_step env aid i task prompt step st = (Ok f, st') →
  f = Return tt ∨ (f = Next ∧ same_registry st st').
Proof.
  unfold worker_step.
  intros (r & s1 & Hquery & (response & s2 & Hexp
          & (results & s3 & Happly & Hend)%bind_ok)%bind_ok)%bind_ok.
  apply query_llm_same_registry in Hquery.
  assert (s2 = s1) as ->.
  { unfold expect_str, ret, raise in Hexp. destruct r; by simplify_eq. }
  apply apply_reply_same_registry in Happly.
  destruct (nonempty_list _ && existsb _ _).
  { left. by eapply finish_task_flow. }
  destruct (mentions completion_phrases response).
  { left. by eapply finish_task_flow. }
  unfold ret in Hend. simplify_eq. right. split; [done|].
  by eapply same_registry_trans.
Qed.

Lemma worker_steps_exhausted aid i task prompt (steps : list Z) (st : State W) st' :
  for_each steps (worker_step env aid i task prompt) st = (Ok Next, st') →
  same_registry st st'.
Proof.
  revert st. induction steps as [|step steps IH]; intros st; simpl.
  - unfold ret. intros [= <-]. by split.
  - intros (f & s1 & Hstep & Hrest)%bind_ok.
    apply worker_step_flow in Hstep as [->|[-> Hreg]].
    + unfold ret in Hrest. by simplify_eq.
    + eapply same_registry_trans; [done|]. by apply IH.
Qed.

(** The statements before the [try]: the agent is in the dictionary and
    at work, and the task found is the first one with the given id, now in
    progress. *)
Lemma worker_start_spec aid tid (st : State W) i task st1 :
  worker_start aid tid st = (Ok (i, task), st1) →
  task_id task = tid
  ∧ project_tasks (st_project st) !! i = Some task
  ∧ project_tasks (st_project st1) !! i = Some (with_task_status in_progress task)
  ∧ ∃ a, st_agents st1 !! aid = Some a.
Proof.
  unfold worker_start, agents_update, task_update.
  unfold bind, get_state, set_agents, set_project, raise, ret.
  destruct (st_agents st !! aid) as [a|] eqn:Ha; [|done]. simpl.
  rewrite lookup_insert_eq. simpl.
  destruct (list_find _ _) as [[j t]|] eqn:Hfind; [|done].
  intros [= <- <- <-]. simpl.
  apply list_find_Some in Hfind as (Hj & Hid & _).
  rewrite list_lookup_alter_eq, Hj. repeat split; try done.
  eexists. by rewrite lookup_insert_eq.
Qed.

(** C2. A worker run that goes through its fifteen steps without any of
    them detecting completion, and without any exception, marks its task
    completed, not failed, and marks the agent completed. *)
Theorem exhausted_worker_marks_completed aid tid (st st1 st2 : State W) i task :
  worker_start aid tid st = (Ok (i, task), st1) →
  worker_loop env aid i task st1 = (Ok Next, st2) →
  max_steps = 15
  ∧ ∃ st3 t a,
      run_swe_agent env aid tid st = (Ok tt, st3)
      ∧ project_tasks (st_project st3) !! i = Some t
      ∧ task_id t = tid
      ∧ task_status t = completed
      ∧ task_status t ≠ failed
      ∧ st_agents st3 !! aid = Some a
      ∧ agent_status a = agent_completed.
Proof.
  intros Hstart Hloop. split; [reflexivity|].
  destruct (worker_start_spec _ _ _ _ _ _ Hstart) as (Hid & _ & Htask & a & Ha).
  assert (same_registry st1 st2) as [Hp Hag].
  { unfold worker_loop in Hloop. unfold bind, get_state in Hloop.
    by eapply worker_steps_exhausted. }
  unfold run_swe_agent. unfold bind at 1. rewrite Hstart.
  unfold try_except. unfold bind at 1. rewrite Hloop.
  unfold task_update, agents_update.
  unfold bind, get_state, set_project, set_agents, ret. simpl.
  rewrite Hag, Ha.
  eexists _, _, _. split; [reflexivity|]. simpl.
  rewrite list_lookup_alter_eq, Hp, Htask, lookup_insert_eq. simpl.
  repeat split; done.
Qed.

End Worker.

Lemma exhausted_worker_marks_completed_witness :
  ∃ st3 t a,
    run_swe_agent Sim.env "worker-0" "phase1_setup" busy_worker_state = (Ok tt, st3)
    ∧ project_tasks (st_project st3) !! 0%nat = Some t
    ∧ task_status t = completed
    ∧ st_agents st3 !! "worker-0" = Some a
    ∧ agent_status a = agent_completed.
Proof.
  edestruct (exhausted_worker_marks_completed Sim.env "worker-0" "phase1_setup"
               busy_worker_state)
    as (_ & st3 & t & a & Hrun & Ht & _ & Hs & _ & Ha & Has);
    [vm_compute; reflexivity|vm_compute; reflexivity|].
  exists st3, t, a. repeat split; assumption.
Defined.


(** ** Paths supplied by the model *)

Section Paths.

Context {W : Type} (env : World W).

(** A file creation goes to the path joined to the project directory,
    whatever that path is: when the file system accepts the directory and
    the file, the file is written there. *)
Lemma create_file_any_path d path language text (st : State W) w1 w2 :
  project_dir (st_project st) = Some d →
  let full_path := PosixPath.join d path in
  nonempty (PosixPath.dirname full_path) = true →
  makedirs env (st_world st) (PosixPath.dirname full_path) = (Ok tt, w1) →
  write_text env w1 full_path text = (Ok tt, w2) →
  ∃ out st',
    create_file env (mkFileCreation path language text) st = (Ok (true, out), st')
    ∧ st_world st' = w2
    ∧ last (st_trace st') = Some (EvWriteText full_path text).
Proof.
  intros Hd full_path Hdir Hmk Hwr. subst full_path.
  unfold create_file, join_project_dir, os_makedirs. unfold_monad.
  rewrite Hd. simpl. rewrite Hdir. simpl. rewrite Hmk. simpl. rewrite Hwr. simpl.
  eexists _, _. split; [reflexivity|]. simpl. split; [done|].
  by rewrite last_snoc.
Qed.

(** A read request goes to the path joined to the project directory,
    whatever that path is: when the file is there, its content is
    returned and appended to the conversation. *)
Lemma execute_read_file_any_path d path text (st : State W) w1 :
  project_dir (st_project st) = Some d →
  let full_path := PosixPath.join d path in
  path_exists env (st_world st) full_path = true →
  read_text env (st_world st) full_path = (Ok text, w1) →
  ∃ st',
    execute_read_file env path st
    = (Ok (true, "Contents of " +:+ path +:+ ":" +:+ nl +:+ text), st')
    ∧ last (st_trace st') = Some (EvReadText full_path)
    ∧ last (st_messages st')
      = Some (mkMessage "user" ("Contents of " +:+ path +:+ ":" +:+ nl +:+ text)).
Proof.
  intros Hd full_path Hex Hrd. subst full_path.
  unfold execute_read_file, join_project_dir, os_path_exists. unfold_monad.
  rewrite Hd. simpl. rewrite Hex. simpl. rewrite Hrd. simpl.
  eexists. split; [reflexivity|]. simpl. by rewrite !last_snoc.
Qed.

End Paths.

(** C9. The paths of file creations and read requests are joined to the
    project directory and used as they are.  For the project directory
    [/srv/projects/demo] the path [../../outside/notes.txt], which starts
    with [../], leads outside the directory, and in every world whose file
    system accepts the operation the file is created there and, when it
    exists, read from there. *)
Theorem traversal_path_is_not_rejected :
  ∃ path,
    startswith "../" path = true
    ∧ PosixPath.join Sim.demo_dir path = "/srv/projects/demo/../../outside/notes.txt"
    ∧ resolve_components (PosixPath.join Sim.demo_dir path)
      = ["srv"; "outside"; "notes.txt"]
    ∧ inside_root Sim.demo_dir (PosixPath.join Sim.demo_dir path) = false
    ∧ (∀ W (env : World W) (st : State W) language text w1 w2,
         project_dir (st_project st) = Some Sim.demo_dir →
         makedirs env (st_world st)
           (PosixPath.dirname (PosixPath.join Sim.demo_dir path)) = (Ok tt, w1) →
         write_text env w1 (PosixPath.join Sim.demo_dir path) text = (Ok tt, w2) →
         ∃ out st',
           create_file env (mkFileCreation path language text) st
           = (Ok (true, out), st')
           ∧ st_world st' = w2
           ∧ last (st_trace st')
             = Some (EvWriteText (PosixPath.join Sim.demo_dir path) text))
    ∧ (∀ W (env : World W) (st : State W) text w1,
         project_dir (st_project st) = Some Sim.demo_dir →
         path_exists env (st_world st) (PosixPath.join Sim.demo_dir path) = true →
         read_text env (st_world st) (PosixPath.join Sim.demo_dir path)
           = (Ok text, w1) →
         ∃ st',
           execute_read_file env path st
           = (Ok (true, "Contents of " +:+ path +:+ ":" +:+ nl +:+ text), st')
           ∧ last (st_trace st')
             = Some (EvReadText (PosixPath.join Sim.demo_dir path))).
Proof.
  exists "../../outside/notes.txt".
  split; [reflexivity|]. split; [reflexivity|]. split; [reflexivity|].
  split; [reflexivity|]. split.
  - intros W env st language text w1 w2 Hd Hmk Hwr.
    eapply create_file_any_path; [done|reflexivity|exact Hmk|exact Hwr].
  - intros W env st text w1 Hd Hex Hrd.
    destruct (execute_read_file_any_path env Sim.demo_dir
                "../../outside/notes.txt" text st w1 Hd Hex Hrd)
      as (st' & Hrun & Htr & _).
    exists st'. by split.
Qed.

Lemma traversal_path_is_not_rejected_witness :
  ∃ path out st',
    startswith "../" path = true
    ∧ inside_root Sim.demo_dir (PosixPath.join Sim.demo_dir path) = false
    ∧ create_file Sim.env (mkFileCreation path "" "overwritten") busy_state
      = (Ok (true, out), st')
    ∧ Sim.files (st_world st') !! PosixPath.join Sim.demo_dir path
      = Some "overwritten".
Proof.
  destruct traversal_path_is_not_rejected
    as (path & Hstart & _ & _ & Hout & Hcreate & _).
  edestruct (Hcreate Sim.world Sim.env busy_state "" "overwritten")
    as (out & st' & Hrun & Hw & _); [reflexivity..|].
  exists path, out, st'. repeat split; try assumption.
  rewrite Hw. apply lookup_insert_eq.
Defined.

(** * Further properties *)

(** ** Queries that get a reply, and queries without attempts *)

Section QueryReplies.

Context {W : Type} (env : World W).

Lemma range_split k n :
  0 ≤ k < n → ∃ later, range n = range k ++ k :: later.
Proof.
  intros Hk. unfold range.
  replace (Z.to_nat n) with (Z.to_nat k + S (Z.to_nat (n - k - 1)))%nat by lia.
  rewrite seq_app, map_app. cbn [seq map].
  eexists. do 2 f_equal. lia.
Qed.

Lemma range_all_below k n :
  k < n → Forall (λ a, a ≠ n - 1) (range k).
Proof.
  intros Hk. unfold range. apply Forall_forall. intros a Ha%list_elem_of_In.
  apply in_map_iff in Ha as [i [<- Hi]]. apply in_seq in Hi. lia.
Qed.

(** X1. A query whose first [k] calls to the model raise, whatever the
    error, and whose next call, still within the budget, returns a text
    returns that text; the conversation gains the user message and the
    reply of the assistant, in this order, and the attempts after the
    first have slept 2, 4, ... seconds, [2 ^ k] being the last delay.  An
    attempt that fails after its reply has been appended, on a reply
    without text, is not among these. *)
Theorem query_llm_reply_after_failures message max_retries k (st : State W)
    errors w1 reply w2 :
  0 ≤ k < max_retries →
  failed_attempts env (range k)
    (st_messages st ++ [mkMessage "user" message]) (st_world st)
    = Some (errors, w1) →
  completion env (if 0 <? k then sleep env w1 (2 ^ k) else w1)
    (st_messages st ++ [mkMessage "user" message]) = (Ok reply, w2) →
  ∃ st', query_llm env message max_retries st = (Ok (Some reply), st')
         ∧ st_messages st'
           = st_messages st
             ++ [mkMessage "user" message; mkMessage "assistant" reply]
         ∧ st_world st' = w2
         ∧ st_project st' = st_project st ∧ st_agents st' = st_agents st
         ∧ sleeps (st_trace st')
           = sleeps (st_trace st)
             ++ map (Z.pow 2) (List.filter (Z.ltb 0) (range (k + 1))).
Proof.
  intros Hk Hfail Hreply.
  destruct (range_split k max_retries Hk) as [later Hrange].
  set (st0 := mkState (st_messages st ++ [mkMessage "user" message])
                      (st_project st) (st_agents st) (st_world st) (st_trace st)).
  destruct (query_loop_retried env max_retries (range k) st0 errors w1)
    as (st1 & Hloop & Hm & Hw & Hp & Ha & Hs);
    [done|right; apply range_all_below; lia|].
  subst st0. simpl in Hm, Hw, Hp, Ha, Hs.
  unfold query_llm. unfold bind at 1. unfold append_message.
  unfold bind at 1. unfold get_state, set_messages. unfold bind at 1.
  rewrite Hrange.
  rewrite (for_each_app (range k) (k :: later) _ _ st1 Hloop)
    by (intros a s s' _; apply query_attempt_no_break).
  cbn [for_each]. unfold bind at 1.
  unfold query_attempt at 1, time_sleep. unfold_monad.
  rewrite (range_snoc (k + 1)), List.filter_app, map_app, app_assoc by lia.
  replace (k + 1 - 1) with k by lia. rewrite <-Hs. cbn [List.filter].
  destruct (0 <? k); simpl; rewrite Hw, Hm, Hreply; simpl;
    eexists; (split; [reflexivity|]); simpl;
    rewrite <-!List.app_assoc; repeat split; try done;
    rewrite !sleeps_app; simpl; by rewrite ?app_nil_r.
Qed.

(** X3. With a budget of no attempt ([max_retries] zero or negative) the
    model is never called: the result is [None] and the user message stays
    in the conversation. *)
Theorem query_llm_without_attempts message max_retries (st : State W) :
  max_retries ≤ 0 →
  query_llm env message max_retries st
  = (Ok None,
     mkState (st_messages st ++ [mkMessage "user" message]) (st_project st)
             (st_agents st) (st_world st) (st_trace st)).
Proof.
  intros Hn. unfold query_llm, range.
  replace (Z.to_nat max_retries) with 0%nat by lia. reflexivity.
Qed.

End QueryReplies.

Lemma query_llm_reply_after_failures_witness :
  ∃ st', query_llm Sim.env "What next?" 3 recovering_state
         = (Ok (Some "Here is the plan."), st')
         ∧ st_messages st'
           = st_messages recovering_state
             ++ [mkMessage "user" "What next?";
                 mkMessage "assistant" "Here is the plan."]
         ∧ sleeps (st_trace st') = [2].
Proof.
  edestruct (query_llm_reply_after_failures Sim.env "What next?" 3 1
               recovering_state)
    as (st' & Hrun & Hm & _ & _ & _ & Hs); [lia|reflexivity|reflexivity|].
  exists st'. split; [exact Hrun|]. split; [exact Hm|exact Hs].
Defined.

Lemma query_llm_without_attempts_witness :
  fst (query_llm Sim.env "What next?" 0 recovering_state) = Ok None.
Proof.
  rewrite (query_llm_without_attempts Sim.env "What next?" 0 recovering_state);
    [reflexivity|lia].
Defined.

(** X2. When the call to the model raises at every attempt of a query
    and the error of the last call reads neither as a rate limit nor as a
    time-out, the result is the failure text, which names the budget and
    the last error, the pending user message is removed and the
    conversation is the one before the call; the attempts after the first
    have slept 2, 4, ... seconds.  An attempt that fails after its reply
    has been appended, on a reply without text, is not among these. *)
Theorem query_llm_exhausted_gives_failure_text
    {W} (env : World W) message max_retries (st : State W) errors w' e :
  failed_attempts env (range max_retries)
    (st_messages st ++ [mkMessage "user" message]) (st_world st)
    = Some (errors, w') →
  last errors = Some e →
  is_rate_limit_or_timeout e = false →
  ∃ st', query_llm env message max_retries st
         = (Ok (Some ("LLM query failed after " +:+ str_of_int max_retries
                      +:+ " attempts. Last error: " +:+ exc_str e)), st')
         ∧ st_messages st' = st_messages st
         ∧ sleeps (st_trace st')
           = sleeps (st_trace st)
             ++ map (Z.pow 2) (List.filter (Z.ltb 0) (range max_retries)).
Proof.
  intros Hfail Hlast Hkind.
  destruct (query_llm_final_error_reported env _ _ _ _ _ _ Hfail Hlast Hkind)
    as (st' & Hrun & _ & Hm & Hs).
  exists st'. split; [exact Hrun|]. by split.
Qed.

Lemma query_llm_exhausted_gives_failure_text_witness :
  ∃ st', query_llm Sim.env "What next?" 3 refused_state
         = (Ok (Some "LLM query failed after 3 attempts. Last error: Connection refused"),
            st')
         ∧ st_messages st' = st_messages refused_state
         ∧ sleeps (st_trace st') = [2; 4].
Proof.
  edestruct (query_llm_exhausted_gives_failure_text Sim.env "What next?" 3
               refused_state)
    as (st' & Hrun & Hm & Hs); [reflexivity..|].
  exists st'. split; [exact Hrun|]. split; [exact Hm|exact Hs].
Defined.

(** ** Replies without a block, plain blocks, groups without redirection *)

Section Blocks.

Implicit Types (s t p : string).

Lemma contains_tail p c s : contains p (String c s) = false → contains p s = false.
Proof. simpl. by intros [_ ?]%orb_false_iff. Qed.

Lemma contains_head p s : contains p s = false → startswith p s = false.
Proof. destruct s; simpl; by intros [? _]%orb_false_iff. Qed.

Lemma contains_drop p n s : contains p s = false → contains p (drop n s) = false.
Proof.
  revert s. induction n as [|n IH]; intros [|c s] Hs; try done.
  simpl. apply IH. by eapply contains_tail.
Qed.

Lemma find_sub_none p s : contains p s = false → find_sub p s = None.
Proof.
  induction s as [|c s IH]; intros Hs.
  - apply contains_head in Hs. simpl. by rewrite Hs.
  - pose proof (contains_head _ _ Hs) as Hh. apply contains_tail in Hs.
    cbn [find_sub]. by rewrite Hh, IH.
Qed.

Lemma finditer_fuel_none {A} (m : string → option (A * string)) (ok : string → Prop) :
  (∀ c s, ok (String c s) → ok s) →
  (∀ s, ok s → m s = None) →
  ∀ fuel s, ok s → Re.finditer_fuel fuel m s = [].
Proof.
  intros Htail Hnone. induction fuel as [|fuel IH]; intros s Hs; [done|].
  simpl. destruct s as [|c s]; [done|].
  rewrite (Hnone _ Hs). apply IH. by eapply Htail.
Qed.

(** X4. A reply in which the opening fence of a bash block (three
    backquotes, [bash], a line feed) does not occur, or in which no line
    starts with three backquotes to close one, gives no command at all. *)
Theorem no_complete_fence_no_commands (text : string) :
  contains (Re.fence +:+ "bash" +:+ nl) text = false
  ∨ contains (nl +:+ Re.fence) text = false →
  extract_bash_commands text = [].
Proof.
  intros Hfence. rewrite extract_bash_commands_blocks.
  assert (bash_blocks text = []) as ->; [|done].
  unfold bash_blocks, Re.finditer. destruct Hfence as [Hopen|Hclose].
  - apply (finditer_fuel_none _ (λ s, contains (Re.fence +:+ "bash" +:+ nl) s = false));
      [apply contains_tail| |done].
    intros s Hs. unfold Re.bash_block_here, Re.lit.
    by rewrite (contains_head _ _ Hs).
  - apply (finditer_fuel_none _ (λ s, contains (nl +:+ Re.fence) s = false));
      [apply contains_tail| |done].
    intros s Hs. unfold Re.bash_block_here, Re.lit.
    destruct (startswith _ s); [|done]. cbn [mbind option_bind].
    apply find_sub_none. by apply contains_drop.
Qed.

Lemma regular_loop_plain (lines : list string) (commands : list string) :
  forallb no_continuation lines = true →
  fold_left regular_line lines (commands, [])
  = (commands ++ List.filter is_trailing_command (map strip lines), []).
Proof.
  revert commands. induction lines as [|line lines IH]; intros commands Hplain.
  - simpl. by rewrite app_nil_r.
  - cbn [forallb] in Hplain. apply andb_true_iff in Hplain as [Hline Hplain].
    unfold no_continuation in Hline. apply negb_true_iff in Hline.
    cbn [fold_left map List.filter]. unfold regular_line at 2.
    unfold is_trailing_command. rewrite Hline.
    destruct (nonempty (strip line) && negb (startswith "#" (strip line))) eqn:Hkeep;
      cbn [andb]; [|by apply IH].
    destruct (looks_like_output (strip line)); cbn [negb andb]; [by apply IH|].
    cbn [app join].
    destruct (startswith "CREATE_SWE_AGENT" (strip line)); cbn [negb];
      rewrite IH by done; [done|].
    by rewrite <-List.app_assoc.
Qed.

(** X6. A block that is not a group and in which no line ends with a
    backslash gives one command per line, stripped, for the lines that
    are not blank, do not start with [#], do not look like output and do
    not start with [CREATE_SWE_AGENT]: the lines pass the same filter as
    the lines after a group.  A line that holds [CREATE_SWE_AGENT] further
    on is kept. *)
Theorem plain_block_commands (block : string) :
  startswith "(" (strip block) = false →
  forallb no_continuation (split nl (strip block)) = true →
  block_commands block
  = List.filter is_trailing_command (map strip (split nl (strip block))).
Proof.
  intros Hgroup Hplain. unfold block_commands. rewrite Hgroup. cbn [andb].
  unfold regular_commands. by rewrite regular_loop_plain.
Qed.

Lemma span_concat q s : s = (span q s).1 +:+ (span q s).2.
Proof.
  induction s as [|c s IH]; [done|]. simpl. destruct (q c); [|done].
  destruct (span q s) as [a b]. simpl in *. by rewrite <-IH.
Qed.

Lemma contains_gt_span s :
  nonempty (span Re.is_gt s).1 = true → contains ">" s = true.
Proof.
  destruct s as [|c s]; [done|]. cbn [span contains startswith].
  unfold Re.is_gt at 1. rewrite (Ascii.eqb_sym ">" c).
  destruct (Ascii.eqb c ">"); [done|]. done.
Qed.

Lemma contains_right p s t : contains p t = true → contains p (s +:+ t) = true.
Proof. apply contains_append. Qed.

Lemma redirect_here_has_gt s a b :
  Re.redirect_here s = Some (a, b) → contains ">" s = true.
Proof.
  unfold Re.redirect_here, Re.lit.
  destruct (startswith ")" s) eqn:Hs; [|done]. cbn [mbind option_bind].
  destruct s as [|c s]; [done|]. cbn [String.length drop].
  pose proof (span_concat py_isspace s) as Hsp.
  destruct (span py_isspace s) as [sp1 r1]. cbn [fst snd] in Hsp.
  pose proof (contains_gt_span r1) as Hgt.
  destruct (span Re.is_gt r1) as [gts r2]. cbn [fst] in Hgt.
  destruct (span py_isspace r2) as [sp2 r3].
  destruct (span (λ c, negb (py_isspace c)) r3) as [tgt r4].
  destruct (nonempty gts); [|done]. intros _.
  rewrite Hsp. apply (contains_append ">" (String c sp1)). by apply Hgt.
Qed.

Lemma search_end_has_gt s a b :
  Re.search_end Re.redirect_here s = Some (a, b) → contains ">" s = true.
Proof.
  revert a b. induction s as [|c s IH]; intros a b; cbn [Re.search_end].
  - destruct (Re.redirect_here "") as [[a' b']|] eqn:Hhere; [|done].
    intros _. by eapply redirect_here_has_gt.
  - destruct (Re.redirect_here (String c s)) as [[a' b']|] eqn:Hhere.
    + intros _. by eapply redirect_here_has_gt.
    + destruct (Re.search_end Re.redirect_here s) as [[a' b']|] eqn:Hrest; [|done].
      intros _. apply (contains_append ">" (String c "")). by eapply IH.
Qed.

Lemma fallback_loop_filter (lines : list string) (init : list string) :
  fold_left
    (λ commands line,
       let line := strip line in
       if nonempty line && negb (startswith "#" line)
          && negb (String.eqb line "(" || String.eqb line ")")
       then commands ++ [line] else commands)
    lines init
  = init ++ List.filter is_fallback_command (map strip lines).
Proof.
  revert init. induction lines as [|x lines IH]; intros init.
  - simpl. by rewrite app_nil_r.
  - cbn [fold_left map List.filter]. rewrite IH. unfold is_fallback_command.
    destruct (nonempty (strip x) && negb (startswith "#" (strip x))
              && negb (String.eqb (strip x) "(" || String.eqb (strip x) ")"));
      rewrite <-?List.app_assoc; done.
Qed.

(** X7. A block whose trimmed text starts with an opening parenthesis and
    holds a closing one but no [>] at all is a group without redirection:
    it is split into lines, and every line that is not blank, not a
    comment and not a lone parenthesis is a command.  Output-looking lines
    and spawn directives are not removed on this path. *)
Theorem group_without_redirection_commands (block : string) :
  startswith "(" (strip block) = true →
  contains ")" (strip block) = true →
  contains ">" (strip block) = false →
  block_commands block
  = List.filter is_fallback_command (map strip (split nl (strip block))).
Proof.
  intros Hopen Hclose Hgt. unfold block_commands. rewrite Hopen, Hclose. cbn [andb].
  destruct (Re.search_end Re.redirect_here (strip block)) as [[a b]|] eqn:Hsearch.
  - apply search_end_has_gt in Hsearch. congruence.
  - unfold malformed_group_commands. by rewrite fallback_loop_filter.
Qed.

End Blocks.

Lemma no_complete_fence_no_commands_witness :
  extract_bash_commands
    ("Run this:" +:+ nl +:+ "```sh" +:+ nl +:+ "rm -rf build" +:+ nl +:+ "```")
  = [].
Proof.
  apply no_complete_fence_no_commands. left. reflexivity.
Defined.

Lemma plain_block_commands_witness :
  block_commands
    (join nl ["  git status"; "# look"; ""; "Already up to date."; "ls -la  "])
  = ["git status"; "ls -la"].
Proof.
  rewrite plain_block_commands; reflexivity.
Defined.

Lemma group_without_redirection_commands_witness :
  block_commands
    (join nl ["("; "echo one"; "Output: kept"; "CREATE_SWE_AGENT(x)"; ")"])
  = ["echo one"; "Output: kept"; "CREATE_SWE_AGENT(x)"].
Proof.
  rewrite group_without_redirection_commands; reflexivity.
Defined.

(** ** Comment lines are never commands *)

Section Comments.

Implicit Types (s t : string).

Lemma not_comment_append s t :
  nonempty s = true → not_comment s → not_comment (s +:+ t).
Proof. destruct s; [done|]. unfold not_comment. simpl. done. Qed.

Lemma not_comment_join h rest : not_comment h → not_comment (join " " (h :: rest)).
Proof.
  intros Hh. destruct rest as [|x rest]; [done|].
  cbn [join]. destruct h as [|c h]; [done|]. by apply not_comment_append.
Qed.

Lemma not_comment_drop_last s : not_comment s → not_comment (drop_last s).
Proof. destruct s as [|c [|d s]]; done. Qed.

Lemma filter_not_comment (keep : string → bool) (lines : list string) :
  (∀ l, keep l = true → not_comment l) →
  Forall not_comment (List.filter keep lines).
Proof.
  intros Hkeep. apply Forall_forall. intros l Hl%list_elem_of_In.
  apply filter_In in Hl as [_ Hl]. by apply Hkeep.
Qed.

Lemma is_trailing_not_comment l : is_trailing_command l = true → not_comment l.
Proof.
  unfold is_trailing_command, not_comment. rewrite !andb_true_iff.
  intros [[[_ H] _] _]. by apply negb_true_iff.
Qed.

Lemma is_fallback_not_comment l : is_fallback_command l = true → not_comment l.
Proof.
  unfold is_fallback_command, not_comment. rewrite !andb_true_iff.
  intros [[_ H] _]. by apply negb_true_iff.
Qed.

Lemma regular_line_inv acc line : regular_inv acc → regular_inv (regular_line acc line).
Proof.
  destruct acc as [commands current]. intros [Hc Hcur]. cbn [fst snd] in *.
  unfold regular_line.
  destruct (nonempty (strip line) && negb (startswith "#" (strip line))) eqn:Hkeep;
    [|by split].
  apply andb_true_iff in Hkeep as [_ Hkeep]. apply negb_true_iff in Hkeep.
  destruct (looks_like_output (strip line)); [by split|].
  assert (∀ x, not_comment x →
            match current ++ [x] with [] => True | h :: _ => not_comment h end)
    as Hhead by (intros x Hx; by destruct current).
  destruct (endswith_char "092" (strip line)).
  - split; [done|]. cbn [snd]. by apply Hhead, not_comment_drop_last.
  - assert (not_comment (join " " (current ++ [strip line]))) as Hjoin.
    { specialize (Hhead (strip line) Hkeep).
      destruct (current ++ [strip line]) as [|h rest]; [done|].
      by apply not_comment_join. }
    destruct (negb (startswith "CREATE_SWE_AGENT" _)); split; try done.
    cbn [fst]. apply Forall_app. split; [done|]. by constructor.
Qed.

Lemma regular_loop_inv lines acc :
  regular_inv acc → regular_inv (fold_left regular_line lines acc).
Proof.
  revert acc. induction lines as [|l lines IH]; intros acc Hacc; [done|].
  simpl. by apply IH, regular_line_inv.
Qed.

Lemma search_end_head s a b :
  Re.search_end Re.redirect_here s = Some (a, b) →
  startswith ")" a = true
  ∨ ∃ c s' a', s = String c s' ∧ a = String c a'.
Proof.
  destruct s as [|c s]; cbn [Re.search_end].
  - destruct (Re.redirect_here "") as [[a' b']|] eqn:Hhere; [|done].
    unfold Re.redirect_here, Re.lit in Hhere. done.
  - destruct (Re.redirect_here (String c s)) as [[a' b']|] eqn:Hhere.
    + intros [= <- <-]. left.
      unfold Re.redirect_here, Re.lit in Hhere.
      destruct (startswith ")" (String c s)); [|done].
      cbn [mbind option_bind] in Hhere.
      destruct (span py_isspace _) as [sp1 r1].
      destruct (span Re.is_gt r1) as [gts r2].
      destruct (span py_isspace r2) as [sp2 r3].
      destruct (span _ r3) as [tgt r4].
      destruct (nonempty gts); [|done].
      destruct (nonempty tgt); [by simplify_eq|].
      destruct (2 <=? String.length gts)%nat; by simplify_eq.
    + destruct (Re.search_end Re.redirect_here s) as [[a' b']|]; [|done].
      intros [= <- <-]. right. eauto.
Qed.

Lemma block_commands_not_comment block : Forall not_comment (block_commands block).
Proof.
  unfold block_commands.
  destruct (startswith "(" (strip block) && contains ")" (strip block)) eqn:Hgroup.
  - apply andb_true_iff in Hgroup as [Hopen _].
    destruct (Re.search_end Re.redirect_here (strip block)) as [[g rest]|] eqn:Hsearch.
    + constructor.
      * apply search_end_head in Hsearch as [Hg|(c & s' & a' & Hs & ->)].
        -- destruct g as [|c g]; [done|]. unfold not_comment. simpl in *.
           destruct (Ascii.eqb_spec ")" c) as [<-|]; done.
        -- rewrite Hs in Hopen. unfold not_comment. simpl in *.
           destruct (Ascii.eqb_spec "(" c) as [<-|]; done.
      * rewrite trailing_commands_filter.
        apply filter_not_comment, is_trailing_not_comment.
    + unfold malformed_group_commands. rewrite fallback_loop_filter.
      apply filter_not_comment, is_fallback_not_comment.
  - unfold regular_commands.
    pose proof (regular_loop_inv (split nl (strip block)) ([], [])) as Hinv.
    destruct (fold_left regular_line _ _) as [commands current].
    destruct Hinv as [Hc Hcur]; [by split|]. cbn [fst snd] in *.
    destruct current as [|h rest]; [done|].
    apply Forall_app. split; [done|]. constructor; [|done].
    by apply not_comment_join.
Qed.

(** X5. No command extracted from a reply starts with [#]: a comment line
    of a bash block is never run, on any of the three paths of the
    extraction, and a command continued over several lines does not start
    as a comment either. *)
Theorem comments_are_never_commands (text : string) :
  Forall (λ command, startswith "#" command = false) (extract_bash_commands text).
Proof.
  rewrite extract_bash_commands_blocks. apply Forall_forall.
  intros command Hc%list_elem_of_In. apply in_flat_map in Hc as (block & _ & Hc).
  pose proof (block_commands_not_comment block) as Hblock.
  rewrite Forall_forall in Hblock. by apply Hblock, list_elem_of_In.
Qed.

End Comments.

(** ** Directives written in the expected form are read back *)

Section RoundTrips.

Implicit Types (s t v : string).

Lemma lit_append p s : Re.lit p (p +:+ s) = Some s.
Proof. unfold Re.lit. by rewrite startswith_append, drop_append. Qed.

Lemma lit_append2 p q s : Re.lit (p +:+ q) (p +:+ q +:+ s) = Some s.
Proof. rewrite <-append_assoc. apply lit_append. Qed.

Lemma ws_stop s : stops py_isspace s = true → Re.ws s = s.
Proof.
  unfold Re.ws. destruct s as [|c s]; [done|]. simpl.
  by intros ->%negb_true_iff.
Qed.

Lemma quoted_field v rest :
  quotable v = true → Re.quoted (v +:+ dq +:+ rest) = Some (v, rest).
Proof.
  unfold quotable. intros [Hne Hv]%andb_true_iff. unfold Re.quoted.
  rewrite (span_append Re.not_dq v (dq +:+ rest)) by done.
  rewrite Hne. by rewrite lit_append.
Qed.

Lemma create_swe_agent_here_directive tid descr branch post :
  quotable tid = true → quotable descr = true → quotable branch = true →
  Re.create_swe_agent_here (spawn_directive tid descr branch +:+ post)
  = Some ((tid, descr, branch), post).
Proof.
  intros Htid Hdescr Hbranch. unfold spawn_directive.
  change ("CREATE_SWE_AGENT(task_id=" +:+ dq +:+ tid +:+ dq +:+ ", description="
          +:+ dq +:+ descr +:+ dq +:+ ", branch=" +:+ dq +:+ branch +:+ dq +:+ ")")
    with ("CREATE_SWE_AGENT" +:+ "(" +:+ ("task_id=" +:+ dq) +:+ tid +:+ dq
          +:+ "," +:+ " " +:+ ("description=" +:+ dq) +:+ descr +:+ dq
          +:+ "," +:+ " " +:+ ("branch=" +:+ dq) +:+ branch +:+ dq +:+ ")").
  rewrite !append_assoc.
  unfold Re.create_swe_agent_here.
  rewrite lit_append. cbn [mbind option_bind].
  rewrite (ws_stop ("(" +:+ _)) by done. rewrite lit_append. cbn [mbind option_bind].
  rewrite (ws_stop ("task_id=" +:+ _)) by done.
  rewrite lit_append2. cbn [mbind option_bind].
  rewrite quoted_field by done. cbn [mbind option_bind].
  rewrite (ws_stop ("," +:+ _)) by done. rewrite lit_append. cbn [mbind option_bind].
  change (Re.ws (" " +:+ ?x)) with (Re.ws x).
  rewrite (ws_stop ("description=" +:+ _)) by done.
  rewrite lit_append2. cbn [mbind option_bind].
  rewrite quoted_field by done. cbn [mbind option_bind].
  rewrite (ws_stop ("," +:+ _)) by done. rewrite lit_append. cbn [mbind option_bind].
  change (Re.ws (" " +:+ ?x)) with (Re.ws x).
  rewrite (ws_stop ("branch=" +:+ _)) by done.
  rewrite lit_append2. cbn [mbind option_bind].
  rewrite quoted_field by done. cbn [mbind option_bind].
  rewrite (ws_stop (")" +:+ _)) by done. rewrite lit_append. done.
Qed.

(** X8. A spawn directive written as
    [CREATE_SWE_AGENT(task_id=Q..Q, description=Q..Q, branch=Q..Q)], Q
    the double quote, with three values that are not empty and hold no
    double quote, is read back as exactly these values, and the
    extraction goes on in the text after the directive: directives written
    one after the other are found in their order. *)
Theorem spawn_directive_round_trip tid descr branch post :
  quotable tid = true → quotable descr = true → quotable branch = true →
  extract_tool_calls (spawn_directive tid descr branch +:+ post)
  = mkToolCall "create_swe_agent" tid descr branch :: extract_tool_calls post.
Proof.
  intros Htid Hdescr Hbranch. unfold extract_tool_calls.
  rewrite (finditer_hit _ _ _ _ create_swe_agent_here_consumes
             (create_swe_agent_here_directive tid descr branch post
                Htid Hdescr Hbranch)).
  reflexivity.
Qed.

Lemma read_file_here_request path post :
  quotable path = true →
  Re.read_file_here (read_request path +:+ post) = Some (path, post).
Proof.
  intros Hpath. unfold read_request.
  change ("READ_FILE(path=" +:+ dq +:+ path +:+ dq +:+ ")")
    with ("READ_FILE" +:+ "(" +:+ ("path=" +:+ dq) +:+ path +:+ dq +:+ ")").
  rewrite !append_assoc. unfold Re.read_file_here.
  rewrite lit_append. cbn [mbind option_bind].
  rewrite (ws_stop ("(" +:+ _)) by done. rewrite lit_append. cbn [mbind option_bind].
  rewrite (ws_stop ("path=" +:+ _)) by done.
  rewrite lit_append2. cbn [mbind option_bind].
  rewrite quoted_field by done. cbn [mbind option_bind].
  rewrite (ws_stop (")" +:+ _)) by done. rewrite lit_append. done.
Qed.

(** X9. A read request written as [READ_FILE(path=Q..Q)] with a path that
    is not empty and holds no double quote is read back as that path,
    unchanged, and the extraction goes on after it. *)
Theorem read_request_round_trip path post :
  quotable path = true →
  extract_read_file_calls (read_request path +:+ post)
  = path :: extract_read_file_calls post.
Proof.
  intros Hpath. unfold extract_read_file_calls.
  by rewrite (finditer_hit _ _ _ _ read_file_here_consumes
               (read_file_here_request path post Hpath)).
Qed.

Lemma find_sub_fresh c p a x :
  all_chars (λ d, negb (Ascii.eqb d c)) a = true →
  find_sub (String c p) (a +:+ String c p +:+ x) = Some (a, x).
Proof.
  intros Ha. induction a as [|d a IH].
  - cbn [String.append find_sub startswith]. rewrite Ascii.eqb_refl.
    rewrite startswith_append. cbn [String.length drop].
    by rewrite drop_append.
  - cbn [all_chars] in Ha. apply andb_true_iff in Ha as [Hd Ha].
    apply negb_true_iff in Hd. specialize (IH Ha).
    cbn [String.append find_sub startswith] in IH |- *.
    rewrite Ascii.eqb_sym, Hd. cbn [andb]. by rewrite IH.
Qed.

Lemma span_append_stop q a b :
  stops q b = true → span q (a +:+ b) = ((span q a).1, (span q a).2 +:+ b).
Proof.
  intros Hb. induction a as [|c a IH].
  - simpl. destruct b as [|d b]; [done|]. simpl in *.
    by apply negb_true_iff in Hb as ->.
  - simpl. destruct (q c); [|done]. rewrite IH. by destruct (span q a).
Qed.

Lemma file_tag_head path rest :
  quotable path = true →
  (r ← Re.lit "<file" ("<file path=" +:+ dq +:+ path +:+ dq +:+ ">" +:+ Re.fence +:+ rest);
   r ← Re.ws1 r;
   r ← Re.lit ("path=" +:+ dq) r;
   '(p, r) ← Re.quoted r;
   r ← Re.lit (">" +:+ Re.fence) (Re.ws r);
   Some (p, r))
  = Some (path, rest).
Proof.
  intros Hpath.
  change ("<file path=" +:+ dq +:+ path +:+ dq +:+ ">" +:+ Re.fence +:+ rest)
    with ("<file" +:+ " " +:+ "path=" +:+ dq +:+ path +:+ dq +:+ ">" +:+ Re.fence
          +:+ rest).
  rewrite lit_append. cbn [mbind option_bind].
  change (Re.ws1 (" " +:+ ?x)) with (Some (Re.ws x)). cbn [mbind option_bind].
  rewrite (ws_stop ("path=" +:+ _)) by done.
  rewrite lit_append2. cbn [mbind option_bind].
  rewrite quoted_field by done. cbn [mbind option_bind].
  rewrite (ws_stop (">" +:+ _)) by done. rewrite lit_append2. done.
Qed.

Lemma file_tag_here_with_word path word body post :
  quotable path = true →
  nonempty word = true → all_chars py_isword word = true →
  no_backquote body = true →
  Re.file_tag_here (file_tag path word body +:+ post)
  = Some ((path, word, body), post).
Proof.
  intros Hpath Hne Hword Hbody. unfold file_tag. rewrite !append_assoc.
  pose proof (file_tag_head path
                (word +:+ nl +:+ body +:+ Re.fence +:+ "</file>" +:+ post) Hpath)
    as Hhead.
  unfold Re.file_tag_here.
  destruct (Re.lit "<file" _) as [r1|]; [|done]. cbn [mbind option_bind] in *.
  destruct (Re.ws1 r1) as [r2|]; [|done]. cbn [mbind option_bind] in *.
  destruct (Re.lit _ r2) as [r3|]; [|done]. cbn [mbind option_bind] in *.
  destruct (Re.quoted r3) as [[p r4]|]; [|done]. cbn [mbind option_bind] in *.
  destruct (Re.lit _ (Re.ws r4)) as [r5|]; [|done]. cbn [mbind option_bind] in *.
  simplify_eq.
  rewrite (span_append py_isword word) by done.
  rewrite Hne. cbn [andb].
  change (startswith nl (nl +:+ ?x)) with true. cbv iota.
  change (drop 1 (nl +:+ ?x)) with x.
  change (Re.fence +:+ "</file>")
    with (String "`" ("``" +:+ "</file>")).
  change (body +:+ Re.fence +:+ "</file>" +:+ post)
    with (body +:+ String "`" ("``" +:+ "</file>") +:+ post).
  rewrite find_sub_fresh by done. done.
Qed.

(** X10. A file tag in which the fence is followed by a line of one word
    and then by the content is read as the path, that word as the language
    hint, and the content, trimmed.  The pattern cannot tell a hint from a
    first line: a content of several lines whose first line is a single
    word loses that line.  The path is not empty and holds no double
    quote, the content holds no backquote. *)
Theorem file_tag_first_word_is_language path word body post :
  quotable path = true →
  nonempty word = true → all_chars py_isword word = true →
  no_backquote body = true →
  extract_file_creations (file_tag path word body +:+ post)
  = mkFileCreation path word (strip body) :: extract_file_creations post.
Proof.
  intros Hpath Hne Hword Hbody. unfold extract_file_creations.
  by rewrite (finditer_hit _ _ _ _ file_tag_here_consumes
               (file_tag_here_with_word path word body post
                  Hpath Hne Hword Hbody)).
Qed.

Lemma file_tag_here_bare path body post :
  quotable path = true →
  starts_with_word_line body = false →
  no_backquote body = true →
  Re.file_tag_here (bare_file_tag path body +:+ post)
  = Some ((path, "", body), post).
Proof.
  intros Hpath Hline Hbody. unfold bare_file_tag. rewrite !append_assoc.
  pose proof (file_tag_head path (body +:+ Re.fence +:+ "</file>" +:+ post) Hpath)
    as Hhead.
  unfold Re.file_tag_here.
  destruct (Re.lit "<file" _) as [r1|]; [|done]. cbn [mbind option_bind] in *.
  destruct (Re.ws1 r1) as [r2|]; [|done]. cbn [mbind option_bind] in *.
  destruct (Re.lit _ r2) as [r3|]; [|done]. cbn [mbind option_bind] in *.
  destruct (Re.quoted r3) as [[p r4]|]; [|done]. cbn [mbind option_bind] in *.
  destruct (Re.lit _ (Re.ws r4)) as [r5|]; [|done]. cbn [mbind option_bind] in *.
  simplify_eq.
  rewrite (span_append_stop py_isword body) by done.
  unfold starts_with_word_line in Hline.
  destruct (span py_isword body) as [lang r6]. cbn [fst snd] in *.
  assert (nonempty lang
          && startswith nl (r6 +:+ Re.fence +:+ "</file>" +:+ post) = false) as ->.
  { destruct (nonempty lang); [|done]. cbn [andb] in *.
    destruct r6; [done|exact Hline]. }
  change (Re.fence +:+ "</file>")
    with (String "`" ("``" +:+ "</file>")).
  change (body +:+ Re.fence +:+ "</file>" +:+ post)
    with (body +:+ String "`" ("``" +:+ "</file>") +:+ post).
  rewrite find_sub_fresh by done. done.
Qed.

(** X11. A file tag without a language hint, whose content does not start
    with a line of one word, is read as the path, an empty hint and the
    content, trimmed; the extraction goes on after the tag. *)
Theorem bare_file_tag_round_trip path body post :
  quotable path = true →
  starts_with_word_line body = false →
  no_backquote body = true →
  extract_file_creations (bare_file_tag path body +:+ post)
  = mkFileCreation path "" (strip body) :: extract_file_creations post.
Proof.
  intros Hpath Hline Hbody. unfold extract_file_creations.
  by rewrite (finditer_hit _ _ _ _ file_tag_here_consumes
               (file_tag_here_bare path body post Hpath Hline Hbody)).
Qed.

End RoundTrips.

Lemma file_tag_first_word_is_language_witness :
  extract_file_creations
    (file_tag "notes.txt" "Shopping" ("milk" +:+ nl +:+ "bread" +:+ nl))
  = [mkFileCreation "notes.txt" "Shopping" ("milk" +:+ nl +:+ "bread")].
Proof.
  rewrite <-(append_empty_r (file_tag _ _ _)).
  rewrite file_tag_first_word_is_language by reflexivity. reflexivity.
Defined.

Lemma bare_file_tag_round_trip_witness :
  extract_file_creations (bare_file_tag "README.md" "Hello")
  = [mkFileCreation "README.md" "" "Hello"].
Proof.
  rewrite <-(append_empty_r (bare_file_tag _ _)).
  rewrite bare_file_tag_round_trip by reflexivity. reflexivity.
Defined.

Lemma spawn_directive_round_trip_witness :
  extract_tool_calls
    (spawn_directive "phase2_api" "Build the API" "feature/api" +:+ nl
     +:+ spawn_directive "phase2_ui" "Build the pages" "feature/ui")
  = [ mkToolCall "create_swe_agent" "phase2_api" "Build the API" "feature/api";
      mkToolCall "create_swe_agent" "phase2_ui" "Build the pages" "feature/ui" ].
Proof.
  rewrite spawn_directive_round_trip by reflexivity. reflexivity.
Defined.

Lemma read_request_round_trip_witness :
  extract_read_file_calls (read_request "src/app.py" +:+ " please")
  = ["src/app.py"].
Proof.
  rewrite read_request_round_trip by reflexivity. reflexivity.
Defined.

(** ** The plan: phases of the directives *)

Section Planner.

Lemma all_chars_impl (p q : ascii → bool) s :
  (∀ c, p c = true → q c = true) → all_chars p s = true → all_chars q s = true.
Proof.
  intros Hpq. induction s as [|c s IH]; simpl; [done|].
  intros [Hc Hs]%andb_true_iff. by rewrite (Hpq _ Hc), IH.
Qed.

Lemma digit_is_not c d :
  is_digit c = false → is_digit d = true → negb (Ascii.eqb d c) = true.
Proof.
  intros Hc Hd. apply negb_true_iff, Ascii.eqb_neq. intros ->. congruence.
Qed.

Lemma digits_without c ds :
  is_digit c = false → all_chars is_digit ds = true →
  all_chars (λ d, negb (Ascii.eqb d c)) ds = true.
Proof. intros Hc. apply all_chars_impl. intros d. by apply digit_is_not. Qed.

Lemma split_go_skip sep a s cur :
  split_go sep (a +:+ s) (String.length a) cur = split_go sep s 0 cur.
Proof.
  induction a as [|c a IH]; [done|].
  cbn [String.append String.length]. destruct s; simpl; apply IH || done.
Qed.

(** A text without the first character of the separator goes to the
    field being read. *)
Lemma split_go_fresh c p ds r cur :
  all_chars (λ d, negb (Ascii.eqb d c)) ds = true →
  split_go (String c p) (ds +:+ r) 0 cur = split_go (String c p) r 0 (cur +:+ ds).
Proof.
  revert cur. induction ds as [|d ds IH]; intros cur Hds.
  - by rewrite append_empty_r.
  - cbn [all_chars] in Hds. apply andb_true_iff in Hds as [Hd Hds].
    apply negb_true_iff in Hd.
    cbn [String.append split_go startswith]. rewrite Ascii.eqb_sym, Hd.
    rewrite IH by done. rewrite append_assoc. done.
Qed.

(** The first field of a split starts with the field being read. *)
Lemma split_go_head sep s k cur :
  ∃ u l, split_go sep s k cur = (cur +:+ u) :: l.
Proof.
  revert k cur. induction s as [|c s IH]; intros k cur.
  - exists "", []. by rewrite append_empty_r.
  - cbn [split_go]. destruct k as [|k]; [|apply IH].
    destruct (startswith sep (String c s)).
    + exists "", (split_go sep s (String.length sep - 1) "").
      by rewrite append_empty_r.
    + destruct (IH 0%nat (cur +:+ String c "")) as (u & l & ->).
      exists (String c u), l. by rewrite append_assoc.
Qed.

Lemma split_after_separator c p x :
  split (String c p) (String c p +:+ x) = "" :: split (String c p) x.
Proof.
  unfold split. cbn [String.append split_go].
  change (String c (p +:+ x)) with (String c p +:+ x) at 1.
  rewrite startswith_append. cbn [String.length Nat.sub]. rewrite Nat.sub_0_r.
  by rewrite split_go_skip.
Qed.

Lemma rstrip_where_keeps p s :
  all_chars (λ c, negb (p c)) s = true → rstrip_where p s = s.
Proof.
  induction s as [|c s IH]; [done|]. cbn [all_chars rstrip_where].
  intros [Hc Hs]%andb_true_iff. apply negb_true_iff in Hc.
  rewrite IH by done. rewrite Hc. by destruct s.
Qed.

Lemma digit_not_int_space d : is_digit d = true → negb (int_isspace d) = true.
Proof.
  destruct d as [[] [] [] [] [] [] [] []]; vm_compute; congruence.
Qed.

Lemma py_int_digits ds :
  nonempty ds = true → all_chars is_digit ds = true →
  (String.length ds ≤ 4300)%nat →
  py_int ds = Some (digits_value 0 ds).
Proof.
  intros Hne Hds Hlen. apply Nat.leb_le in Hlen. unfold py_int.
  assert (drop_while int_isspace ds = ds) as ->.
  { destruct ds as [|d ds']; [done|]. cbn [all_chars] in Hds.
    apply andb_true_iff in Hds as [Hd _].
    apply digit_not_int_space, negb_true_iff in Hd. cbn [drop_while].
    by rewrite Hd. }
  rewrite rstrip_where_keeps
    by (eapply all_chars_impl; [apply digit_not_int_space|done]).
  destruct ds as [|d ds']; [done|].
  assert (is_digit d = true) as Hd.
  { cbn [all_chars] in Hds. by apply andb_true_iff in Hds as [? _]. }
  assert ((let '(sign, body) :=
             match String d ds' with
             | String "+"%char r => (1, r)
             | String "-"%char r => (-1, r)
             | _ => (1, String d ds')
             end in
           if nonempty body && all_chars is_digit body
              && (String.length body <=? 4300)%nat
           then Some (sign * digits_value 0 body) else None)
          = (if nonempty (String d ds') && all_chars is_digit (String d ds')
                && (String.length (String d ds') <=? 4300)%nat
             then Some (1 * digits_value 0 (String d ds')) else None)) as ->.
  { destruct d as [[] [] [] [] [] [] [] []]; try reflexivity;
      vm_compute in Hd; discriminate. }
  rewrite Hne, Hds, Hlen. cbn [andb]. by rewrite Z.mul_1_l.
Qed.

(** X12. A task id that starts with [phase], then one decimal digit or
    more, and then ends or goes on with an underscore, is put in the phase
    these digits denote.  The conversion of Python refuses numbers of more
    than 4300 digits; the statement stays below. *)
Theorem phase_number_read_from_task_id ds rest :
  nonempty ds = true → all_chars is_digit ds = true →
  (String.length ds ≤ 4300)%nat →
  rest = "" ∨ startswith "_" rest = true →
  phase_of_task_id ("phase" +:+ ds +:+ rest) = digits_value 0 ds.
Proof.
  intros Hne Hds Hlen Hrest. unfold phase_of_task_id.
  rewrite contains_here.
  change ("phase" +:+ ds +:+ rest) with (String "p" "hase" +:+ ds +:+ rest).
  rewrite split_after_separator. unfold split at 1.
  rewrite split_go_fresh by (by apply digits_without).
  cbn [String.append].
  assert (∃ u l, (u = "" ∨ startswith "_" u = true)
                 ∧ split_go "phase" rest 0 ds = (ds +:+ u) :: l)
    as (u & l & Hu & ->).
  { destruct Hrest as [->|Hrest].
    - exists "", []. split; [by left|]. by rewrite append_empty_r.
    - destruct rest as [|c rest]; [done|]. cbn [startswith] in Hrest.
      destruct (Ascii.eqb_spec "_" c) as [<-|]; [|done].
      cbn [split_go].
      change (startswith "phase" (String "_" rest)) with false. cbv iota.
      destruct (split_go_head "phase" rest 0%nat (ds +:+ "_")) as (u & l & ->).
      exists ("_" +:+ u), l. split; [by right|]. by rewrite append_assoc. }
  unfold split.
  rewrite (split_go_fresh "_" "") by (by apply digits_without). cbn [String.append].
  assert (∃ l', split_go "_" u 0 ds = ds :: l') as (l' & ->).
  { destruct Hu as [->|Hu]; [by exists []|].
    destruct u as [|c u]; [done|]. cbn [startswith] in Hu.
    destruct (Ascii.eqb_spec "_" c) as [<-|]; [|done].
    cbn [split_go startswith]. rewrite Ascii.eqb_refl. eauto. }
  by rewrite py_int_digits.
Qed.

(** The map under construction, after the directives [calls]. *)
Lemma group_fold_lookup calls (acc : gmap Z (list ToolCall)) k :
  fold_left
    (λ phases call,
       if String.eqb (tc_tool call) "create_swe_agent" then
         let phase_num := phase_of_task_id (tc_task_id call) in
         <[phase_num := default [] (phases !! phase_num) ++ [call]]> phases
       else phases)
    calls acc !! k
  = match calls_of_phase k calls with
    | [] => acc !! k
    | l => Some (default [] (acc !! k) ++ l)
    end.
Proof.
  revert acc. induction calls as [|call calls IH]; intros acc; [done|].
  cbn [fold_left]. rewrite IH. unfold calls_of_phase. cbn [List.filter].
  fold (calls_of_phase k calls). unfold is_spawn.
  destruct (String.eqb (tc_tool call) "create_swe_agent"); [|done].
  cbn [andb]. cbv zeta.
  destruct (Z.eqb_spec (phase_of_task_id (tc_task_id call)) k) as [->|Hk].
  - rewrite lookup_insert_eq. cbn [default].
    destruct (calls_of_phase k calls); [done|].
    unfold id. by rewrite <-List.app_assoc.
  - by rewrite lookup_insert_ne.
Qed.

(** X13. After the grouping, a phase number is a key exactly when some
    spawn directive of the plan reads as that phase, and its value is the
    list of these directives in the order of the plan: no directive is
    lost, duplicated or moved to another phase. *)
Theorem group_by_phase_lookup calls k :
  group_by_phase calls !! k
  = match calls_of_phase k calls with [] => None | l => Some l end.
Proof.
  unfold group_by_phase. rewrite group_fold_lookup. by rewrite lookup_empty.
Qed.

Lemma sorted_phases_elem (phases : gmap Z (list ToolCall)) k :
  k ∈ sorted_phases phases ↔ is_Some (phases !! k).
Proof.
  unfold sorted_phases. rewrite merge_sort_Permutation.
  rewrite list_elem_of_fmap. split.
  - intros ([k' l] & -> & Hin%elem_of_map_to_list). by exists l.
  - intros [l Hl]. exists (k, l). split; [done|]. by apply elem_of_map_to_list.
Qed.

Lemma sorted_phases_NoDup (phases : gmap Z (list ToolCall)) :
  NoDup (sorted_phases phases).
Proof.
  unfold sorted_phases. rewrite merge_sort_Permutation.
  apply NoDup_fst_map_to_list.
Qed.

Lemma sorted_phases_sorted (phases : gmap Z (list ToolCall)) :
  StronglySorted Z.le (sorted_phases phases).
Proof. apply StronglySorted_merge_sort; apply _. Qed.

Lemma filter_flat_map {A B} (p : B → bool) (g : A → list B) l :
  List.filter p (flat_map g l) = flat_map (λ a, List.filter p (g a)) l.
Proof.
  induction l as [|a l IH]; [done|]. simpl. by rewrite List.filter_app, IH.
Qed.

Lemma filter_new_tasks p k (calls : list ToolCall) :
  List.filter (λ t, task_phase t =? k) (map (new_task p) calls)
  = if p =? k then map (new_task p) calls else [].
Proof.
  induction calls as [|call calls IH]; simpl; [by destruct (p =? k)|].
  rewrite IH. by destruct (p =? k).
Qed.

Lemma flat_map_only {B} (g : Z → list B) k l :
  NoDup l →
  flat_map (λ p, if p =? k then g p else []) l
  = if decide (k ∈ l) then g k else [].
Proof.
  induction 1 as [|p l Hp Hl IH]; [done|]. cbn [flat_map]. rewrite IH.
  destruct (Z.eqb_spec p k) as [->|Hk].
  - rewrite (decide_False (P := k ∈ l)) by done. rewrite decide_True by left.
    by rewrite List.app_nil_r.
  - destruct (decide (k ∈ l)) as [Hin|Hin].
    + by rewrite decide_True by by right.
    + rewrite decide_False; [done|]. by intros [->|?]%elem_of_cons.
Qed.

(** X14. The tasks the coordinator creates for phase [k] are the spawn
    directives of the plan that read as phase [k], each turned into a
    pending task of that phase with the id, the description and the
    branch of the directive, in the order of the plan. *)
Theorem planned_tasks_of_phase calls k :
  List.filter (λ t, task_phase t =? k) (planned_tasks (group_by_phase calls))
  = map (new_task k) (calls_of_phase k calls).
Proof.
  unfold planned_tasks. rewrite filter_flat_map.
  rewrite (flat_map_ext _ (λ p, if p =? k
                                then map (new_task p)
                                       (default [] (group_by_phase calls !! p))
                                else []))
    by (intros p; apply filter_new_tasks).
  rewrite (flat_map_only
             (λ p, map (new_task p) (default [] (group_by_phase calls !! p))))
    by apply sorted_phases_NoDup.
  pose proof (sorted_phases_elem (group_by_phase calls) k) as Hin.
  assert (group_by_phase calls !! k
          = match calls_of_phase k calls with [] => None | l => Some l end)
    as Hg.
  { unfold group_by_phase. rewrite group_fold_lookup. by rewrite lookup_empty. }
  rewrite Hg in Hin |- *.
  destruct (calls_of_phase k calls) as [|call l].
  - by destruct (decide _).
  - rewrite decide_True; [done|]. apply Hin. eauto.
Qed.

Lemma flat_map_sorted {B} (g : Z → list B) (key : B → Z) l :
  (∀ p b, b ∈ g p → key b = p) →
  StronglySorted Z.le l →
  StronglySorted (λ a b, key a ≤ key b) (flat_map g l).
Proof.
  intros Hkey. induction 1 as [|p l Hl IH Hp]; [constructor|].
  cbn [flat_map].
  assert (∀ b, b ∈ flat_map g l → p ≤ key b) as Hrest.
  { intros b Hb%list_elem_of_In. apply in_flat_map in Hb as (q & Hq & Hb).
    rewrite (Hkey q b) by by apply list_elem_of_In.
    rewrite Forall_forall in Hp. apply Hp. by apply list_elem_of_In. }
  assert (∀ bs, (∀ b, b ∈ bs → key b = p) →
                StronglySorted (λ a b, key a ≤ key b) (bs ++ flat_map g l))
    as Hbs.
  { induction bs as [|b bs IHbs]; intros Hall; [done|].
    cbn [app]. constructor.
    - apply IHbs. intros b' Hb'. apply Hall. by right.
    - apply Forall_forall. intros b' [Hb'|Hb']%elem_of_app.
      + rewrite (Hall b) by left. rewrite (Hall b') by by right. lia.
      + rewrite (Hall b) by left. by apply Hrest. }
  apply Hbs. intros b. apply Hkey.
Qed.

(** X15. The tasks of a plan are created by increasing phase number: in
    the list of the tasks, a task never comes before a task of a lower
    phase, whatever the order of the directives in the plan. *)
Theorem planned_tasks_by_increasing_phase calls :
  StronglySorted (λ a b, task_phase a ≤ task_phase b)
                 (planned_tasks (group_by_phase calls)).
Proof.
  unfold planned_tasks. apply flat_map_sorted; [|apply sorted_phases_sorted].
  intros p t Ht%list_elem_of_In. apply in_map_iff in Ht as (call & <- & _).
  done.
Qed.

End Planner.

Lemma phase_number_read_from_task_id_witness :
  phase_of_task_id "phase12_api" = 12.
Proof.
  apply (phase_number_read_from_task_id "12" "_api");
    [reflexivity|reflexivity|simpl; lia|by right].
Defined.

(** ** The coordinator: creating and awaiting the tasks of a phase *)

Section PhaseLoop.

Context {W : Type} (env : World W).




(** A poll that did not find the phase complete leaves the tasks it has
    seen. *)
Lemma poll_phase_pending k (st : State W) st' :
  poll_phase env k st = (Ok false, st') →
  project_tasks (st_project st') = seen_at_poll env st.
Proof.
  unfold poll_phase, time_sleep, yield_to_workers.
  unfold bind at 1 2 3 4 5 6. unfold emit, get_state, set_world, set_project.
  simpl. fold (seen_at_poll env st).
  destruct (phase_complete k (seen_at_poll env st)); [done|].
  intros (r & s1 & Hquery & (response & s2 & Hexp
          & (rs & s3 & Hreads & (u & s4 & Hcmds & Hret)%bind_ok)%bind_ok)%bind_ok)%bind_ok.
  apply query_llm_same_registry in Hquery as [Hq _].
  assert (s2 = s1) as ->.
  { unfold expect_str, ret, raise in Hexp. destruct r; by simplify_eq. }
  destruct (read_files_spec env (extract_read_file_calls response) s1)
    as (rs' & s3' & Hreads' & [Hr _]%extends_same_registry & _).
  rewrite Hreads' in Hreads. simplify_eq.
  assert (st_project s4 = st_project s3) as Hc.
  { destruct (take 3 (extract_bash_commands response)) as [|cmd cmds];
      [unfold ret in Hcmds; by simplify_eq|].
    apply bind_ok in Hcmds as (bs & s5 & Hcmds & Hret').
    unfold ret in Hret'. simplify_eq.
    unfold execute_bash_commands, bind, get_state in Hcmds.
    destruct (execute_bash_commands_in_spec env (project_dir (st_project s3))
                (cmd :: cmds) s3)
      as (bs' & s5' & Hrun & [Hp _]%extends_same_registry & _).
    rewrite Hrun in Hcmds. by simplify_eq. }
  unfold ret in Hret. simplify_eq. rewrite Hc, Hr, Hq. done.
Qed.

(** X17. A failed task blocks its phase for ever.  When a task of phase
    [k] is failed and the workers leave failed tasks failed, the wait
    loop for phase [k] never declares the phase complete, however many
    polls it makes: it goes on polling, or ends by an exception. *)
Theorem failed_task_blocks_phase fuel k (st : State W) i t :
  failed_stays_failed env →
  project_tasks (st_project st) !! i = Some t →
  task_phase t = k → task_status t = failed →
  ∀ st', wait_for_phase env fuel k st ≠ (Ok true, st').
Proof.
  intros Hkeep. revert st t. induction fuel as [|fuel IH];
    intros st t Ht Hk Hf st'; cbn [wait_for_phase]; [by unfold ret|].
  destruct (Hkeep (sleep env (st_world st) 5) _ _ _ Ht Hf)
    as (t' & Ht' & Hk' & Hf').
  fold (seen_at_poll env st) in Ht'.
  unfold bind. destruct (poll_phase env k st) as [[[]|e] st1] eqn:Hpoll; [| |done].
  - apply poll_phase_result in Hpoll as [(Hc & _ & _)|[_ Hr]]; [|done].
    rewrite phase_complete_spec in Hc.
    specialize (Hc t' (list_elem_of_lookup_2 _ _ _ Ht') ltac:(congruence)).
    congruence.
  - apply poll_phase_pending in Hpoll.
    apply (IH st1 t'); [by rewrite Hpoll|congruence|done].
Qed.

(** X18. The wait loop declares a phase complete only on a poll that
    found it so: in the registry the loop leaves when it returns, every
    task of phase [k] is completed. *)
Theorem phase_left_only_when_completed fuel k (st : State W) st' :
  wait_for_phase env fuel k st = (Ok true, st') →
  ∀ t, t ∈ project_tasks (st_project st') → task_phase t = k →
       task_status t = completed.
Proof.
  revert st. induction fuel as [|fuel IH]; intros st; cbn [wait_for_phase].
  - by unfold ret.
  - intros (done & st1 & Hpoll & Hrest)%bind_ok. destruct done.
    + unfold ret in Hrest. simplify_eq.
      apply poll_phase_result in Hpoll as [(Hc & _ & Hseen)|[_ Hr]]; [|done].
      rewrite Hseen. by apply phase_complete_spec.
    + by apply (IH st1).
Qed.

End PhaseLoop.

Lemma failed_task_blocks_phase_witness :
  failed_stays_failed settled_env
  ∧ ∀ st', wait_for_phase settled_env 3 2 supervised_state ≠ (Ok true, st').
Proof.
  assert (failed_stays_failed settled_env) as Hkeep.
  { intros w tasks i t Ht Hf. exists t. done. }
  split; [exact Hkeep|].
  apply (failed_task_blocks_phase settled_env 3 2 supervised_state 1%nat
           (mkTask "phase2_core" "Implement core functionality"
                   "feature/core" 2 failed (Some "worker-1") None));
    [exact Hkeep|reflexivity..].
Defined.

Lemma phase_left_only_when_completed_witness :
  (wait_for_phase Sim.env 2 1 supervised_state).1 = Ok true
  ∧ ∀ t, t ∈ project_tasks
               (st_project (wait_for_phase Sim.env 2 1 supervised_state).2) →
         task_phase t = 1 → task_status t = completed.
Proof.
  split; [vm_compute; reflexivity|].
  apply (phase_left_only_when_completed Sim.env 2 1 supervised_state).
  vm_compute. reflexivity.
Defined.

(** ** The outcome of a worker run *)

Section WorkerOutcome.

Context {W : Type} (env : World W).

Lemma bind_inv {A B} (c : M W A) (k : A → M W B) (st : State W) r st' :
  bind c k st = (r, st') →
  (∃ a s, c st = (Ok a, s) ∧ k a s = (r, st'))
  ∨ (∃ e, c st = (Raise e, st') ∧ r = Raise e).
Proof.
  unfold bind. destruct (c st) as [[a|e] s]; [eauto|].
  intros [= <- <-]. eauto.
Qed.

Lemma touches_only_refl aid i (st : State W) : touches_only aid i st st.
Proof. by split. Qed.

Lemma touches_only_trans aid i (st1 st2 st3 : State W) :
  touches_only aid i st1 st2 → touches_only aid i st2 st3 →
  touches_only aid i st1 st3.
Proof.
  intros [Ht1 Ha1] [Ht2 Ha2]. split.
  - intros j Hj. by rewrite Ht2, Ht1.
  - intros b Hb. by rewrite Ha2, Ha1.
Qed.

Lemma same_registry_touches aid i (st st' : State W) :
  same_registry st st' → touches_only aid i st st'.
Proof. intros [Hp Ha]. unfold touches_only. rewrite Hp, Ha. by split. Qed.

Lemma same_registry_engaged aid tid i ts ags (st st' : State W) :
  same_registry st st' → engaged aid tid i ts ags st → engaged aid tid i ts ags st'.
Proof. intros [Hp Ha]. unfold engaged. by rewrite Hp, Ha. Qed.

(** The two assignments that end a run, on an agent and a task that are
    there. *)
Lemma mark_outcome aid tid i ts ags x y (st : State W) :
  engaged aid tid i ts ags st →
  ∃ st', (task_update i (with_task_status x) ;;;
          agents_update aid (with_agent_status y)) st = (Ok tt, st')
         ∧ engaged aid tid i x y st' ∧ touches_only aid i st st'.
Proof.
  intros (t & a & Ht & Hid & _ & Ha & Hcur & _).
  unfold task_update, agents_update.
  unfold bind, get_state, set_project, set_agents, raise. simpl. rewrite Ha.
  eexists. split; [reflexivity|]. split.
  - exists (with_task_status x t), (with_agent_status y a). simpl.
    rewrite list_lookup_alter_eq, Ht, lookup_insert_eq. done.
  - split; simpl.
    + intros j Hj. by rewrite list_lookup_alter_ne.
    + intros b Hb. by rewrite lookup_insert_ne.
Qed.

Lemma finish_task_outcome aid tid i ts ags task response (st : State W) :
  engaged aid tid i ts ags st →
  ∃ st', finish_task env aid i task response st = (Ok (Return tt), st')
         ∧ engaged aid tid i completed agent_completed st'
         ∧ touches_only aid i st st'.
Proof.
  intros (t & a & Ht & Hid & _ & Ha & Hcur & _).
  destruct (BashExecutor_run_spec env "git add ." (project_dir (st_project st)) 30 st)
    as (r1 & s1 & Hrun1 & [Hp1 Ha1]%extends_same_registry).
  destruct (BashExecutor_run_spec env
              ("git commit -m " +:+ dq +:+ "Phase " +:+ str_of_int (task_phase task)
               +:+ ": " +:+ task_description task +:+ dq)
              (project_dir (st_project st)) 30 s1)
    as (r2 & s2 & Hrun2 & [Hp2 Ha2]%extends_same_registry).
  unfold finish_task, run_commit, commit_commands, mark_completed, task_update,
    agents_update.
  cbn [for_each]. unfold bind, get_state, ret, set_project, set_agents.
  rewrite Hrun1, Hp1, Hrun2. simpl. rewrite Ha2, Ha1, Ha. simpl.
  eexists. split; [reflexivity|]. rewrite Hp2, Hp1. split.
  - exists (with_task_output (Some response) (with_task_status completed t)),
      (with_agent_status agent_completed a). simpl.
    rewrite !list_lookup_alter_eq, Ht, lookup_insert_eq. done.
  - split; simpl.
    + intros j Hj. by rewrite !list_lookup_alter_ne.
    + intros b Hb. by rewrite lookup_insert_ne.
Qed.

(** The actions of a reply leave the registry alone, also when one of
    them raises. *)
Lemma apply_reply_registry response (st : State W) r st' :
  apply_reply env response st = (r, st') → same_registry st st'.
Proof.
  unfold apply_reply. unfold bind at 1.
  destruct (read_files_spec env (extract_read_file_calls response) st)
    as (rs & st1 & -> & Hreg1%extends_same_registry & _).
  unfold bind at 1.
  destruct (match extract_file_creations response with
            | [] => ret []
            | _ :: _ => create_files_from_tags env (extract_file_creations response)
            end st1) as [rf st2] eqn:Hfiles.
  assert (same_registry st1 st2 ∧ (∀ e, rf = Raise e → project_dir (st_project st1) = None))
    as [Hreg2 Hraise].
  { destruct (extract_file_creations response) as [|f files] eqn:Hfs.
    - unfold ret in Hfiles. simplify_eq. by split.
    - destruct (project_dir (st_project st1)) as [d|] eqn:Hd.
      + destruct (create_files_spec env (f :: files) d st1 Hd)
          as (fs' & st2' & Hrun & Hext & _).
        unfold create_files_from_tags in Hfiles. rewrite Hrun in Hfiles.
        simplify_eq. split; [by eapply extends_same_registry|done].
      + unfold create_files_from_tags in Hfiles. simpl in Hfiles.
        unfold bind, create_file, join_project_dir in Hfiles.
        unfold bind, get_state, raise in Hfiles. rewrite Hd in Hfiles.
        simplify_eq. by split. }
  destruct rf as [fs|e].
  2:{ intros [= <- <-]. by eapply same_registry_trans. }
  unfold bind at 1.
  destruct (match extract_bash_commands response with
            | [] => ret []
            | _ :: _ => execute_bash_commands env (extract_bash_commands response)
            end st2) as [rb st3] eqn:Hcmds.
  assert (same_registry st2 st3 ∧ ∃ bs, rb = Ok bs) as [Hreg3 [bs ->]].
  { destruct (extract_bash_commands response) as [|c cs] eqn:Hcs.
    - unfold ret in Hcmds. simplify_eq. split; [by split|eauto].
    - unfold execute_bash_commands, bind, get_state in Hcmds.
      destruct (execute_bash_commands_in_spec env (project_dir (st_project st2))
                  (c :: cs) st2)
        as (bs' & s3' & Hrun & Hext%extends_same_registry & _).
      rewrite Hrun in Hcmds. simplify_eq. split; [done|eauto]. }
  unfold ret. intros [= <- <-].
  eapply same_registry_trans; [done|]. by eapply same_registry_trans.
Qed.

(** One step: it ends the run with the task and the agent completed, or
    it leaves the registry alone. *)
Lemma worker_step_outcome aid tid i ts ags task prompt step (st : State W) r st' :
  engaged aid tid i ts ags st →
  worker_step env aid i task prompt step st = (r, st') →
  (r = Ok (Return tt) ∧ engaged aid tid i completed agent_completed st'
   ∧ touches_only aid i st st')
  ∨ ((r = Ok Next ∨ ∃ e, r = Raise e) ∧ same_registry st st').
Proof.
  intros Heng. unfold worker_step.
  intros [(q & s1 & Hquery & Hrest)|(e & Hquery & ->)]%bind_inv.
  2:{ right. split; [eauto|]. by eapply query_llm_same_registry. }
  apply query_llm_same_registry in Hquery.
  apply bind_inv in Hrest as [(response & s2 & Hexp & Hrest)|(e & Hexp & ->)].
  2:{ right. split; [eauto|].
      unfold expect_str, ret, raise in Hexp. destruct q; by simplify_eq. }
  assert (s2 = s1) as ->.
  { unfold expect_str, ret, raise in Hexp. destruct q; by simplify_eq. }
  apply bind_inv in Hrest as [(results & s3 & Happly & Hrest)|(e & Happly & ->)].
  2:{ right. split; [eauto|]. apply apply_reply_registry in Happly.
      by eapply same_registry_trans. }
  apply apply_reply_registry in Happly.
  assert (same_registry st s3) as Hreg by by eapply same_registry_trans.
  pose proof (same_registry_engaged _ _ _ _ _ _ _ Hreg Heng) as Heng3.
  destruct (finish_task_outcome aid tid i ts ags task response s3 Heng3)
    as (sf & Hfin & Hengf & Htouch).
  assert (touches_only aid i st sf) as Htouch'.
  { eapply touches_only_trans; [|done]. by apply same_registry_touches. }
  destruct (nonempty_list _ && existsb _ _).
  { rewrite Hfin in Hrest. simplify_eq. by left. }
  destruct (mentions completion_phrases response).
  { rewrite Hfin in Hrest. simplify_eq. by left. }
  unfold ret in Hrest. simplify_eq. right. split; [eauto|done].
Qed.

Lemma worker_steps_outcome aid tid i ts ags task prompt steps (st : State W) r st' :
  engaged aid tid i ts ags st →
  for_each steps (worker_step env aid i task prompt) st = (r, st') →
  (r = Ok (Return tt) ∧ engaged aid tid i completed agent_completed st'
   ∧ touches_only aid i st st')
  ∨ ((r = Ok Next ∨ ∃ e, r = Raise e) ∧ same_registry st st').
Proof.
  revert st. induction steps as [|step steps IH]; intros st Heng;
    cbn [for_each].
  { unfold ret. intros [= <- <-]. right. split; [eauto|by split]. }
  intros [(f & s1 & Hstep & Hrest)|(e & Hstep & ->)]%bind_inv.
  - apply (worker_step_outcome _ _ _ _ _ _ _ _ _ _ _ Heng) in Hstep
      as [(Hf & Heng1 & Htouch)|[[Hf|[e Hf]] Hreg]]; simplify_eq.
    + unfold ret in Hrest. simplify_eq. by left.
    + pose proof (same_registry_engaged _ _ _ _ _ _ _ Hreg Heng) as Heng1.
      apply (IH _ Heng1) in Hrest as [(-> & Heng' & Htouch)|[Hr Hreg']].
      * left. split; [done|]. split; [done|].
        eapply touches_only_trans; [|done]. by apply same_registry_touches.
      * right. split; [done|]. by eapply same_registry_trans.
  - apply (worker_step_outcome _ _ _ _ _ _ _ _ _ _ _ Heng) in Hstep
      as [(Hf & _)|[_ Hreg]]; [done|]. right. split; [eauto|done].
Qed.

(** The statements before the [try], on an agent and a task that are
    there. *)
Lemma worker_start_outcome aid tid (st : State W) a i task :
  st_agents st !! aid = Some a →
  list_find (λ t, task_id t = tid) (project_tasks (st_project st)) = Some (i, task) →
  ∃ st1, worker_start aid tid st = (Ok (i, task), st1)
         ∧ engaged aid tid i in_progress working st1
         ∧ touches_only aid i st st1
         ∧ project_dir (st_project st1) = project_dir (st_project st).
Proof.
  intros Ha Hfind. unfold worker_start, agents_update, task_update.
  unfold bind, get_state, set_agents, set_project, raise, ret.
  rewrite Ha. simpl. rewrite lookup_insert_eq. simpl. rewrite Hfind. simpl.
  apply list_find_Some in Hfind as (Hi & Hid & _).
  eexists. split; [reflexivity|]. split; [|split; [split|done]]; simpl.
  - unfold engaged. simpl. eexists _, _.
    rewrite list_lookup_alter_eq, Hi, lookup_insert_eq. done.
  - intros j Hj. by rewrite list_lookup_alter_ne.
  - intros b Hb. by rewrite !lookup_insert_ne.
Qed.

(** A worker started for an agent that is registered and a task id that
    the project holds ends without an exception once its session is
    constructed.  At the end the task is completed and the agent
    completed, or the task is failed and the agent failed; the agent is
    still on this task, and no other task and no other agent has been
    changed by the run. *)
Lemma worker_run_total aid tid (st : State W) a i task :
  st_agents st !! aid = Some a →
  list_find (λ t, task_id t = tid) (project_tasks (st_project st)) = Some (i, task) →
  ∃ st' t' a',
    run_swe_agent env aid tid st = (Ok tt, st')
    ∧ project_tasks (st_project st') !! i = Some t'
    ∧ st_agents st' !! aid = Some a'
    ∧ task_id t' = tid ∧ agent_current_task a' = Some tid
    ∧ ((task_status t' = completed ∧ agent_status a' = agent_completed)
       ∨ (task_status t' = failed ∧ agent_status a' = agent_failed))
    ∧ (∀ j, j ≠ i →
         project_tasks (st_project st') !! j = project_tasks (st_project st) !! j)
    ∧ (∀ b, b ≠ aid → st_agents st' !! b = st_agents st !! b).
Proof.
  intros Ha Hfind.
  destruct (worker_start_outcome aid tid st a i task Ha Hfind)
    as (st1 & Hstart & Heng1 & Htouch1 & _).
  unfold run_swe_agent. unfold bind at 1. rewrite Hstart.
  unfold try_except. unfold bind at 1.
  destruct (worker_loop env aid i task st1) as [r s2] eqn:Hloop.
  unfold worker_loop, bind, get_state in Hloop.
  apply (worker_steps_outcome _ _ _ _ _ _ _ _ _ _ _ Heng1) in Hloop
    as [(-> & Heng2 & Htouch2)|[Hr Hreg]].
  - destruct Heng2 as (t' & a' & Ht' & Hid & Hts & Ha' & Hcur & Hags).
    exists s2, t', a'. unfold ret.
    pose proof (touches_only_trans _ _ _ _ _ Htouch1 Htouch2) as [? ?].
    repeat split; try done. by left.
  - pose proof (same_registry_engaged _ _ _ _ _ _ _ Hreg Heng1) as Heng2.
    pose proof (same_registry_touches aid i _ _ Hreg) as Htouch2.
    pose proof (touches_only_trans _ _ _ _ _ Htouch1 Htouch2) as Htouch12.
    destruct Hr as [->|[e ->]].
    + destruct (mark_outcome aid tid i _ _ completed agent_completed s2 Heng2)
        as (s3 & Hmark & (t' & a' & Ht' & Hid & Hts & Ha' & Hcur & Hags) & Htouch3).
      exists s3, t', a'. rewrite Hmark.
      pose proof (touches_only_trans _ _ _ _ _ Htouch12 Htouch3) as [? ?].
      repeat split; try done. by left.
    + destruct (mark_outcome aid tid i _ _ failed agent_failed s2 Heng2)
        as (s3 & Hmark & (t' & a' & Ht' & Hid & Hts & Ha' & Hcur & Hags) & Htouch3).
      exists s3, t', a'. rewrite Hmark.
      pose proof (touches_only_trans _ _ _ _ _ Htouch12 Htouch3) as [? ?].
      repeat split; try done. by right.
Qed.

(** X20. A worker started for a task id that the project does not hold
    raises [StopIteration] before its [try] block: the exception is not
    handled, the agent is left at work on that id, never failed, and no
    task has been changed. *)
Theorem worker_unknown_task_left_working aid tid (st : State W) a :
  st_agents st !! aid = Some a →
  Forall (λ t, task_id t ≠ tid) (project_tasks (st_project st)) →
  ∃ e st',
    run_swe_agent env aid tid st = (Raise e, st')
    ∧ exc_kind e = StopIteration
    ∧ st_agents st' !! aid
      = Some (with_current_task (Some tid) (with_agent_status working a))
    ∧ (∀ b, b ≠ aid → st_agents st' !! b = st_agents st !! b)
    ∧ st_project st' = st_project st.
Proof.
  intros Ha Hnone.
  assert (list_find (λ t, task_id t = tid) (project_tasks (st_project st)) = None)
    as Hfind by by apply list_find_None.
  unfold run_swe_agent, worker_start, agents_update.
  unfold bind, get_state, set_agents, raise. rewrite Ha. simpl.
  rewrite lookup_insert_eq. simpl. rewrite Hfind.
  eexists _, _. split; [reflexivity|]. simpl. split; [done|].
  split; [by rewrite lookup_insert_eq|]. split; [|done].
  intros b Hb. by rewrite !lookup_insert_ne.
Qed.

End WorkerOutcome.

Lemma worker_unknown_task_left_working_witness :
  ∃ e st',
    run_swe_agent Sim.env "worker-0" "phase9_missing" refused_state = (Raise e, st')
    ∧ exc_kind e = StopIteration
    ∧ st_agents st' !! "worker-0"
      = Some (mkAgent "worker-0" swe "p-1" working (Some "phase9_missing")).
Proof.
  edestruct (worker_unknown_task_left_working Sim.env "worker-0" "phase9_missing"
               refused_state)
    as (e & st' & Hrun & He & Ha & _);
    [reflexivity|repeat constructor; discriminate|].
  exists e, st'. repeat split; assumption.
Defined.

(** ** A worker whose model does not answer *)

Section WorkerWithoutModel.

Context {W : Type} (env : World W).

(** A query whose attempts all fail, the last one by a rate limit or a
    time-out, gives [None] and changes nothing but the conversation. *)
Lemma query_llm_gives_none message max_retries (st : State W) errors w' e :
  failed_attempts env (range max_retries)
    (st_messages st ++ [mkMessage "user" message]) (st_world st)
    = Some (errors, w') →
  last errors = Some e →
  is_rate_limit_or_timeout e = true →
  ∃ st', query_llm env message max_retries st = (Ok None, st').
Proof.
  intros Hfail Hlast Hkind.
  destruct (query_loop_before_last env _ _ _ _ _ _ Hfail Hlast)
    as (st1 & w1 & Hloop & _ & _ & _ & _ & Hcall).
  destruct (query_attempt_failed env max_retries (max_retries - 1) st1 e w1 Hcall)
    as (st2 & Hrun & _); [by left|].
  unfold query_llm. unfold bind at 1. unfold append_message.
  unfold bind at 1. unfold get_state, set_messages. unfold bind at 1.
  rewrite Hloop. simpl. unfold bind at 1. rewrite Hrun. unfold ret. eauto.
Qed.

(** X21. A worker whose first query is refused at every one of its three
    attempts, the last time by a rate limit or a time-out, gets no text
    from the query; the parser raises on it and the worker ends with its
    task failed and its agent failed. *)
Theorem rate_limited_worker_fails aid tid (st : State W) a i task errors w' e :
  st_agents st !! aid = Some a →
  list_find (λ t, task_id t = tid) (project_tasks (st_project st)) = Some (i, task) →
  failed_attempts env (range 3)
    (st_messages st
     ++ [mkMessage "user" (swe_prompt task (project_dir (st_project st)))])
    (st_world st) = Some (errors, w') →
  last errors = Some e →
  is_rate_limit_or_timeout e = true →
  ∃ st' t' a',
    run_swe_agent env aid tid st = (Ok tt, st')
    ∧ project_tasks (st_project st') !! i = Some t'
    ∧ task_id t' = tid ∧ task_status t' = failed
    ∧ st_agents st' !! aid = Some a'
    ∧ agent_status a' = agent_failed.
Proof.
  intros Ha Hfind Hfail Hlast Hkind.
  destruct (worker_start_outcome aid tid st a i task Ha Hfind)
    as (st1 & Hstart & Heng1 & _ & Hdir).
  assert (st_messages st1 = st_messages st ∧ st_world st1 = st_world st)
    as [Hm1 Hw1].
  { unfold worker_start, agents_update, task_update in Hstart.
    unfold bind, get_state, set_agents, set_project, raise, ret in Hstart.
    rewrite Ha in Hstart. simpl in Hstart.
    rewrite lookup_insert_eq in Hstart. simpl in Hstart.
    rewrite Hfind in Hstart. simpl in Hstart. by simplify_eq. }
  destruct (query_llm_gives_none
              (swe_prompt task (project_dir (st_project st1))) 3 st1 errors w' e)
    as (s2 & Hquery); [by rewrite Hm1, Hw1, Hdir|done..|].
  pose proof (query_llm_same_registry env _ _ _ _ _ Hquery) as Hreg.
  pose proof (same_registry_engaged _ _ _ _ _ _ _ Hreg Heng1) as Heng2.
  destruct (mark_outcome aid tid i _ _ failed agent_failed s2 Heng2)
    as (s3 & Hmark & (t' & a' & Ht' & Hid & Hts & Ha' & _ & Hags) & _).
  exists s3, t', a'. split; [|done].
  unfold run_swe_agent. unfold bind at 1. rewrite Hstart.
  unfold try_except, worker_loop. unfold bind at 1 2. unfold get_state.
  change (range max_steps) with (0 :: map Z.of_nat (seq 1 14)).
  cbn [for_each]. unfold bind at 1. unfold worker_step at 1.
  unfold bind at 1. change (0 =? 0) with true. cbv iota. rewrite Hquery.
  unfold bind at 1. unfold expect_str, raise. exact Hmark.
Qed.

Lemma model_down_attempts e attempts ms (w : W) :
  model_down env e →
  ∃ w', failed_attempts env attempts ms w = Some (map (λ _, e) attempts, w').
Proof.
  intros Hdown. revert w. induction attempts as [|attempt attempts IH]; intros w.
  - by exists w.
  - cbn [failed_attempts map].
    destruct (Hdown (if 0 <? attempt then sleep env w (2 ^ attempt) else w) ms)
      as (w2 & ->).
    destruct (IH w2) as (w' & ->). by exists w'.
Qed.

(** With the model down, a step gets the failure text, finds nothing to
    do in it and goes on. *)
Lemma worker_step_model_down aid i task prompt step e (st : State W) :
  model_down env e → is_rate_limit_or_timeout e = false →
  silent (fallback_msg 3 e) →
  ∃ st', worker_step env aid i task prompt step st = (Ok Next, st')
         ∧ st_messages st' = st_messages st ∧ same_registry st st'.
Proof.
  intros Hdown Hkind (Hreads & Hfiles & Hcmds & Hphrase).
  destruct (model_down_attempts e (range 3)
              (st_messages st
               ++ [mkMessage "user" (if step =? 0 then prompt else continue_prompt)])
              (st_world st) Hdown) as (w' & Hfail).
  destruct (query_llm_final_error_reported env _ _ _ _ _ _ Hfail eq_refl Hkind)
    as (s1 & Hquery & _ & Hm & _).
  pose proof (query_llm_same_registry env _ _ _ _ _ Hquery) as Hreg.
  exists s1. split; [|done].
  unfold worker_step. unfold bind at 1. rewrite Hquery.
  unfold bind at 1. unfold expect_str, ret. unfold bind at 1.
  unfold apply_reply. rewrite Hreads, Hfiles, Hcmds. cbn [for_collect].
  unfold bind, ret. cbn [nonempty_list andb]. by rewrite Hphrase.
Qed.

Lemma worker_steps_model_down aid i task prompt steps e (st : State W) :
  model_down env e → is_rate_limit_or_timeout e = false →
  silent (fallback_msg 3 e) →
  ∃ st', for_each steps (worker_step env aid i task prompt) st = (Ok Next, st')
         ∧ st_messages st' = st_messages st ∧ same_registry st st'.
Proof.
  intros Hdown Hkind Hsilent. revert st.
  induction steps as [|step steps IH]; intros st.
  - exists st. by repeat split.
  - destruct (worker_step_model_down aid i task prompt step e st)
      as (s1 & Hstep & Hm1 & Hreg1); [done..|].
    destruct (IH s1) as (st' & Hloop & Hm & Hreg).
    exists st'. cbn [for_each]. unfold bind. rewrite Hstep.
    split; [done|]. split; [congruence|]. by eapply same_registry_trans.
Qed.

(** X22. With the model down for a reason that reads neither as a rate
    limit nor as a time-out, every query of a worker gives the failure
    text; when that text asks for nothing and holds none of the
    completion phrases, the worker goes through its fifteen steps and
    then marks its task completed and its agent completed, although the
    model never answered. *)
Theorem unreachable_model_marks_completed aid tid (st : State W) a i task e :
  st_agents st !! aid = Some a →
  list_find (λ t, task_id t = tid) (project_tasks (st_project st)) = Some (i, task) →
  model_down env e → is_rate_limit_or_timeout e = false →
  silent (fallback_msg 3 e) →
  ∃ st' t' a',
    run_swe_agent env aid tid st = (Ok tt, st')
    ∧ project_tasks (st_project st') !! i = Some t'
    ∧ task_id t' = tid ∧ task_status t' = completed
    ∧ st_agents st' !! aid = Some a'
    ∧ agent_status a' = agent_completed.
Proof.
  intros Ha Hfind Hdown Hkind Hsilent.
  destruct (worker_start_outcome aid tid st a i task Ha Hfind)
    as (st1 & Hstart & Heng1 & _ & _).
  destruct (worker_steps_model_down aid i task
              (swe_prompt task (project_dir (st_project st1)))
              (range max_steps) e st1)
    as (s2 & Hloop & _ & Hreg); [done..|].
  pose proof (same_registry_engaged _ _ _ _ _ _ _ Hreg Heng1) as Heng2.
  destruct (mark_outcome aid tid i _ _ completed agent_completed s2 Heng2)
    as (s3 & Hmark & (t' & a' & Ht' & Hid & Hts & Ha' & _ & Hags) & _).
  exists s3, t', a'. split; [|done].
  unfold run_swe_agent. unfold bind at 1. rewrite Hstart.
  unfold try_except, worker_loop. unfold bind at 1 2. unfold get_state.
  rewrite Hloop. by rewrite Hmark.
Qed.

End WorkerWithoutModel.

Lemma rate_limited_worker_fails_witness :
  ∃ st' t' a',
    run_swe_agent Sim.env "worker-0" "phase1_setup" throttled_state = (Ok tt, st')
    ∧ project_tasks (st_project st') !! 0%nat = Some t'
    ∧ task_status t' = failed
    ∧ st_agents st' !! "worker-0" = Some a'
    ∧ agent_status a' = agent_failed.
Proof.
  edestruct (rate_limited_worker_fails Sim.env "worker-0" "phase1_setup"
               throttled_state)
    as (st' & t' & a' & Hrun & Ht & _ & Hts & Ha & Hags);
    [reflexivity|reflexivity|vm_compute; reflexivity|reflexivity
    |vm_compute; reflexivity|].
  exists st', t', a'. repeat split; assumption.
Defined.

Lemma unreachable_model_marks_completed_witness :
  ∃ st' t' a',
    run_swe_agent down_env "worker-0" "phase1_setup" refused_state = (Ok tt, st')
    ∧ project_tasks (st_project st') !! 0%nat = Some t'
    ∧ task_status t' = completed
    ∧ st_agents st' !! "worker-0" = Some a'
    ∧ agent_status a' = agent_completed.
Proof.
  edestruct (unreachable_model_marks_completed down_env "worker-0" "phase1_setup"
               refused_state (mkAgent "worker-0" swe "p-1" idle None) 0%nat
               Sim.demo_task (mkExc OtherException "Connection refused"))
    as (st' & t' & a' & Hrun & Ht & _ & Hts & Ha & Hags);
    [reflexivity|reflexivity|by intros w ms; exists w|vm_compute; reflexivity
    |repeat split; vm_compute; reflexivity|].
  exists st', t', a'. repeat split; assumption.
Defined.

(** ** Files and commands: what a result says *)

Section Outcomes.

Context {W : Type} (env : World W).

(** A creation that reports success has written the content, and the
    world it leaves is the one left by the write. *)
Lemma create_file_written file_info d (st st1 : State W) output :
  project_dir (st_project st) = Some d →
  create_file env file_info st = (Ok (true, output), st1) →
  ∃ w0,
    write_text env w0 (PosixPath.join d (fc_path file_info)) (fc_content file_info)
    = (Ok tt, st_world st1)
    ∧ st_project st1 = st_project st
    ∧ st_messages st1
      = st_messages st
        ++ [mkMessage "user" ("File created: " +:+ fc_path file_info)].
Proof.
  intros Hd. unfold create_file, join_project_dir.
  unfold bind at 1 2. unfold get_state. rewrite Hd. unfold ret at 1.
  unfold try_except, os_makedirs, call_world, append_message.
  unfold bind, emit, get_state, set_world, set_messages, ret, raise. simpl.
  destruct (nonempty (PosixPath.dirname (PosixPath.join d (fc_path file_info)))).
  - destruct (makedirs env (st_world st) _) as [[[]|e] wm]; simpl;
      [|intros; by simplify_eq].
    destruct (write_text env wm _ _) as [[[]|e] w1] eqn:Hwrite; simpl;
      intros; simplify_eq. simpl. eauto.
  - simpl.
    destruct (write_text env (st_world st) _ _) as [[[]|e] w1] eqn:Hwrite; simpl;
      intros; simplify_eq. simpl. eauto.
Qed.

(** X23. A file that [create_files_from_tags] reports as created reads
    back: on a file system that gives back what was written, a read
    request for the same relative path, made right after, succeeds with
    the content of the tag, and the conversation has gained the note of
    the creation and then the content read. *)
Theorem created_file_reads_back file_info d (st st1 : State W) output :
  project_dir (st_project st) = Some d →
  reads_back env (PosixPath.join d (fc_path file_info)) (fc_content file_info) →
  create_file env file_info st = (Ok (true, output), st1) →
  ∃ st2,
    execute_read_file env (fc_path file_info) st1
    = (Ok (true, "Contents of " +:+ fc_path file_info +:+ ":" +:+ nl
                 +:+ fc_content file_info), st2)
    ∧ st_messages st2
      = st_messages st
        ++ [mkMessage "user" ("File created: " +:+ fc_path file_info);
            mkMessage "user" ("Contents of " +:+ fc_path file_info +:+ ":" +:+ nl
                              +:+ fc_content file_info)].
Proof.
  intros Hd Hlaw Hrun.
  destruct (create_file_written _ _ _ _ _ Hd Hrun) as (w0 & Hwrite & Hp & Hm).
  destruct (Hlaw _ _ Hwrite) as (Hex & w2 & Hread).
  unfold execute_read_file, try_except, join_project_dir, os_path_exists,
    call_world, append_message.
  unfold bind, emit, get_state, set_world, set_messages, ret, raise. simpl.
  rewrite Hp, Hd. simpl. rewrite Hex. simpl. rewrite Hread. simpl.
  eexists. split; [reflexivity|]. simpl. by rewrite Hm, <-List.app_assoc.
Qed.

(** X24. The executor reports success only for a command that has run
    and ended with exit code 0: the last call to the world is the run of
    the command, and the output is the text built from its result. *)
Theorem success_means_exit_code_zero command cwd timeout (st st' : State W) output :
  BashExecutor_run env command cwd timeout st = (Ok (true, output), st') →
  ∃ w0 result trace,
    subprocess_run env w0 command cwd timeout = (Ok result, st_world st')
    ∧ proc_returncode result = 0
    ∧ output = format_output command result
    ∧ st_trace st' = st_trace st ++ trace ++ [EvRun command cwd timeout].
Proof.
  unfold BashExecutor_run, try_except, BashExecutor_run_body.
  unfold bind at 1.
  destruct (ensure_cwd env cwd st) as [[[]|e] s1] eqn:Hcwd.
  2:{ destruct (is_timeout_expired e); unfold ret; intros; simplify_eq. }
  assert (∃ trace, st_trace s1 = st_trace st ++ trace) as [trace Htrace].
  { revert Hcwd. unfold ensure_cwd, os_path_exists, os_makedirs, call_world.
    unfold bind, emit, get_state, set_world, ret, raise.
    destruct cwd as [dir|]; [|intros; simplify_eq; exists []; by rewrite List.app_nil_r].
    destruct (nonempty dir);
      [|intros; simplify_eq; exists []; by rewrite List.app_nil_r].
    simpl. destruct (path_exists env (st_world st) dir).
    - intros; simplify_eq. by eexists.
    - simpl. destruct (makedirs env (st_world st) dir) as [[[]|e] w1]; simpl;
        intros; simplify_eq. simpl. rewrite <-List.app_assoc. by eexists. }
  unfold call_world. unfold bind, emit, get_state, set_world, ret, raise. simpl.
  destruct (subprocess_run env (st_world s1) command cwd timeout)
    as [[result|e] w1] eqn:Hrun; simpl.
  2:{ destruct (is_timeout_expired e); intros; simplify_eq. }
  intros [= Hcode <- <-]. simpl.
  exists (st_world s1), result, trace. rewrite Htrace, <-List.app_assoc.
  repeat split; [done|by apply Z.eqb_eq].
Qed.


End Outcomes.

Lemma created_file_reads_back_witness :
  ∃ st1 st2,
    create_file Sim.env (mkFileCreation "notes/todo.txt" "" "write the tests")
                busy_state
    = (Ok (true, "Created file: notes/todo.txt" +:+ nl +:+ "Size: 15 bytes"), st1)
    ∧ execute_read_file Sim.env "notes/todo.txt" st1
      = (Ok (true, "Contents of notes/todo.txt:" +:+ nl +:+ "write the tests"), st2).
Proof.
  eexists.
  edestruct (created_file_reads_back Sim.env
               (mkFileCreation "notes/todo.txt" "" "write the tests")
               Sim.demo_dir busy_state)
    as (st2 & Hread & _); [reflexivity| |vm_compute; reflexivity|].
  - intros w w' [= <-]. split.
    + apply orb_true_iff. left. apply bool_decide_eq_true. simpl.
      rewrite lookup_insert_eq. eauto.
    + eexists. simpl. by rewrite lookup_insert_eq.
  - exists st2. split; [reflexivity|exact Hread].
Defined.

Lemma success_means_exit_code_zero_witness :
  ∃ w0 result,
    subprocess_run Sim.env w0 "echo hi" (Some Sim.demo_dir) 30
    = (Ok result, st_world (BashExecutor_run Sim.env "echo hi" (Some Sim.demo_dir)
                                             30 echo_state).2)
    ∧ proc_returncode result = 0.
Proof.
  edestruct (success_means_exit_code_zero Sim.env "echo hi" (Some Sim.demo_dir) 30
               echo_state)
    as (w0 & result & trace & Hrun & Hcode & _); [vm_compute; reflexivity|].
  exists w0, result. split; [exact Hrun|exact Hcode].
Defined.


(** ** The routes *)

Section RoutesProperties.

Import Routes.

Lemma del_if_present_delete {V} k (d : gmap string V) : del_if_present k d = delete k d.
Proof.
  unfold del_if_present. case_bool_decide as Hk; [done|].
  symmetry. apply delete_id. by apply eq_None_not_Some.
Qed.

Lemma delete_loop_lookup (ids : list string) (ags : gmap string Agent)
    (logs : gmap string (list LogEntry)) id :
  let r := fold_left (λ '(ags, logs) swe_id,
                        (del_if_present swe_id ags, del_if_present swe_id logs))
                     ids (ags, logs) in
  r.1 !! id = (if bool_decide (id ∈ ids) then None else ags !! id)
  ∧ r.2 !! id = (if bool_decide (id ∈ ids) then None else logs !! id).
Proof.
  revert ags logs. induction ids as [|swe_id ids IH]; intros ags logs; [done|].
  cbn [fold_left]. destruct (IH (del_if_present swe_id ags)
                               (del_if_present swe_id logs)) as [-> ->].
  rewrite !del_if_present_delete.
  destruct (decide (id = swe_id)) as [->|Hne].
  - rewrite !lookup_delete_eq. rewrite (bool_decide_eq_true_2 (swe_id ∈ swe_id :: ids))
      by left. by case_bool_decide.
  - rewrite !lookup_delete_ne by done.
    case_bool_decide as Hin.
    + rewrite bool_decide_eq_true_2; [done|]. by right.
    + rewrite bool_decide_eq_false_2; [done|].
      by intros [?|?]%elem_of_cons.
Qed.

(** X26. Deleting a project that exists answers 200, removes the project
    and leaves every other project; it removes the coordinator and every
    worker of the project from the agents and leaves every other agent;
    it removes the logs of the workers, and those of the coordinator when
    the coordinator was registered, and leaves every other log. *)
Theorem delete_project_effect project_id (reg : Registry) p :
  projects reg !! project_id = Some p →
  ∃ reg',
    delete_project project_id reg
    = (mkResponse 200 "message" "Project deleted", reg')
    ∧ projects reg' = delete project_id (projects reg)
    ∧ (∀ id, agents reg' !! id
             = if bool_decide (project_pm_agent_id p = Some id
                               ∨ id ∈ project_swe_agent_ids p)
               then None else agents reg !! id)
    ∧ (∀ id, agent_logs reg' !! id
             = if bool_decide ((project_pm_agent_id p = Some id
                                ∧ is_Some (agents reg !! id))
                               ∨ id ∈ project_swe_agent_ids p)
               then None else agent_logs reg !! id).
Proof.
  intros Hp. unfold delete_project. rewrite Hp.
  set (start := match project_pm_agent_id p with
                | Some pm_id =>
                    if bool_decide (is_Some (agents reg !! pm_id))
                    then (delete pm_id (agents reg),
                          del_if_present pm_id (agent_logs reg))
                    else (agents reg, agent_logs reg)
                | None => (agents reg, agent_logs reg)
                end).
  assert (∀ id,
            start.1 !! id
            = (if bool_decide (project_pm_agent_id p = Some id)
               then None else agents reg !! id)
            ∧ start.2 !! id
              = (if bool_decide (project_pm_agent_id p = Some id
                                 ∧ is_Some (agents reg !! id))
                 then None else agent_logs reg !! id)) as Hstart.
  { intros id. subst start. destruct (project_pm_agent_id p) as [pm_id|].
    2:{ rewrite !bool_decide_eq_false_2; [done|by intros [? _]|done]. }
    case_bool_decide as Hpm; cbn [fst snd].
    - rewrite del_if_present_delete.
      destruct (decide (id = pm_id)) as [->|Hne].
      + rewrite !lookup_delete_eq. rewrite !bool_decide_eq_true_2; done.
      + rewrite !lookup_delete_ne by done.
        rewrite !bool_decide_eq_false_2; [done| |]; intuition congruence.
    - destruct (decide (id = pm_id)) as [->|Hne].
      + rewrite bool_decide_eq_true_2 by done.
        rewrite bool_decide_eq_false_2 by (intuition congruence).
        split; [|done]. by apply eq_None_not_Some.
      + rewrite !bool_decide_eq_false_2; [done| |]; intuition congruence. }
  destruct start as [ags logs] eqn:Hs.
  pose proof (delete_loop_lookup (project_swe_agent_ids p) ags logs) as Hloop.
  cbv zeta in Hloop.
  destruct (fold_left _ (project_swe_agent_ids p) (ags, logs)) as [ags' logs'].
  eexists. split; [reflexivity|]. split; [done|]. cbn [agents agent_logs].
  split; intros id; destruct (Hloop id) as [Ha Hl]; destruct (Hstart id) as [Ha0 Hl0];
    cbn [fst snd] in *.
  - rewrite Ha, Ha0. repeat case_bool_decide; try done; tauto.
  - rewrite Hl, Hl0. repeat case_bool_decide; try done; tauto.
Qed.

(** X27. Deleting the same project a second time answers 404 and changes
    nothing: whatever the first deletion answered, the project is not in
    the registry it leaves. *)
Theorem delete_project_twice project_id (reg : Registry) :
  delete_project project_id (delete_project project_id reg).2
  = (mkResponse 404 "error" "Project not found",
     (delete_project project_id reg).2).
Proof.
  assert (projects (delete_project project_id reg).2 !! project_id = None) as Hgone.
  { unfold delete_project.
    destruct (projects reg !! project_id) as [p|] eqn:Hp; [|done].
    destruct (match project_pm_agent_id p with
              | Some pm_id => _
              | None => _
              end) as [ags logs].
    destruct (fold_left _ _ _) as [ags' logs']. cbn [snd projects].
    apply lookup_delete_eq. }
  unfold delete_project at 1. by rewrite Hgone.
Qed.

Context {W : Type} (env : World W).


(** X29. The name stored for a project has the length of the name asked
    for and holds only letters, digits, [_] and [-]; the directory of the
    project is therefore [projects/] followed by a single component of
    lower-case letters, digits, [_] and [-], of the same length, without
    any slash or dot. *)
Theorem project_directory_component name description (w : W) (reg : Registry) :
  let project := (create_project env name description w reg).1.1 in
  String.length (project_name project) = String.length name
  ∧ all_chars is_name_char (project_name project) = true
  ∧ ∃ component,
      project_dir_path project = "projects/" +:+ component
      ∧ String.length component = String.length name
      ∧ all_chars (λ c, is_name_char c && Ascii.eqb (py_lower_char c) c) component
        = true.
Proof.
  unfold create_project.
  destruct (uuid4 env w) as [pid w1]. destruct (uuid4 env w1) as [pm_id w2].
  cbn [fst project_name]. unfold project_dir_path. cbn [project_name].
  assert (∀ c, is_name_char (if is_name_char c then c else "_"%char) = true)
    as Hsafe by (intros c; by destruct (is_name_char c) eqn:Hc).
  split; [|split].
  - induction name as [|c name IH]; [done|]. cbn [safe_name String.length].
    by rewrite IH.
  - induction name as [|c name IH]; [done|]. cbn [safe_name all_chars].
    by rewrite Hsafe, IH.
  - eexists. split; [reflexivity|]. split.
    + induction name as [|c name IH]; [done|].
      cbn [safe_name replace_space py_lower String.length]. by rewrite IH.
    + induction name as [|c name IH]; [done|].
      cbn [safe_name replace_space py_lower all_chars]. rewrite IH.
      rewrite andb_true_r.
      generalize (Hsafe c). generalize (if is_name_char c then c else "_"%char).
      clear. intros d Hd.
      destruct d as [[] [] [] [] [] [] [] []]; try (vm_compute in Hd; discriminate);
        vm_compute; reflexivity.
Qed.

End RoutesProperties.

Lemma delete_project_effect_witness :
  ∃ reg',
    Routes.delete_project "p-1" two_projects
    = (Routes.mkResponse 200 "message" "Project deleted", reg')
    ∧ Routes.agents reg' !! "worker-0" = None
    ∧ Routes.agents reg' !! "pm-1" = Some (mkAgent "pm-1" pm "p-2" idle None).
Proof.
  edestruct (delete_project_effect "p-1" two_projects)
    as (reg' & Hrun & _ & Hagents & _); [reflexivity|].
  exists reg'. split; [exact Hrun|].
  split; [exact (Hagents "worker-0")|exact (Hagents "pm-1")].
Defined.


(** ** The set-up of a project *)

Section SetupProperties.

Context {W : Type} (env : World W) (abspath : string → string).

Lemma run_commands_app t1 t2 :
  run_commands (t1 ++ t2) = run_commands t1 ++ run_commands t2.
Proof. unfold run_commands. apply flat_map_app. Qed.

(** One command of the executor: it is run once or not at all, and not
    at all only when the result is a failure. *)
Lemma BashExecutor_run_commands command cwd timeout (st : State W) :
  ∃ success output st' l,
    BashExecutor_run env command cwd timeout st = (Ok (success, output), st')
    ∧ same_registry st st'
    ∧ st_messages st' = st_messages st
    ∧ run_commands (st_trace st') = run_commands (st_trace st) ++ l
    ∧ (l = [command] ∨ (l = [] ∧ success = false)).
Proof.
  unfold BashExecutor_run, try_except, BashExecutor_run_body.
  unfold bind at 1.
  assert (∃ r s1, ensure_cwd env cwd st = (r, s1)
                  ∧ same_registry st s1 ∧ st_messages s1 = st_messages st
                  ∧ run_commands (st_trace s1) = run_commands (st_trace st))
    as (r & s1 & -> & Hreg & Hm & Htr).
  { unfold ensure_cwd, os_path_exists, os_makedirs, call_world.
    unfold bind, emit, get_state, set_world, ret, raise.
    destruct cwd as [dir|]; [|by eexists _, _].
    destruct (nonempty dir); [|by eexists _, _].
    simpl. destruct (path_exists env (st_world st) dir); simpl.
    - eexists _, _. split; [reflexivity|]. simpl.
      rewrite run_commands_app, List.app_nil_r. done.
    - destruct (makedirs env (st_world st) dir) as [[[]|e] w1]; simpl;
        (eexists _, _; split; [reflexivity|]; simpl;
         rewrite !run_commands_app, !List.app_nil_r; done). }
  destruct r as [[]|e].
  2:{ destruct (is_timeout_expired e); unfold ret;
        eexists false, _, s1, []; rewrite List.app_nil_r; repeat split;
        try done; try (by right); apply Hreg. }
  unfold call_world. unfold bind, emit, get_state, set_world, ret, raise. simpl.
  destruct Hreg as [Hp Ha].
  destruct (subprocess_run env (st_world s1) command cwd timeout)
    as [[result|e] w1]; simpl.
  - eexists _, _, _, [command]. split; [reflexivity|]. simpl.
    rewrite run_commands_app, Htr. repeat split; try done. by left.
  - destruct (is_timeout_expired e);
      (eexists _, _, _, [command]; split; [reflexivity|]; simpl;
       rewrite run_commands_app, Htr; repeat split; try done; by left).
Qed.

Lemma mark_setup_failed_outcome aid a (st : State W) :
  st_agents st !! aid = Some a →
  mark_setup_failed aid st
  = (Ok tt, mkState (st_messages st)
                    (with_project_status project_failed (st_project st))
                    (<[aid := with_agent_status agent_failed a]> (st_agents st))
                    (st_world st) (st_trace st)).
Proof.
  intros Ha. unfold mark_setup_failed, agents_update.
  unfold bind, get_state, set_agents, set_project. by rewrite Ha.
Qed.

Lemma run_setup_outcome aid a dir commands (st : State W) :
  st_agents st !! aid = Some a →
  ∃ f st' k,
    run_setup env aid dir commands st = (Ok f, st')
    ∧ st_messages st' = st_messages st
    ∧ (k ≤ length commands)%nat
    ∧ run_commands (st_trace st')
      = run_commands (st_trace st) ++ take k commands
    ∧ ((f = Next ∧ k = length commands ∧ same_registry st st')
       ∨ (f = Return tt
          ∧ st_agents st' = <[aid := with_agent_status agent_failed a]> (st_agents st)
          ∧ st_project st' = with_project_status project_failed (st_project st))).
Proof.
  revert st. induction commands as [|cmd commands IH]; intros st Ha.
  { exists Next, st, 0%nat. cbn. unfold ret. rewrite List.app_nil_r.
    repeat split; try done. left. by repeat split. }
  destruct (BashExecutor_run_commands cmd (Some dir) 30 st)
    as (success & output & s1 & l & Hrun & [Hp1 Ha1] & Hm1 & Htr1 & Hl).
  unfold run_setup. cbn [for_each]. unfold bind at 1 2. rewrite Hrun.
  destruct success; cbn [negb].
  - destruct Hl as [->|[_ ?]]; [|done].
    destruct (IH s1) as (f & st' & k & Hloop & Hm & Hk & Htr & Hend);
      [by rewrite Ha1|].
    unfold run_setup in Hloop. unfold ret at 1. rewrite Hloop.
    exists f, st', (S k). split; [done|]. split; [congruence|].
    split; [simpl; lia|]. split.
    { rewrite Htr, Htr1, <-List.app_assoc. done. }
    destruct Hend as [(-> & -> & Hp & Hag)|(-> & Hag & Hp)].
    + left. repeat split; try done; congruence.
    + right. repeat split; try done; congruence.
  - unfold bind at 1.
    rewrite (mark_setup_failed_outcome aid a s1) by by rewrite Ha1.
    unfold ret.
    eexists (Return tt), _, (length l). split; [reflexivity|]. simpl.
    split; [done|]. split; [destruct Hl as [->|[-> _]]; simpl; lia|].
    split; [|right; repeat split; congruence].
    rewrite Htr1. by destruct Hl as [->|[-> _]].
Qed.

End SetupProperties.

(** ** The executor and the console *)

Section ExecutorOnConsole.

Context {W : Type} (env : World W).

(** On a console that prints every text the executor is the one without
    its prints. *)
Lemma BashExecutor_run_on_printing (console : Console) command cwd timeout
    (st : State W) :
  (∀ text, console text = None) →
  BashExecutor_run_on env console command cwd timeout st
  = BashExecutor_run env command cwd timeout st.
Proof.
  intros Hprint. unfold BashExecutor_run_on, BashExecutor_run,
    BashExecutor_run_body, console_print.
  rewrite ?Hprint. unfold try_except, bind, ret.
  destruct (ensure_cwd env cwd st) as [[[]|e] s1].
  - destruct (call_world _ _ s1) as [[result|e] s2]; rewrite ?Hprint; [done|].
    destruct (is_timeout_expired e); by rewrite ?Hprint.
  - destruct (is_timeout_expired e); by rewrite ?Hprint.
Qed.

(** C7, on the code as it is.  The executor prints the announcement of
    the command before its [try] block: on a console that cannot encode
    that line the exception of [print] leaves the executor, which returns
    no pair; no call to the world has been made and the state is as it
    was. *)
Theorem BashExecutor_run_raises_past_boundary (console : Console) command cwd
    timeout (st : State W) e :
  console ("[BASH] Executing in " +:+ str_of_dir cwd +:+ ": " +:+ command)
  = Some e →
  BashExecutor_run_on env console command cwd timeout st = (Raise e, st).
Proof.
  intros Hline. unfold BashExecutor_run_on, console_print.
  unfold bind at 1. by rewrite Hline.
Qed.

(** The handlers print too: when the command times out and the console
    cannot encode the line of the handler, the exception of [print]
    leaves the executor in place of the pair that notes the time-out. *)
Lemma BashExecutor_run_on_timeout_escapes (console : Console) command cwd
    timeout (st s1 : State W) e0 w' e :
  console ("[BASH] Executing in " +:+ str_of_dir cwd +:+ ": " +:+ command)
  = None →
  ensure_cwd env cwd st = (Ok tt, s1) →
  subprocess_run env (st_world s1) command cwd timeout = (Raise e0, w') →
  is_timeout_expired e0 = true →
  console ("[BASH] TIMEOUT: " +:+ command) = Some e →
  ∃ st', BashExecutor_run_on env console command cwd timeout st = (Raise e, st').
Proof.
  intros Hline Hcwd Hrun Hkind Hhandler.
  unfold BashExecutor_run_on, console_print. rewrite Hline.
  unfold try_except, call_world.
  unfold bind, emit, get_state, set_world, ret, raise. rewrite Hcwd. simpl.
  rewrite Hrun. simpl. rewrite Hkind. simpl in Hhandler |- *.
  rewrite Hhandler. eauto.
Qed.

End ExecutorOnConsole.

Lemma BashExecutor_run_raises_past_boundary_witness :
  cp1252_console ("[BASH] Executing in /srv/projects/demo: " +:+ unprintable_command)
  = Some (mkExc ValueError
            "'charmap' codec can't encode character '\x81' in position 45: character maps to <undefined>")
  ∧ BashExecutor_run_on Sim.env cp1252_console unprintable_command
      (Some Sim.demo_dir) 30 echo_state
    = (Raise (mkExc ValueError
                "'charmap' codec can't encode character '\x81' in position 45: character maps to <undefined>"),
       echo_state).
Proof.
  split; [vm_compute; reflexivity|].
  apply (BashExecutor_run_raises_past_boundary Sim.env cp1252_console
           unprintable_command (Some Sim.demo_dir) 30 echo_state).
  vm_compute. reflexivity.
Defined.

(** ** A run from the construction of its session *)

Section Sessions.

Context {W : Type} (env : World W) (run_id : string).

(** A session that has been constructed: the agent is registered, the
    registry is as it was, and the conversation is the system prompt. *)
Lemma SimpleAgent_init_done aid agent_type (st s0 : State W) :
  SimpleAgent_init env run_id aid agent_type st = (Ok tt, s0) →
  is_Some (st_agents st !! aid) ∧ same_registry st s0
  ∧ ∃ system_prompt, st_messages s0 = [mkMessage "system" system_prompt].
Proof.
  unfold SimpleAgent_init, os_makedirs, call_world.
  unfold bind, get_state, emit, set_world, set_messages, ret, raise.
  destruct (st_agents st !! aid) as [a|]; [|done]. simpl.
  destruct (makedirs env (st_world st) _) as [[[]|e] w1]; simpl; [|done].
  destruct (read_text env w1 _) as [[text|e] w2]; simpl; [|done].
  intros [= <-]. simpl. split; [eauto|]. split; [by split|eauto].
Qed.

(** X19. A worker run that returns, no exception leaving it, has
    constructed its session and found its task among the tasks of the
    project, and it leaves the task completed and the agent completed, or
    the task failed and the agent failed; the agent is on this task, and
    no other task and no other agent has been changed by the run. *)
Theorem worker_run_outcome aid tid (st st' : State W) :
  run_swe_agent_session env run_id aid tid st = (Ok tt, st') →
  ∃ i task t' a',
    list_find (λ t, task_id t = tid) (project_tasks (st_project st))
    = Some (i, task)
    ∧ is_Some (st_agents st !! aid)
    ∧ project_tasks (st_project st') !! i = Some t'
    ∧ st_agents st' !! aid = Some a'
    ∧ task_id t' = tid ∧ agent_current_task a' = Some tid
    ∧ ((task_status t' = completed ∧ agent_status a' = agent_completed)
       ∨ (task_status t' = failed ∧ agent_status a' = agent_failed))
    ∧ (∀ j, j ≠ i →
         project_tasks (st_project st') !! j = project_tasks (st_project st) !! j)
    ∧ (∀ b, b ≠ aid → st_agents st' !! b = st_agents st !! b).
Proof.
  unfold run_swe_agent_session.
  intros ([] & s0 & Hinit & Hrun)%bind_ok.
  apply SimpleAgent_init_done in Hinit as ([a Ha] & [Hp0 Ha0] & _).
  destruct (list_find (λ t, task_id t = tid) (project_tasks (st_project st)))
    as [[i task]|] eqn:Hfind.
  2:{ exfalso. revert Hrun.
      unfold run_swe_agent, worker_start, agents_update.
      unfold bind, get_state, set_agents, raise. rewrite Ha0, Ha. simpl.
      rewrite lookup_insert_eq. simpl. by rewrite Hp0, Hfind. }
  destruct (worker_run_total env aid tid s0 a i task)
    as (st'' & t' & a' & Hrun' & Ht & Hag & Hid & Hcur & Hend & Htasks & Hagents);
    [by rewrite Ha0|by rewrite Hp0|].
  rewrite Hrun in Hrun'. injection Hrun' as <-.
  exists i, task, t', a'. rewrite Hp0 in Htasks. rewrite Ha0 in Hagents.
  repeat split; try done.
Qed.

End Sessions.

Lemma worker_run_outcome_witness :
  (run_swe_agent_session Sim.env "20240101_120000" "worker-0" "phase1_setup"
     worker_session_state).1 = Ok tt
  ∧ ∃ t' a',
      project_tasks
        (st_project
           (run_swe_agent_session Sim.env "20240101_120000" "worker-0"
              "phase1_setup" worker_session_state).2) !! 0%nat = Some t'
      ∧ st_agents
          (run_swe_agent_session Sim.env "20240101_120000" "worker-0"
             "phase1_setup" worker_session_state).2 !! "worker-0" = Some a'
      ∧ ((task_status t' = completed ∧ agent_status a' = agent_completed)
         ∨ (task_status t' = failed ∧ agent_status a' = agent_failed)).
Proof.
  assert ((run_swe_agent_session Sim.env "20240101_120000" "worker-0"
             "phase1_setup" worker_session_state).1 = Ok tt) as Hok
    by (vm_compute; reflexivity).
  split; [exact Hok|].
  destruct (worker_run_outcome Sim.env "20240101_120000" "worker-0" "phase1_setup"
              worker_session_state
              (run_swe_agent_session Sim.env "20240101_120000" "worker-0"
                 "phase1_setup" worker_session_state).2)
    as (i & task & t' & a' & Hfind & _ & Ht & Ha & _ & _ & Hend & _).
  { rewrite <-Hok. apply surjective_pairing. }
  assert (i = 0%nat) as ->.
  { apply (f_equal (λ x, match x with Some (j, _) => j | None => 0%nat end)) in Hfind.
    rewrite <-Hfind. vm_compute. reflexivity. }
  exists t', a'. split; [exact Ht|]. split; [exact Ha|exact Hend].
Defined.

(** ** The set-up of a project: what its result says *)

Section SetupOutcome.

Context {W : Type} (env : World W) (abspath : string → string) (run_id : string).



End SetupOutcome.

